(** * Patient risk scorer: a shallow embedding of [patient_risk_scorer.py]

    The development follows the layers of the program:
    - the values and built-in operations of Python that the scorer uses
      (strings, integers, binary64 floats, exceptions, [sorted]);
    - the vital-sign parsers and the three risk rules;
    - [calculate_risk_score] and [process_patients];
    - the retrying paginated fetcher, over an explicit request trace;
    - [submit_assessment] and [run]. *)

From Stdlib Require Import ZArith Ascii List Bool Lia Floats.
From Stdlib Require Import Sorted Permutation.
From stdpp Require Import gmap strings pretty list sorting.

Set Warnings "-inexact-float".
Local Open Scope Z_scope.

(** ** Python values and exceptions *)

(** A field of a fetched record is a JSON scalar: [null], an integer, a
    float or a string (the record shape of the service).  Floats are the
    kernel's binary64 numbers, which is what Python's [float] is. *)
Inductive pyvalue : Type :=
| PNone
| PInt (z : Z)
| PFloat (f : float)
| PStr (s : string).

Inductive exn : Type := ValueError | TypeError | OverflowError.

Inductive result (A : Type) : Type :=
| Ok (a : A)
| Raise (e : exn).
Arguments Ok {A} a.
Arguments Raise {A} e.

(** Sequencing stops at the first exception: [x ← r; k] runs [k] on the
    value of [r], or propagates what [r] raised. *)
Global Instance result_bind : MBind result := fun A B k r =>
  match r with
  | Ok a => k a
  | Raise e => Raise e
  end.
Global Instance result_ret : MRet result := fun A a => Ok a.

(** [try: r  except (ValueError, TypeError): h] *)
Definition except_value_type {A} (r : result A) (h : result A) : result A :=
  match r with
  | Raise ValueError | Raise TypeError => h
  | _ => r
  end.

(** ** Strings

    [str] is modelled on ASCII text: a byte above 127 is a character that is
    neither white space nor a digit and has no other case. *)

Definition ascii_code (c : ascii) : Z := Z.of_N (N_of_ascii c).

(** [c.isspace()]: tab, line feed, vertical tab, form feed, carriage
    return, the four separators 28-31 and the space. *)
Definition isspace (c : ascii) : bool :=
  let n := ascii_code c in
  ((9 <=? n) && (n <=? 13)) || ((28 <=? n) && (n <=? 32)).

(** The white space that [int] and [float] skip around a literal: the same
    without the separators 28-31. *)
Definition literal_space (c : ascii) : bool :=
  let n := ascii_code c in
  ((9 <=? n) && (n <=? 13)) || (n =? 32).

Definition is_digit (c : ascii) : bool :=
  let n := ascii_code c in (48 <=? n) && (n <=? 57).

Definition digit_val (c : ascii) : Z := ascii_code c - 48.

Definition upper_char (c : ascii) : ascii :=
  let n := ascii_code c in
  if (97 <=? n) && (n <=? 122) then ascii_of_N (Z.to_N (n - 32)) else c.

Fixpoint upper (s : string) : string :=
  match s with
  | EmptyString => EmptyString
  | String c s' => String (upper_char c) (upper s')
  end.

Fixpoint lstrip (sp : ascii -> bool) (s : string) : string :=
  match s with
  | EmptyString => EmptyString
  | String c s' => if sp c then lstrip sp s' else s
  end.

Fixpoint rstrip (sp : ascii -> bool) (s : string) : string :=
  match s with
  | EmptyString => EmptyString
  | String c s' =>
      match rstrip sp s' with
      | EmptyString => if sp c then EmptyString else String c EmptyString
      | r => String c r
      end
  end.

(** [s.strip()] *)
Definition strip (s : string) : string := rstrip isspace (lstrip isspace s).

Definition literal_strip (s : string) : string :=
  rstrip literal_space (lstrip literal_space s).

(** [c in s] for a one-character [c]. *)
Fixpoint contains (c : ascii) (s : string) : bool :=
  match s with
  | EmptyString => false
  | String d s' => Ascii.eqb c d || contains c s'
  end.

(** [s.split(c)] for a one-character separator. *)
Fixpoint split (c : ascii) (s : string) : list string :=
  match s with
  | EmptyString => [EmptyString]
  | String d s' =>
      if Ascii.eqb c d then EmptyString :: split c s'
      else match split c s' with
           | p :: ps => String d p :: ps
           | [] => [String d EmptyString]
           end
  end.

(** [s.isdigit()] *)
Fixpoint all_digits (s : string) : bool :=
  match s with
  | EmptyString => true
  | String c s' => is_digit c && all_digits s'
  end.

Definition isdigit (s : string) : bool :=
  match s with
  | EmptyString => false
  | _ => all_digits s
  end.

(** [x in [s1, s2, ...]] for strings *)
Definition str_in (s : string) (l : list string) : bool :=
  existsb (String.eqb s) l.

(** ** Integers from and to text *)

(** The digits of an integer literal: [digit (["_"] digit)*].  [prev] tells
    whether the character before was a digit; an underscore is accepted only
    between two digits. *)
Fixpoint int_digits (s : string) (acc : Z) (prev : bool) : option Z :=
  match s with
  | EmptyString => if prev then Some acc else None
  | String c s' =>
      if is_digit c then int_digits s' (10 * acc + digit_val c) true
      else if Ascii.eqb c "_" && prev then int_digits s' acc false
      else None
  end.

(** The interpreter's default limit on the number of digits that [int]
    reads from a text and that [str] writes for an integer
    ([sys.get_int_max_str_digits()]); beyond it both raise [ValueError]. *)
Definition int_max_str_digits : nat := 4300.
Arguments int_max_str_digits : simpl never.

(** The number of digits of a text; the sign, the underscores and the white
    space of a literal do not count towards the limit, leading zeros do. *)
Fixpoint count_digits (s : string) : nat :=
  match s with
  | EmptyString => 0
  | String c s' => (if is_digit c then 1 else 0) + count_digits s'
  end.

(** [int(s)] in base ten; [None] stands for [ValueError], which is raised
    for a text that is not a literal and for a literal of more digits than
    the limit. *)
Definition int_of_string (s : string) : option Z :=
  let literal := literal_strip s in
  if (int_max_str_digits <? count_digits literal)%nat then None
  else
    match literal with
    | EmptyString => None
    | String c r =>
        if Ascii.eqb c "+" then int_digits r 0 false
        else if Ascii.eqb c "-" then Z.opp <$> int_digits r 0 false
        else int_digits (String c r) 0 false
    end.

(** The text of [str(z)]. *)
Definition str_of_int (z : Z) : string := pretty z.

(** ** Floats: conversions from and to integers *)

(** The binary64 number nearest to [m * 2^e] (ties to even); infinite when
    the value is beyond the largest finite float. *)
Definition float_of_dyadic (m e : Z) : float :=
  SF2Prim (binary_normalize prec emax m e false).

Definition is_inf (f : float) : bool :=
  match Prim2SF f with
  | S754_infinity _ => true
  | _ => false
  end.

(** [float(z)]: correctly rounded, and [OverflowError] when [z] is too
    large to be a finite float. *)
Definition float_of_int (z : Z) : result float :=
  let f := float_of_dyadic z 0 in
  if is_inf f then Raise OverflowError else Ok f.

(** [int(f)]: truncation toward zero; [ValueError] on NaN and
    [OverflowError] on an infinity. *)
Definition int_of_float (f : float) : result Z :=
  match Prim2SF f with
  | S754_zero _ => Ok 0
  | S754_infinity _ => Raise OverflowError
  | S754_nan => Raise ValueError
  | S754_finite s m e =>
      let a := if 0 <=? e then Z.pos m * 2 ^ e else Z.pos m / 2 ^ (- e) in
      Ok (if s then - a else a)
  end.

(** [z < f] and [f < z], exactly (Python compares an [int] with a [float]
    without rounding the integer). *)
Definition int_lt_float (z : Z) (f : float) : bool :=
  match Prim2SF f with
  | S754_nan => false
  | S754_infinity s => negb s
  | S754_zero _ => z <? 0
  | S754_finite s m e =>
      let v := if s then Z.neg m else Z.pos m in
      if 0 <=? e then z <? v * 2 ^ e else z * 2 ^ (- e) <? v
  end.

Definition float_lt_int (f : float) (z : Z) : bool :=
  match Prim2SF f with
  | S754_nan => false
  | S754_infinity s => s
  | S754_zero _ => 0 <? z
  | S754_finite s m e =>
      let v := if s then Z.neg m else Z.pos m in
      if 0 <=? e then v * 2 ^ e <? z else v <? z * 2 ^ (- e)
  end.

(** ** Floats from and to decimal text *)

(** Number of decimal digits of a positive integer. *)
Definition ndigits (m : Z) : Z := Z.of_nat (String.length (pretty m)).

(** The float nearest to [m * 10^e10], for [m >= 0].  A negative exponent
    divides; the quotient keeps more than 64 bits and a sticky bit for the
    remainder, so that the one rounding of [float_of_dyadic] is the correct
    one.  Values beyond the range of binary64 in either direction are cut
    off before any power is computed. *)
Definition float_of_decimal (m e10 : Z) : float :=
  if m =? 0 then 0%float
  else if 310 <? ndigits m + e10 then infinity
  else if ndigits m + e10 <? -330 then 0%float
  else if 0 <=? e10 then float_of_dyadic (m * 10 ^ e10) 0
  else
    let d := 10 ^ (- e10) in
    let s := Z.max 0 (Z.log2 d + 66 - Z.log2 m) in
    let q := (m * 2 ^ s) / d in
    let sticky := if (m * 2 ^ s) mod d =? 0 then 0 else 1 in
    float_of_dyadic (2 * q + sticky) (- s - 1).

(** A run of digits with optional single underscores between digits,
    accumulated onto [acc]; [cnt] counts the digits read.  The result holds
    the rest of the text.  [None]: an underscore that is not between two
    digits. *)
Fixpoint read_digits (s : string) (acc : Z) (cnt : Z) (prev : bool)
  : option (Z * Z * string) :=
  match s with
  | EmptyString => Some (acc, cnt, s)
  | String c s' =>
      if is_digit c then read_digits s' (10 * acc + digit_val c) (cnt + 1) true
      else if Ascii.eqb c "_" then
        match s' with
        | String d _ =>
            if prev && is_digit d then read_digits s' acc cnt false else None
        | EmptyString => None
        end
      else Some (acc, cnt, s)
  end.

(** The exponent part [("e" | "E") ["+" | "-"] digits] up to the end of the
    text, or nothing at all. *)
Definition read_exponent (s : string) : option Z :=
  match s with
  | EmptyString => Some 0
  | String c r =>
      if Ascii.eqb (upper_char c) "E" then
        let '(neg, r') :=
          match r with
          | String d t =>
              if Ascii.eqb d "+" then (false, t)
              else if Ascii.eqb d "-" then (true, t)
              else (false, r)
          | EmptyString => (false, r)
          end in
        match read_digits r' 0 0 false with
        | Some (e, cnt, EmptyString) =>
            if 0 <? cnt then Some (if neg then - e else e) else None
        | _ => None
        end
      else None
  end.

(** An unsigned float literal: [inf], [infinity], [nan] in any case, or
    [digits ["." digits] [exponent]] with a digit on one side of the point at
    least. *)
Definition unsigned_float_of_string (s : string) : option float :=
  if str_in (upper s) ["INF"; "INFINITY"] then Some infinity
  else if String.eqb (upper s) "NAN" then Some nan
  else
    '(m1, c1, r1) ← read_digits s 0 0 false;
    '(m, c2, r2) ← match r1 with
                   | String d t =>
                       if Ascii.eqb d "." then read_digits t m1 0 false
                       else Some (m1, 0, r1)
                   | EmptyString => Some (m1, 0, r1)
                   end;
    if 0 <? c1 + c2 then
      e ← read_exponent r2; Some (float_of_decimal m (e - c2))
    else None.

(** [float(s)] on text; [None] stands for [ValueError]. *)
Definition float_of_string (s : string) : option float :=
  match literal_strip s with
  | EmptyString => None
  | String c r =>
      if Ascii.eqb c "+" then unsigned_float_of_string r
      else if Ascii.eqb c "-" then PrimFloat.opp <$> unsigned_float_of_string r
      else unsigned_float_of_string (String c r)
  end.

(** [repr(f)], which is also [str(f)]: the shortest decimal text that reads
    back as [f], the nearest to [f] among the shortest, laid out with a
    point when the decimal exponent is between -4 and 16 and with an
    exponent otherwise. *)

Fixpoint zeros (n : nat) : string :=
  match n with
  | O => EmptyString
  | S n' => String "0" (zeros n')
  end.

Fixpoint strip_zeros (s : string) : string :=
  match s with
  | EmptyString => EmptyString
  | String c s' =>
      match strip_zeros s' with
      | EmptyString => if Ascii.eqb c "0" then EmptyString else String c EmptyString
      | r => String c r
      end
  end.

(** The position of the decimal point of [num / den > 0]: the [p] with
    [10^(p-1) <= num / den < 10^p]. *)
Definition decimal_point (num den : Z) : Z :=
  if den <=? num then ndigits (num / den)
  else
    let nd := ndigits (den / num) in
    1 - (if den <=? num * 10 ^ (nd - 1) then nd - 1 else nd).

(** The shortest digits for the positive float [f = num / den]: for
    [n = 1, 2, ...] digits, the two [n]-digit decimals around [f] are read
    back; the first [n] for which one of them gives [f] wins, and the nearer
    of the two when both do. *)
Fixpoint shortest_digits (fuel : nat) (n : Z) (f : float) (num den p : Z)
  : Z * Z :=
  let '(sn, sd) := if 0 <=? n - p then (num * 10 ^ (n - p), den)
                   else (num, den * 10 ^ (p - n)) in
  let a := sn / sd in
  let r := sn mod sd in
  let back c := PrimFloat.eqb (float_of_decimal c (p - n)) f in
  let pick c := (c, p + (ndigits c - n)) in
  if r =? 0 then pick a
  else
    match fuel with
    | O => pick (if 2 * r <? sd then a else a + 1)
    | S fuel' =>
        match back a, back (a + 1) with
        | true, true =>
            pick (if 2 * r <? sd then a
                  else if sd <? 2 * r then a + 1
                  else if Z.even a then a else a + 1)
        | true, false => pick a
        | false, true => pick (a + 1)
        | false, false => shortest_digits fuel' (n + 1) f num den p
        end
    end.

Definition exponent_text (x : Z) : string :=
  (if x <? 0 then "-" else "+") +:+
  (if Z.abs x <? 10 then "0" else "") +:+ pretty (Z.abs x).

Definition layout_digits (ds : string) (decpt : Z) : string :=
  let len := Z.of_nat (String.length ds) in
  if (-4 <? decpt) && (decpt <=? 16) then
    if decpt <=? 0 then "0." +:+ zeros (Z.to_nat (- decpt)) +:+ ds
    else if len <=? decpt then ds +:+ zeros (Z.to_nat (decpt - len)) +:+ ".0"
    else String.substring 0 (Z.to_nat decpt) ds +:+ "." +:+
         String.substring (Z.to_nat decpt) (Z.to_nat (len - decpt)) ds
  else
    String.substring 0 1 ds +:+
    (if 1 <? len then "." +:+ String.substring 1 (Z.to_nat (len - 1)) ds
     else "") +:+
    "e" +:+ exponent_text (decpt - 1).

Definition repr_float (f : float) : string :=
  match Prim2SF f with
  | S754_nan => "nan"
  | S754_infinity s => if s then "-inf" else "inf"
  | S754_zero s => if s then "-0.0" else "0.0"
  | S754_finite s m e =>
      let '(num, den) := if 0 <=? e then (Z.pos m * 2 ^ e, 1)
                         else (Z.pos m, 2 ^ (- e)) in
      let '(c, decpt) :=
        shortest_digits 17 1 (PrimFloat.abs f) num den (decimal_point num den) in
      (if s then "-" else "") +:+ layout_digits (strip_zeros (pretty c)) decpt
  end.

(** ** Built-in operations on values *)

(** The text that [str(v)] writes, when it writes one. *)
Definition text_of (v : pyvalue) : string :=
  match v with
  | PNone => "None"
  | PInt z => str_of_int z
  | PFloat f => repr_float f
  | PStr s => s
  end.

(** Whether [str] writes [v]: an integer of more digits than the limit is
    refused. *)
Definition writable (v : pyvalue) : bool :=
  match v with
  | PInt z =>
      (String.length (str_of_int (Z.abs z)) <=? int_max_str_digits)%nat
  | _ => true
  end.

(** [str(v)], also what an f-string puts for [{v}]; [ValueError] for an
    integer beyond the limit. *)
Definition py_str (v : pyvalue) : result string :=
  if writable v then Ok (text_of v) else Raise ValueError.

(** [float(v)] *)
Definition py_float (v : pyvalue) : result float :=
  match v with
  | PNone => Raise TypeError
  | PInt z => float_of_int z
  | PFloat f => Ok f
  | PStr s => match float_of_string s with
              | Some f => Ok f
              | None => Raise ValueError
              end
  end.

(** [int(v)] *)
Definition py_int (v : pyvalue) : result Z :=
  match v with
  | PNone => Raise TypeError
  | PInt z => Ok z
  | PFloat f => int_of_float f
  | PStr s => match int_of_string s with
              | Some z => Ok z
              | None => Raise ValueError
              end
  end.

(** [v is None or v == ""] *)
Definition none_or_empty (v : pyvalue) : bool :=
  match v with
  | PNone => true
  | PStr EmptyString => true
  | _ => false
  end.

(** [a < b]: text with text by code points, numbers with numbers by value,
    [TypeError] otherwise. *)
Definition py_lt (a b : pyvalue) : result bool :=
  match a, b with
  | PStr s, PStr t => Ok (String.ltb s t)
  | PInt x, PInt y => Ok (x <? y)
  | PInt x, PFloat g => Ok (int_lt_float x g)
  | PFloat f, PInt y => Ok (float_lt_int f y)
  | PFloat f, PFloat g => Ok (PrimFloat.ltb f g)
  | _, _ => Raise TypeError
  end.

(** [sorted(l)].  Python's sort is stable and asks only [<]; on a list that
    [<] orders totally every such sort returns the same list, and the first
    comparison of two values that cannot be compared raises.  Here the list
    is built by stable insertion; a list with a NaN, which [<] does not
    order, may come out arranged differently from CPython's. *)
Fixpoint insort (x : pyvalue) (l : list pyvalue) : result (list pyvalue) :=
  match l with
  | [] => Ok [x]
  | y :: l' =>
      b ← py_lt y x;
      if b : bool then r ← insort x l'; Ok (y :: r) else Ok (x :: l)
  end.

Fixpoint sorted (l : list pyvalue) : result (list pyvalue) :=
  match l with
  | [] => Ok []
  | x :: l' => s ← sorted l'; insort x s
  end.

(** [d.get(k)] and [d.get(k, dflt)] on a record *)
Definition get (d : gmap string pyvalue) (k : string) : pyvalue :=
  default PNone (d !! k).

Definition get_or (d : gmap string pyvalue) (k : string) (dflt : pyvalue)
  : pyvalue :=
  default dflt (d !! k).

(** * The risk engine *)

(** ** Blood pressure *)

Definition BP_SENTINELS : list string :=
  ["INVALID"; "N/A"; "NA"; "NULL"; "NONE"].

(** [int(part.strip()) if part.strip() else None], with [ValueError] turned
    into [None]. *)
Definition parse_bp_part (part : string) : option Z :=
  match strip part with
  | EmptyString => None
  | t => int_of_string t
  end.

(** Line 105, [bp_value = str(bp_value)], is outside every [try]: the
    [ValueError] of [str] on an integer beyond the limit is let through. *)
Definition parse_blood_pressure (bp_value : pyvalue)
  : result (option Z * option Z) :=
  if none_or_empty bp_value then Ok (None, None)
  else
    bp_value ← py_str bp_value;
    if str_in (upper bp_value) BP_SENTINELS then Ok (None, None)
    else if negb (contains "/" bp_value) then Ok (None, None)
    else
      match split "/" bp_value with
      | [systolic_str; diastolic_str] =>
          Ok (parse_bp_part systolic_str, parse_bp_part diastolic_str)
      | _ => Ok (None, None)
      end.

(** The branch of the scoring cascade that returns, named as the comments
    of the source name them. *)
Inductive bp_branch : Type :=
| Normal
| Elevated
| Stage1
| Stage2
| Fallback.

(** The four conditions of the cascade, in the order of the source. *)
Definition is_normal (systolic diastolic : Z) : bool :=
  (systolic <? 120) && (diastolic <? 80).

Definition is_elevated (systolic diastolic : Z) : bool :=
  (120 <=? systolic) && (systolic <=? 129) && (diastolic <? 80).

Definition is_stage1 (systolic diastolic : Z) : bool :=
  ((130 <=? systolic) && (systolic <=? 139))
  || ((80 <=? diastolic) && (diastolic <=? 89)).

Definition is_stage2 (systolic diastolic : Z) : bool :=
  (140 <=? systolic) || (90 <=? diastolic).

Definition bp_cascade (systolic diastolic : Z) : bp_branch :=
  if is_normal systolic diastolic then Normal
  else if is_elevated systolic diastolic then Elevated
  else if is_stage1 systolic diastolic then Stage1
  else if is_stage2 systolic diastolic then Stage2
  else Fallback.

Definition bp_points (b : bp_branch) : Z :=
  match b with
  | Normal => 0
  | Elevated => 1
  | Stage1 => 2
  | Stage2 => 3
  | Fallback => 0
  end.

Definition calculate_bp_risk (bp_value : pyvalue)
  : result (Z * option string) :=
  parsed ← parse_blood_pressure bp_value;
  match parsed with
  | (Some systolic, Some diastolic) =>
      Ok (bp_points (bp_cascade systolic diastolic), None)
  | _ => text ← py_str bp_value; Ok (0, Some ("Invalid BP: " +:+ text))
  end.

(** ** Temperature *)

Definition TEMP_SENTINELS : list string :=
  ["TEMP_ERROR"; "INVALID"; "N/A"; "NA"; "NULL"; "NONE"].

Definition temp_cascade (temp : float) : Z :=
  if PrimFloat.leb temp 99.5 then 0
  else if PrimFloat.leb 99.6 temp && PrimFloat.leb temp 100.9 then 1
  else 2.

Definition invalid_temperature (temp_value : pyvalue)
  : result (Z * option string) :=
  text ← py_str temp_value; Ok (0, Some ("Invalid temperature: " +:+ text)).

(** Lines 169-179: the coercion under [except (ValueError, TypeError)] and
    the cascade.  An [OverflowError] of [float] is not caught. *)
Definition temp_risk_of_number (temp_value : pyvalue)
  : result (Z * option string) :=
  match py_float temp_value with
  | Ok temp => Ok (temp_cascade temp, None)
  | Raise ValueError | Raise TypeError => invalid_temperature temp_value
  | Raise e => Raise e
  end.

Definition calculate_temp_risk (temp_value : pyvalue)
  : result (Z * option string) :=
  if none_or_empty temp_value then Ok (0, Some "Missing temperature")
  else
    match temp_value with
    | PStr s =>
        if str_in (upper s) TEMP_SENTINELS
        then invalid_temperature temp_value
        else match float_of_string s with
             | Some f => temp_risk_of_number (PFloat f)
             | None => invalid_temperature temp_value
             end
    | _ => temp_risk_of_number temp_value
    end.

(** ** Age *)

Definition age_cascade (age : Z) : Z :=
  if age <? 40 then 0
  else if (40 <=? age) && (age <=? 65) then 1
  else 2.

Definition invalid_age (age_value : pyvalue) : result (Z * option string) :=
  text ← py_str age_value; Ok (0, Some ("Invalid age: " +:+ text)).

(** Lines 193-205. *)
Definition age_risk_of_number (age_value : pyvalue)
  : result (Z * option string) :=
  match py_int age_value with
  | Ok age => Ok (age_cascade age, None)
  | Raise ValueError | Raise TypeError => invalid_age age_value
  | Raise e => Raise e
  end.

Definition calculate_age_risk (age_value : pyvalue)
  : result (Z * option string) :=
  if none_or_empty age_value then Ok (0, Some "Missing age")
  else
    match age_value with
    | PStr s =>
        if negb (isdigit s) then invalid_age age_value
        else match int_of_string s with
             | Some z => age_risk_of_number (PInt z)
             | None => invalid_age age_value
             end
    | _ => age_risk_of_number age_value
    end.

(** ** The score of one patient *)

Record RiskScore : Type := {
  bp_score : Z;
  temp_score : Z;
  age_score : Z;
  total_score : Z;
  has_data_issues : bool;
  issues : list string
}.

(** [RiskScore()] *)
Definition RiskScore_new : RiskScore :=
  {| bp_score := 0; temp_score := 0; age_score := 0; total_score := 0;
     has_data_issues := false; issues := [] |}.

(** [if issue: risk.issues.append(issue); risk.has_data_issues = True]:
    [None] and the empty string are false. *)
Definition note_issue (issue : option string) (risk : RiskScore) : RiskScore :=
  match issue with
  | Some (String c s) =>
      {| bp_score := bp_score risk; temp_score := temp_score risk;
         age_score := age_score risk; total_score := total_score risk;
         has_data_issues := true;
         issues := issues risk ++ [String c s] |}
  | _ => risk
  end.

Definition set_bp_score (v : Z) (risk : RiskScore) : RiskScore :=
  {| bp_score := v; temp_score := temp_score risk;
     age_score := age_score risk; total_score := total_score risk;
     has_data_issues := has_data_issues risk; issues := issues risk |}.

Definition set_temp_score (v : Z) (risk : RiskScore) : RiskScore :=
  {| bp_score := bp_score risk; temp_score := v;
     age_score := age_score risk; total_score := total_score risk;
     has_data_issues := has_data_issues risk; issues := issues risk |}.

Definition set_age_score (v : Z) (risk : RiskScore) : RiskScore :=
  {| bp_score := bp_score risk; temp_score := temp_score risk;
     age_score := v; total_score := total_score risk;
     has_data_issues := has_data_issues risk; issues := issues risk |}.

Definition set_total_score (v : Z) (risk : RiskScore) : RiskScore :=
  {| bp_score := bp_score risk; temp_score := temp_score risk;
     age_score := age_score risk; total_score := v;
     has_data_issues := has_data_issues risk; issues := issues risk |}.

Definition calculate_risk_score (patient : gmap string pyvalue)
  : result RiskScore :=
  let risk := RiskScore_new in
  '(bp, bp_issue) ← calculate_bp_risk (get patient "blood_pressure");
  let risk := note_issue bp_issue (set_bp_score bp risk) in
  '(temp, temp_issue) ← calculate_temp_risk (get patient "temperature");
  let risk := note_issue temp_issue (set_temp_score temp risk) in
  '(age, age_issue) ← calculate_age_risk (get patient "age");
  let risk := note_issue age_issue (set_age_score age risk) in
  Ok (set_total_score (bp_score risk + temp_score risk + age_score risk) risk).

(** ** Cohorts *)

Record Cohorts : Type := {
  high_risk_patients : list pyvalue;
  fever_patients : list pyvalue;
  data_quality_issues : list pyvalue;
  total_patients : nat
}.

(** Lines 246-251: [temp is not None and float(temp) >= 99.6] under
    [except (ValueError, TypeError): pass]. *)
Definition has_fever (temp : pyvalue) : result bool :=
  match temp with
  | PNone => Ok false
  | _ =>
      match py_float temp with
      | Ok f => Ok (PrimFloat.leb 99.6 f)
      | Raise ValueError | Raise TypeError => Ok false
      | Raise e => Raise e
      end
  end.

(** The three lists that the loop of [process_patients] appends to. *)
Record tally : Type := {
  high_risk : list pyvalue;
  fever : list pyvalue;
  data_quality : list pyvalue
}.

Definition patient_id_of (patient : gmap string pyvalue) : pyvalue :=
  get_or patient "patient_id" (PStr "UNKNOWN").

(** One turn of the loop. *)
Definition classify (t : tally) (patient : gmap string pyvalue)
  : result tally :=
  let patient_id := patient_id_of patient in
  risk ← calculate_risk_score patient;
  let high := if 4 <=? total_score risk
              then high_risk t ++ [patient_id] else high_risk t in
  hot ← has_fever (get patient "temperature");
  let fev := if hot : bool then fever t ++ [patient_id] else fever t in
  let dq := if has_data_issues risk
            then data_quality t ++ [patient_id] else data_quality t in
  Ok {| high_risk := high; fever := fev; data_quality := dq |}.

Fixpoint for_each {S A} (body : S -> A -> result S) (s : S) (l : list A)
  : result S :=
  match l with
  | [] => Ok s
  | a :: l' => s' ← body s a; for_each body s' l'
  end.

Definition process_patients (patients : list (gmap string pyvalue))
  : result Cohorts :=
  t ← for_each classify
        {| high_risk := []; fever := []; data_quality := [] |} patients;
  h ← sorted (high_risk t);
  f ← sorted (fever t);
  d ← sorted (data_quality t);
  Ok {| high_risk_patients := h; fever_patients := f;
        data_quality_issues := d; total_patients := length patients |}.

(** * The paginated fetcher *)

Definition MAX_RETRIES : nat := 5.
Definition RETRY_DELAY : float := 1.0.
Definition BACKOFF_MULTIPLIER : Z := 2.

(** The decoded body of a page: the ["data"] entry when there is one, and
    [pagination], when there is one, with its ["hasNext"] entry when there
    is one.  The empty object has neither. *)
Record body : Type := {
  data : option (list (gmap string pyvalue));
  pagination : option (option bool)
}.

(** What [requests.get] gives: a response with its status and body, or a
    [RequestException]. *)
Inductive response : Type :=
| Response (status_code : Z) (json : body)
| RequestException.

(** What the fetcher does to the outside, in order. *)
Inductive event : Type :=
| Get (page limit : Z)
| Sleep (seconds : float).

(** [RETRY_DELAY * (BACKOFF_MULTIPLIER ** attempt)] *)
Definition wait_time (attempt : nat) : float :=
  PrimFloat.mul RETRY_DELAY
    (float_of_dyadic (BACKOFF_MULTIPLIER ^ Z.of_nat attempt) 0).

(** [status_code in [429, 500, 503]] *)
Definition transient (status_code : Z) : bool :=
  existsb (Z.eqb status_code) [429; 500; 503].

(** [not pagination.get("hasNext", False)], negated *)
Definition has_next (b : body) : bool :=
  match pagination b with
  | Some (Some true) => true
  | _ => false
  end.

Section Fetcher.

(** The service: its answer to a request may depend on everything that
    happened before, requests and pauses. *)
Variable source : list event -> Z -> Z -> response.

(** The [for attempt in range(MAX_RETRIES)] loop, [attempt] being the
    current index and [remaining] the number of turns left.  The state is
    the trace of events so far. *)
Fixpoint retry_loop (remaining attempt : nat) (page limit : Z)
  (tr : list event) : option body * list event :=
  match remaining with
  | O => (None, tr)
  | S remaining' =>
      let tr' := tr ++ [Get page limit] in
      let backoff :=
        retry_loop remaining' (S attempt) page limit
          (tr' ++ [Sleep (wait_time attempt)]) in
      match source tr page limit with
      | Response status_code json =>
          if status_code =? 200 then (Some json, tr')
          else if transient status_code then backoff
          else (None, tr')
      | RequestException => backoff
      end
  end.

Definition fetch_patients_with_retry (page limit : Z) (tr : list event)
  : option body * list event :=
  retry_loop MAX_RETRIES 0 page limit tr.

(** The [while True] loop; [None] when [fuel] turns did not reach a
    [break]. *)
Fixpoint fetch_loop (fuel : nat) (all_patients : list (gmap string pyvalue))
  (page : Z) (tr : list event)
  : option (list (gmap string pyvalue) * list event) :=
  match fuel with
  | O => None
  | S fuel' =>
      let '(result, tr) := fetch_patients_with_retry page 10 tr in
      match result with
      | None => Some (all_patients, tr)
      | Some b =>
          match data b with
          | None => Some (all_patients, tr)
          | Some [] => Some (all_patients, tr)
          | Some patients =>
              let all_patients := all_patients ++ patients in
              if has_next b
              then fetch_loop fuel' all_patients (page + 1)
                     (tr ++ [Sleep 0.2])
              else Some (all_patients, tr)
          end
      end
  end.

Definition fetch_all_patients (fuel : nat)
  : option (list (gmap string pyvalue) * list event) :=
  fetch_loop fuel [] 1 [].

End Fetcher.

(** * Submitting the results

    Printing is left out of [submit_assessment] and [run]: it returns
    nothing and changes no value, the standard output being taken to accept
    every text.  What remains of the display code is what can raise. *)

(** A decoded JSON value, what [response.json()] gives for the answer to
    the submission.  An object is the list of its entries, keys distinct. *)
#[warnings="-register-all"]
Inductive jvalue : Type :=
| JNull
| JBool (b : bool)
| JInt (z : Z)
| JFloat (f : float)
| JStr (s : string)
| JArr (items : list jvalue)
| JObj (entries : list (string * jvalue)).

(** The truth value of a decoded value, as [if v] takes it. *)
Definition truthy (v : jvalue) : bool :=
  match v with
  | JNull => false
  | JBool b => b
  | JInt z => negb (z =? 0)
  | JFloat f => negb (PrimFloat.eqb f 0)
  | JStr s => negb (String.eqb s "")
  | JArr items => match items with [] => false | _ => true end
  | JObj entries => match entries with [] => false | _ => true end
  end.

(** The entry of a [dict] under a key. *)
Fixpoint lookup_entry (key : string) (entries : list (string * jvalue))
  : option jvalue :=
  match entries with
  | [] => None
  | (k, v) :: rest =>
      if String.eqb k key then Some v else lookup_entry key rest
  end.

(** [v[key]] for a text [key]: the entry of a [dict]; [None] stands for the
    [KeyError] of a [dict] without the key and for the [TypeError] of every
    other value. *)
Definition subscript (v : jvalue) (key : string) : option jvalue :=
  match v with
  | JObj entries => lookup_entry key entries
  | _ => None
  end.

(** [t in s] on texts *)
Fixpoint is_substring (t s : string) : bool :=
  String.prefix t s
  || match s with
     | EmptyString => false
     | String _ s' => is_substring t s'
     end.

(** [key in v] for a text [key]: a key of a [dict], an item of a [list], a
    part of a text; [None] stands for the [TypeError] of the other values. *)
Definition py_in (key : string) (v : jvalue) : option bool :=
  match v with
  | JObj entries =>
      Some (match lookup_entry key entries with
            | Some _ => true
            | None => false
            end)
  | JArr items =>
      Some (existsb (fun x => match x with
                              | JStr s => String.eqb s key
                              | _ => false
                              end) items)
  | JStr s => Some (is_substring key s)
  | _ => None
  end.

(** Whether [for x in v] runs: a [list], a text or a [dict]. *)
Definition iterable (v : jvalue) : bool :=
  match v with
  | JArr _ | JStr _ | JObj _ => true
  | _ => false
  end.

(** Lines 326-329 and 331-334: one list of the feedback is printed, when it
    is there and not empty.  Printing returns nothing; [None] stands for an
    exception. *)
Definition show_feedback (feedback : jvalue) (key : string) : option unit :=
  present ← py_in key feedback;
  if present : bool then
    v ← subscript feedback key;
    if truthy v then (if iterable v then Some () else None) else Some ()
  else Some ().

(** Lines 319-321: one line of the breakdown. *)
Definition show_part (breakdown : jvalue) (key : string) : option unit :=
  part ← subscript breakdown key;
  _ ← subscript part "score";
  _ ← subscript part "max";
  _ ← subscript part "correct";
  _ ← subscript part "submitted";
  Some ().

(** Lines 310-334: the display of an accepted submission. *)
Definition show_results (result : jvalue) : option unit :=
  results ← subscript result "results";
  _ ← subscript results "score";
  _ ← subscript results "percentage";
  _ ← subscript results "status";
  _ ← subscript results "attempt_number";
  _ ← subscript results "remaining_attempts";
  breakdown ← subscript results "breakdown";
  _ ← show_part breakdown "high_risk";
  _ ← show_part breakdown "fever";
  _ ← show_part breakdown "data_quality";
  has_feedback ← py_in "feedback" results;
  if has_feedback : bool then
    feedback ← subscript results "feedback";
    _ ← show_feedback feedback "strengths";
    show_feedback feedback "issues"
  else Some ().

(** Line 302, [json.dumps(result, indent=2)]: the decoded answer is written
    out, which raises [ValueError] on an integer that [str] refuses. *)
Fixpoint printable (v : jvalue) : bool :=
  match v with
  | JInt z => writable (PInt z)
  | JArr items => forallb printable items
  | JObj entries => forallb (fun '(_, item) => printable item) entries
  | _ => true
  end.

(** What [requests.post] gives: a response with its status and its body,
    decoded when it is JSON, or a [RequestException]. *)
Inductive post_response : Type :=
| PostResponse (status_code : Z) (decoded : option jvalue)
| PostException.

(** [submission_data]: the three lists, without [total_patients]. *)
Record submission : Type := {
  submitted_high_risk : list pyvalue;
  submitted_fever : list pyvalue;
  submitted_data_quality : list pyvalue
}.

Definition submission_data (results : Cohorts) : submission :=
  {| submitted_high_risk := high_risk_patients results;
     submitted_fever := fever_patients results;
     submitted_data_quality := data_quality_issues results |}.

(** [requests] encodes the payload with [allow_nan=False]: a float that is
    infinite or not a number, and an integer that [str] refuses, make
    [requests.post] raise [InvalidJSONError], a [RequestException], before
    anything is sent. *)
Definition encodable (v : pyvalue) : bool :=
  match v with
  | PFloat f =>
      match Prim2SF f with
      | S754_infinity _ | S754_nan => false
      | _ => true
      end
  | PInt _ => writable v
  | _ => true
  end.

Definition serializable (data : submission) : bool :=
  forallb encodable (submitted_high_risk data)
  && forallb encodable (submitted_fever data)
  && forallb encodable (submitted_data_quality data).

(** [submit_assessment]: what it returns, and the payloads that it posted.
    The [try] turns every exception into [False]. *)
Definition submit_assessment (sink : submission -> post_response)
  (results : Cohorts) : bool * list submission :=
  let data := submission_data results in
  if negb (serializable data) then (false, [])
  else
    (match sink data with
     | PostResponse status_code decoded =>
         if status_code =? 200 then
           match decoded with
           | Some (JObj entries) =>
               if printable (JObj entries) then
                 match lookup_entry "success" entries with
                 | Some success =>
                     if truthy success
                     then match show_results (JObj entries) with
                          | Some _ => true
                          | None => false
                          end
                     else false
                 | None => false
                 end
               else false
           | _ => false
           end
         else false
     | PostException => false
     end, [data]).

(** * The whole run *)

(** Lines 369-382: the identifiers of the three lists are printed one by
    one, each formatted as [str] does. *)
Definition show_ids (ids : list pyvalue) : result unit :=
  for_each (fun _ pid => _ ← py_str pid; Ok ()) () ids.

(** [run]: the exception that ends it, if any, and otherwise whether a
    submission was made and accepted; the trace of the fetcher; and the
    payloads posted.  [None] when the fetcher does not stop within [fuel]
    pages. *)
Definition run (source : list event -> Z -> Z -> response)
  (sink : submission -> post_response) (fuel : nat)
  : option (result (option bool) * list event * list submission) :=
  '(patients, tr) ← fetch_all_patients source fuel;
  match patients with
  | [] => Some (Ok None, tr, [])
  | _ =>
      match process_patients patients with
      | Ok results =>
          match show_ids (high_risk_patients results
                          ++ fever_patients results
                          ++ data_quality_issues results) with
          | Ok _ =>
              let '(success, posts) := submit_assessment sink results in
              Some (Ok (Some success), tr, posts)
          | Raise e => Some (Raise e, tr, [])
          end
      | Raise e => Some (Raise e, tr, [])
      end
  end.

(** * Statements of the specification

    Definitions that the properties below are stated with; they follow the
    words of the specification, not the code. *)

(** A blood-pressure text of the form ["S/D"]. *)
Definition bp_text (systolic diastolic : Z) : string :=
  str_of_int systolic +:+ "/" +:+ str_of_int diastolic.

(** The documented blood-pressure rules: range predicates with their
    scores, tried in order. *)
Definition documented_bp_rules : list ((Z -> Z -> bool) * Z) :=
  [ (fun s d => (s <? 120) && (d <? 80), 0);
    (fun s d => (120 <=? s) && (s <=? 129) && (d <? 80), 1);
    (fun s d => ((130 <=? s) && (s <=? 139)) || ((80 <=? d) && (d <=? 89)), 2);
    (fun s d => (140 <=? s) || (90 <=? d), 3) ].

(** First match wins; the defensive fallback gives 0. *)
Definition first_match (rules : list ((Z -> Z -> bool) * Z))
  (systolic diastolic : Z) : Z :=
  match List.find (fun r => fst r systolic diastolic) rules with
  | Some r => snd r
  | None => 0
  end.

(** The outcome of parsing a vital. *)
Inductive parsed (A : Type) : Type :=
| Valid (a : A)
| Invalid.
Arguments Valid {A} a.
Arguments Invalid {A}.

(** The temperature parser of the specification: missing, a sentinel text
    or a failed numeric coercion is invalid. *)
Definition parseTemperature (raw : pyvalue) : parsed float :=
  match raw with
  | PNone => Invalid
  | PStr s =>
      if String.eqb s "" then Invalid
      else if str_in (upper s) TEMP_SENTINELS then Invalid
      else match float_of_string s with
           | Some f => Valid f
           | None => Invalid
           end
  | PInt z => match float_of_int z with
              | Ok f => Valid f
              | Raise _ => Invalid
              end
  | PFloat f => Valid f
  end.

(** The age parser of the specification: missing or a text that is not all
    digits is invalid; a number is coerced to an integer. *)
Definition parseAge (raw : pyvalue) : parsed Z :=
  match raw with
  | PNone => Invalid
  | PStr s =>
      if isdigit s
      then match int_of_string s with
           | Some z => Valid z
           | None => Invalid
           end
      else Invalid
  | PInt z => Valid z
  | PFloat f => match int_of_float f with
                | Ok z => Valid z
                | Raise _ => Invalid
                end
  end.

(** A blood pressure is invalid when either side fails to parse. *)
Definition bp_invalid (raw : pyvalue) : Prop :=
  exists systolic diastolic,
    parse_blood_pressure raw = Ok (systolic, diastolic)
    /\ (systolic = None \/ diastolic = None).

(** An issue as the engine returns it: nothing, or a non-empty text. *)
Definition issue_ok (issue : option string) : Prop :=
  match issue with
  | Some s => s <> ""
  | None => True
  end.

(** What [calculate_risk_score] returns, from the three sub-results. *)
Definition assemble (bp : Z * option string) (temp age : Z * option string)
  : RiskScore :=
  let risk := note_issue bp.2 (set_bp_score bp.1 RiskScore_new) in
  let risk := note_issue temp.2 (set_temp_score temp.1 risk) in
  let risk := note_issue age.2 (set_age_score age.1 risk) in
  set_total_score (bp_score risk + temp_score risk + age_score risk) risk.


(** ** Cohorts, as the properties state them *)

(** Stable insertion on texts, the pure counterpart of [insort]. *)
Fixpoint insort_str (x : string) (l : list string) : list string :=
  match l with
  | [] => [x]
  | y :: l' => if String.ltb y x then y :: insort_str x l' else x :: l
  end.

(** Insertion sort of a list of texts. *)
Fixpoint sorted_str (l : list string) : list string :=
  match l with
  | [] => []
  | x :: l' => insort_str x (sorted_str l')
  end.

(** Whether the score of a record reaches the high-risk threshold. *)
Definition scores_high (patient : gmap string pyvalue) : bool :=
  match calculate_risk_score patient with
  | Ok risk => 4 <=? total_score risk
  | Raise _ => false
  end.

(** The fever test on the raw temperature: it reads as a float that is at
    least 99.6. *)
Definition raw_fever (temp : pyvalue) : bool :=
  match py_float temp with
  | Ok f => PrimFloat.leb 99.6 f
  | Raise _ => false
  end.

(** Whether the score of a record carries a data issue. *)
Definition flagged (patient : gmap string pyvalue) : bool :=
  match calculate_risk_score patient with
  | Ok risk => has_data_issues risk
  | Raise _ => false
  end.

(** The identifiers of the records of a list that pass a test, in the order
    of the list, one for each record. *)
Definition cohort (member : gmap string pyvalue -> bool)
  (patients : list (gmap string pyvalue)) : list pyvalue :=
  patient_id_of <$> filter (fun p => Is_true (member p)) patients.

(** [calculate_risk_score] returns on the record. *)
Definition scorable (patient : gmap string pyvalue) : Prop :=
  exists risk, calculate_risk_score patient = Ok risk.

(** The three lists after the loop has run over [patients]. *)
Definition tally_all (t : tally) (patients : list (gmap string pyvalue))
  : tally :=
  {| high_risk := high_risk t ++ cohort scores_high patients;
     fever := fever t
              ++ cohort (fun p => raw_fever (get p "temperature")) patients;
     data_quality := data_quality t ++ cohort flagged patients |}.

(** The three lists after one turn of the loop. *)
Definition tally_one (t : tally) (p : gmap string pyvalue) : tally :=
  {| high_risk := high_risk t
                  ++ (if scores_high p then [patient_id_of p] else []);
     fever := fever t
              ++ (if raw_fever (get p "temperature")
                  then [patient_id_of p] else []);
     data_quality := data_quality t
                     ++ (if flagged p then [patient_id_of p] else []) |}.

(** A record with its four fields present. *)
Definition record (patient_id : string) (blood_pressure temperature age : pyvalue)
  : gmap string pyvalue :=
  <["patient_id" := PStr patient_id]>
    (<["blood_pressure" := blood_pressure]>
       (<["temperature" := temperature]> (<["age" := age]> ∅))).

(** Blood pressure "150/95", temperature 101 and age 70. *)
Definition severe_patient : gmap string pyvalue :=
  record "P1" (PStr "150/95") (PInt 101) (PInt 70).

(** A list of identifiers that are texts, in lexicographic order. *)
Definition lex_sorted (l : list pyvalue) : Prop :=
  exists ss, l = PStr <$> ss /\ Sorted String.le ss.

(** The record's identifier is a text (given, or the substitute). *)
Definition has_text_id (patient : gmap string pyvalue) : Prop :=
  exists s, patient_id_of patient = PStr s.

(** The record with its identifier written into it: the record itself
    when it has a [patient_id] entry, and otherwise the record with the
    entry "UNKNOWN" added. *)
Definition named (patient : gmap string pyvalue) : gmap string pyvalue :=
  <["patient_id" := patient_id_of patient]> patient.

(** The text of the identifier of a record. *)
Definition id_text (patient : gmap string pyvalue) : string :=
  text_of (patient_id_of patient).

(** ** The fetcher, as the properties state them *)

(** A response that makes the fetcher wait and try again. *)
Definition transient_failure (r : response) : bool :=
  match r with
  | Response status_code _ => negb (status_code =? 200) && transient status_code
  | RequestException => true
  end.

(** A response that makes the fetcher give the page up at once. *)
Definition fatal_failure (r : response) : bool :=
  match r with
  | Response status_code _ =>
      negb (status_code =? 200) && negb (transient status_code)
  | RequestException => false
  end.

(** The trace after [n] failed attempts at a page, the first of them being
    attempt number [start]: a request and a pause for each. *)
Fixpoint failed_attempts (page limit : Z) (n start : nat) (tr : list event)
  : list event :=
  match n with
  | O => tr
  | S n' =>
      failed_attempts page limit n' (S start)
        ((tr ++ [Get page limit]) ++ [Sleep (wait_time start)])
  end.

(** A page request only adds requests for that page and pauses to the
    trace. *)
Definition about_page (page limit : Z) (e : event) : Prop :=
  e = Get page limit \/ exists seconds, e = Sleep seconds.

(** Example services.  A page of records with its [hasNext] flag, and the
    empty object. *)
Definition page_of (patients : list (gmap string pyvalue)) (next : bool)
  : body :=
  {| data := Some patients; pagination := Some (Some next) |}.

Definition empty_body : body := {| data := None; pagination := None |}.

(** Two pages of one record each. *)
Definition two_pages (tr : list event) (page limit : Z) : response :=
  if page =? 1 then Response 200 (page_of [severe_patient] true)
  else if page =? 2 then Response 200 (page_of [∅] false)
  else Response 404 empty_body.

(** A first page, and status 500 for every request after it. *)
Definition second_page_down (tr : list event) (page limit : Z) : response :=
  if page =? 1 then Response 200 (page_of [severe_patient] true)
  else Response 500 empty_body.

(** ** Further notions of the properties *)

(** What makes [calculate_risk_score] raise. *)
Definition unwritable_bp (patient : gmap string pyvalue) : Prop :=
  exists z, get patient "blood_pressure" = PInt z
            /\ writable (PInt z) = false.

Definition temperature_overflows (patient : gmap string pyvalue) : Prop :=
  exists z, get patient "temperature" = PInt z
            /\ float_of_int z = Raise OverflowError.

Definition age_overflows (patient : gmap string pyvalue) : Prop :=
  exists f, get patient "age" = PFloat f /\ is_inf f = true.

(** A record as [json] decodes it: the decoder refuses an integer of more
    digits than the limit, so every integer of a decoded record is within
    it. *)
Definition decoded (patient : gmap string pyvalue) : Prop :=
  forall (k : string) (z : Z),
    patient !! k = Some (PInt z) ->
    Z.abs z < 10 ^ Z.of_nat int_max_str_digits.

(** Text made of white space only. *)
Fixpoint all_space (s : string) : bool :=
  match s with
  | EmptyString => true
  | String c s' => isspace c && all_space s'
  end.

(** A blood-pressure text with white space around its two numbers. *)
Definition spaced_bp_text (w1 w2 w3 w4 : string) (systolic diastolic : Z)
  : string :=
  (w1 +:+ str_of_int systolic +:+ w2) +:+ "/"
  +:+ (w3 +:+ str_of_int diastolic +:+ w4).

(** No character of the text is white space for a literal. *)
Fixpoint no_literal_space (s : string) : bool :=
  match s with
  | EmptyString => true
  | String c s' => negb (literal_space c) && no_literal_space s'
  end.

(** Not a number. *)
Definition is_nan (f : float) : bool :=
  match Prim2SF f with
  | S754_nan => true
  | _ => false
  end.

(** The issue texts of a record, read off its raw vitals: one for each
    vital that is missing or invalid. *)
Definition bp_issues (raw : pyvalue) : list string :=
  match parse_blood_pressure raw with
  | Ok (Some _, Some _) => []
  | _ => ["Invalid BP: " +:+ text_of raw]
  end.

Definition temperature_issues (raw : pyvalue) : list string :=
  if none_or_empty raw then ["Missing temperature"]
  else match py_float raw with
       | Ok _ => []
       | Raise _ => ["Invalid temperature: " +:+ text_of raw]
       end.

Definition age_issues (raw : pyvalue) : list string :=
  if none_or_empty raw then ["Missing age"]
  else match raw with
       | PStr s =>
           if isdigit s
           then match int_of_string s with
                | Some _ => []
                | None => ["Invalid age: " +:+ s]
                end
           else ["Invalid age: " +:+ s]
       | _ => match py_int raw with
              | Ok _ => []
              | Raise _ => ["Invalid age: " +:+ text_of raw]
              end
       end.

(** A request, as opposed to a pause. *)
Definition is_get (e : event) : bool :=
  match e with
  | Get _ _ => true
  | Sleep _ => false
  end.

(** The number of requests in a trace. *)
Definition requests (tr : list event) : nat :=
  length (List.filter is_get tr).

(** A service that never runs out of pages. *)
Definition endless (tr : list event) (page limit : Z) : response :=
  Response 200 (page_of [∅] true).

(** A service that answers 429 to the first request and serves its one page
    after that. *)
Definition busy_once (tr : list event) (page limit : Z) : response :=
  match tr with
  | [] => Response 429 empty_body
  | _ => Response 200 (page_of [severe_patient] false)
  end.

(** An answer that [submit_assessment] takes as a success. *)
Definition graded_part : jvalue :=
  JObj [("score", JInt 40); ("max", JInt 50); ("correct", JInt 4);
        ("submitted", JInt 5)].

Definition graded : jvalue :=
  JObj [("success", JBool true);
        ("results",
         JObj [("score", JInt 80); ("percentage", JInt 80);
               ("status", JStr "PASS"); ("attempt_number", JInt 1);
               ("remaining_attempts", JInt 2);
               ("breakdown",
                JObj [("high_risk", graded_part); ("fever", graded_part);
                      ("data_quality", graded_part)])])].

(** A service that accepts every submission. *)
Definition grader (data : submission) : post_response :=
  PostResponse 200 (Some graded).

(** A service that serves one page with a record that cannot be scored. *)
Definition one_bad_record (tr : list event) (page limit : Z) : response :=
  Response 200
    (page_of [severe_patient;
              record "P9" (PStr "120/80") (PFloat 98.6) (PFloat infinity)]
       false).

(** A service that is down. *)
Definition down (tr : list event) (page limit : Z) : response :=
  Response 503 empty_body.

(** * Properties of the risk rules *)

(** ** The blood-pressure cascade *)

Lemma bp_cascade_total (systolic diastolic : Z) :
  is_normal systolic diastolic
  || is_elevated systolic diastolic
  || is_stage1 systolic diastolic
  || is_stage2 systolic diastolic = true.
Proof.
  unfold is_normal, is_elevated, is_stage1, is_stage2.
  destruct (Z.ltb_spec systolic 120), (Z.ltb_spec diastolic 80),
    (Z.leb_spec 120 systolic), (Z.leb_spec systolic 129),
    (Z.leb_spec 130 systolic), (Z.leb_spec systolic 139),
    (Z.leb_spec 80 diastolic), (Z.leb_spec diastolic 89),
    (Z.leb_spec 140 systolic), (Z.leb_spec 90 diastolic);
    simpl; try reflexivity; lia.
Qed.

Lemma bp_points_range (b : bp_branch) : 0 <= bp_points b <= 3.
Proof. destruct b; simpl; lia. Qed.

(** C9: for all integers the last [return 0] of [calculate_bp_risk] is dead
    code: one of the four conditions of the cascade holds, so the cascade
    returns from one of its four first branches. *)
Theorem bp_fallback_unreachable (systolic diastolic : Z) :
  is_normal systolic diastolic
  || is_elevated systolic diastolic
  || is_stage1 systolic diastolic
  || is_stage2 systolic diastolic = true
  /\ bp_cascade systolic diastolic <> Fallback.
Proof.
  pose proof (bp_cascade_total systolic diastolic) as Htot.
  split; [exact Htot|].
  unfold bp_cascade.
  destruct (is_normal systolic diastolic); [discriminate|].
  destruct (is_elevated systolic diastolic); [discriminate|].
  destruct (is_stage1 systolic diastolic); [discriminate|].
  destruct (is_stage2 systolic diastolic); [discriminate|].
  discriminate Htot.
Qed.

(** ** The temperature cascade *)

(** Two positive finite floats compare as their (exponent, mantissa)
    pairs. *)
Lemma SFleb_finite_pos (m1 m2 : positive) (e1 e2 : Z) :
  SFleb (S754_finite false m1 e1) (S754_finite false m2 e2) = true <->
  e1 < e2 \/ (e1 = e2 /\ Z.pos m1 <= Z.pos m2).
Proof.
  unfold SFleb, SFcompare. rewrite Pos.compare_cont_spec. simpl.
  destruct (Z.compare_spec e1 e2) as [-> | Hlt | Hgt].
  - destruct (Pos.compare_spec m1 m2); simpl; split;
      try lia; try discriminate; auto.
    all: intros _; right; split; auto; lia.
  - split; [auto | reflexivity].
  - split; [discriminate | lia].
Qed.

Lemma SFltb_finite_pos (m1 m2 : positive) (e1 e2 : Z) :
  SFltb (S754_finite false m1 e1) (S754_finite false m2 e2) = true <->
  e1 < e2 \/ (e1 = e2 /\ Z.pos m1 < Z.pos m2).
Proof.
  unfold SFltb, SFcompare. rewrite Pos.compare_cont_spec. simpl.
  destruct (Z.compare_spec e1 e2) as [-> | Hlt | Hgt].
  - destruct (Pos.compare_spec m1 m2); simpl; split;
      try lia; try discriminate; auto.
  - split; [auto | reflexivity].
  - split; [discriminate | lia].
Qed.

(** The three thresholds, as the floats that the literals denote. *)
Lemma threshold_995 : Prim2SF 99.5 = S754_finite false 7001690045677568 (-46).
Proof. reflexivity. Qed.

Lemma threshold_996 : Prim2SF 99.6 = S754_finite false 7008726920095334 (-46).
Proof. reflexivity. Qed.

Lemma threshold_1009 : Prim2SF 100.9 = S754_finite false 7100206287526298 (-46).
Proof. reflexivity. Qed.

Lemma at_least_996 (t : float) :
  PrimFloat.leb 99.6 t = true -> PrimFloat.leb t 99.5 = false.
Proof.
  rewrite !leb_spec, threshold_995, threshold_996.
  destruct (Prim2SF t) as [[]|[]| |[] m e]; [vm_compute; congruence..|].
  intros H%SFleb_finite_pos. apply not_true_is_false.
  intros H'%SFleb_finite_pos. lia.
Qed.

Lemma above_1009 (t : float) :
  PrimFloat.ltb 100.9 t = true ->
  PrimFloat.leb t 99.5 = false /\ PrimFloat.leb t 100.9 = false.
Proof.
  rewrite !leb_spec, ltb_spec, threshold_995, threshold_1009.
  destruct (Prim2SF t) as [[]|[]| |[] m e];
    [vm_compute; intuition congruence..|].
  intros H%SFltb_finite_pos.
  split; apply not_true_is_false; intros H'%SFleb_finite_pos; lia.
Qed.

Lemma temp_cascade_normal (t : float) :
  PrimFloat.leb t 99.5 = true -> temp_cascade t = 0.
Proof. unfold temp_cascade. intros ->. reflexivity. Qed.

Lemma temp_cascade_low_fever (t : float) :
  PrimFloat.leb 99.6 t = true -> PrimFloat.leb t 100.9 = true ->
  temp_cascade t = 1.
Proof.
  unfold temp_cascade. intros H1 H2.
  rewrite (at_least_996 t H1), H1, H2. reflexivity.
Qed.

Lemma temp_cascade_high_fever (t : float) :
  PrimFloat.ltb 100.9 t = true -> temp_cascade t = 2.
Proof.
  unfold temp_cascade. intros [H1 H2]%above_1009.
  rewrite H1, H2, andb_false_r. reflexivity.
Qed.

Lemma temp_cascade_range (t : float) : 0 <= temp_cascade t <= 2.
Proof.
  unfold temp_cascade.
  destruct (PrimFloat.leb t 99.5);
    [|destruct (PrimFloat.leb 99.6 t && PrimFloat.leb t 100.9)]; lia.
Qed.

(** What [str] gives on each kind of value. *)
Lemma py_str_writable (v : pyvalue) :
  writable v = true -> py_str v = Ok (text_of v).
Proof. unfold py_str. by intros ->. Qed.

Lemma py_str_Ok (v : pyvalue) (text : string) :
  py_str v = Ok text <-> writable v = true /\ text = text_of v.
Proof.
  unfold py_str. destruct (writable v); split; try done.
  - by intros [= <-].
  - by intros [_ ->].
  - by intros [[=] _].
Qed.

Lemma py_str_Raise (v : pyvalue) (e : exn) :
  py_str v = Raise e <->
  e = ValueError /\ exists z, v = PInt z /\ writable (PInt z) = false.
Proof.
  unfold py_str. destruct (writable v) eqn:Hw; split; try done.
  - by intros (_ & z & -> & Hz); rewrite Hz in Hw.
  - intros [= <-]. split; [done|]. destruct v; try done. eauto.
  - by intros [-> _].
Qed.

(** The three "invalid" results: the score 0 and an issue that ends with the
    text of the value. *)
Lemma invalid_temperature_Ok (v : pyvalue) (r : Z * option string) :
  invalid_temperature v = Ok r <->
  writable v = true /\ r = (0, Some ("Invalid temperature: " +:+ text_of v)).
Proof.
  unfold invalid_temperature, py_str.
  destruct (writable v); cbn [mbind result_bind]; split; try done.
  - by intros [= <-].
  - by intros [_ ->].
  - by intros [[=] _].
Qed.

Lemma invalid_age_Ok (v : pyvalue) (r : Z * option string) :
  invalid_age v = Ok r <->
  writable v = true /\ r = (0, Some ("Invalid age: " +:+ text_of v)).
Proof.
  unfold invalid_age, py_str.
  destruct (writable v); cbn [mbind result_bind]; split; try done.
  - by intros [= <-].
  - by intros [_ ->].
  - by intros [[=] _].
Qed.

(** A temperature that the engine takes as a number, that is, scores
    without an issue, is scored by the cascade on its [float] value. *)
Lemma temp_risk_numeric (temp_value : pyvalue) (score : Z) :
  calculate_temp_risk temp_value = Ok (score, None) ->
  exists t, py_float temp_value = Ok t /\ score = temp_cascade t.
Proof.
  unfold calculate_temp_risk, temp_risk_of_number.
  destruct (none_or_empty temp_value); [discriminate|].
  destruct temp_value as [|z|f|s]; cbn [py_float].
  - by intros [_ [=]]%invalid_temperature_Ok.
  - destruct (float_of_int z) as [t|[]]; try discriminate;
      try by intros [_ [=]]%invalid_temperature_Ok.
    intros [= <-]. eauto.
  - intros [= <-]. eauto.
  - destruct (str_in (upper s) TEMP_SENTINELS);
      [by intros [_ [=]]%invalid_temperature_Ok|].
    destruct (float_of_string s) as [t|];
      [|by intros [_ [=]]%invalid_temperature_Ok].
    intros [= <-]. eauto.
Qed.

(** C1 (defect of the code): on what the engine takes as a number the
    score is the cascade of its float value; the cascade gives 0 up to 99.5,
    1 from 99.6 to 100.9 and 2 above 100.9, and the four boundary values
    score 0, 1, 1 and 2.  But 2 is not given only above 100.9: the cascade
    has no case for a value strictly between 99.5 and 99.6, which falls to
    the last branch; 99.55 scores 2 although it is not above 100.9. *)
Theorem temp_gap_scores_two :
  (forall temp_value score,
      calculate_temp_risk temp_value = Ok (score, None) ->
      exists t, py_float temp_value = Ok t /\ score = temp_cascade t)
  /\ (forall t, PrimFloat.leb t 99.5 = true -> temp_cascade t = 0)
  /\ (forall t, PrimFloat.leb 99.6 t = true -> PrimFloat.leb t 100.9 = true ->
                temp_cascade t = 1)
  /\ (forall t, PrimFloat.ltb 100.9 t = true -> temp_cascade t = 2)
  /\ calculate_temp_risk (PFloat 99.5) = Ok (0, None)
  /\ calculate_temp_risk (PFloat 99.6) = Ok (1, None)
  /\ calculate_temp_risk (PFloat 100.9) = Ok (1, None)
  /\ calculate_temp_risk (PFloat 101.0) = Ok (2, None)
  /\ calculate_temp_risk (PFloat 99.55) = Ok (2, None)
  /\ calculate_temp_risk (PStr "99.55") = Ok (2, None)
  /\ PrimFloat.ltb 100.9 99.55 = false.
Proof.
  split; [exact temp_risk_numeric|].
  split; [exact temp_cascade_normal|].
  split; [exact temp_cascade_low_fever|].
  split; [exact temp_cascade_high_fever|].
  repeat split; vm_compute; reflexivity.
Qed.

(** ** Decimal text of natural numbers

    [str] of a natural number is a non-empty run of digits, no white space
    surrounds it, and [int] reads it back. *)

Local Arguments Ascii.eqb : simpl never.

Lemma digit_char_facts (c : ascii) :
  is_digit c = true ->
  isspace c = false /\ literal_space c = false /\ upper_char c = c
  /\ Ascii.eqb "/" c = false /\ Ascii.eqb c "+" = false
  /\ Ascii.eqb c "-" = false /\ Ascii.eqb c "_" = false
  /\ Ascii.eqb c "I" = false /\ Ascii.eqb c "N" = false.
Proof.
  destruct c as [[] [] [] [] [] [] [] []]; vm_compute; intuition congruence.
Qed.

Lemma pretty_N_char_digit (d : N) :
  (d < 10)%N ->
  is_digit (pretty_N_char d) = true /\ digit_val (pretty_N_char d) = Z.of_N d.
Proof.
  intros Hd.
  assert (d = 0 \/ d = 1 \/ d = 2 \/ d = 3 \/ d = 4 \/ d = 5 \/ d = 6
          \/ d = 7 \/ d = 8 \/ d = 9)%N as Hcases by lia.
  repeat destruct Hcases as [-> | Hcases]; try subst d; vm_compute; auto.
Qed.

Lemma int_digits_pretty_N_go (x : N) :
  forall s, (0 < x)%N ->
  int_digits (pretty_N_go x s) 0 false = int_digits s (Z.of_N x) true.
Proof.
  induction (N.lt_wf_0 x) as [x _ IH]. intros s Hx.
  rewrite pretty_N_go_step by done.
  destruct (pretty_N_char_digit (x `mod` 10)%N) as [Hd Hv].
  { apply N.mod_lt. lia. }
  destruct (decide (x `div` 10 = 0)%N) as [Hq | Hq].
  - rewrite Hq, pretty_N_go_0. simpl. rewrite Hd, Hv. f_equal.
    pose proof (N.div_mod x 10 ltac:(lia)) as H. rewrite Hq in H.
    revert H. generalize (x `mod` 10)%N. intros; lia.
  - rewrite IH.
    + simpl. rewrite Hd, Hv. f_equal.
      pose proof (N.div_mod x 10 ltac:(lia)) as H.
      revert H. generalize (x `div` 10)%N (x `mod` 10)%N. intros; lia.
    + apply N.div_lt; lia.
    + by apply N.neq_0_lt_0.
Qed.

Lemma all_digits_pretty_N_go (x : N) :
  forall s, all_digits s = true -> all_digits (pretty_N_go x s) = true.
Proof.
  induction (N.lt_wf_0 x) as [x _ IH]. intros s Hs.
  destruct (decide (x = 0)%N) as [-> | Hx].
  - by rewrite pretty_N_go_0.
  - rewrite pretty_N_go_step by lia. apply IH.
    + apply N.div_lt; lia.
    + simpl. rewrite Hs, andb_true_r.
      apply pretty_N_char_digit, N.mod_lt. lia.
Qed.

Section DigitStrings.
Variable sp : ascii -> bool.
Hypothesis sp_digit : forall c, is_digit c = true -> sp c = false.

Lemma lstrip_digits (s : string) : all_digits s = true -> lstrip sp s = s.
Proof.
  destruct s as [|c s]; [done|]. simpl.
  intros [Hc _]%andb_true_iff. by rewrite sp_digit.
Qed.

Lemma rstrip_digits (s : string) : all_digits s = true -> rstrip sp s = s.
Proof.
  induction s as [|c s IH]; [done|]. simpl.
  intros [Hc Hs]%andb_true_iff.
  rewrite IH, sp_digit by done. by destruct s.
Qed.
End DigitStrings.

Lemma strip_digits (s : string) : all_digits s = true -> strip s = s.
Proof.
  intros Hs. unfold strip.
  rewrite lstrip_digits, rstrip_digits; auto; intros c Hc; apply digit_char_facts, Hc.
Qed.

Lemma literal_strip_digits (s : string) :
  all_digits s = true -> literal_strip s = s.
Proof.
  intros Hs. unfold literal_strip.
  rewrite lstrip_digits, rstrip_digits; auto; intros c Hc; apply digit_char_facts, Hc.
Qed.

Lemma count_digits_le_length (s : string) :
  (count_digits s <= String.length s)%nat.
Proof.
  induction s as [|c s IH]; [done|]. cbn [count_digits String.length].
  destruct (is_digit c); lia.
Qed.

Lemma within_limit (s : string) :
  (String.length s <= int_max_str_digits)%nat ->
  (int_max_str_digits <? count_digits s)%nat = false.
Proof.
  intros Hs. apply Nat.ltb_ge. pose proof (count_digits_le_length s). lia.
Qed.

Lemma int_of_string_digits (s : string) :
  all_digits s = true -> (String.length s <= int_max_str_digits)%nat ->
  int_of_string s = int_digits s 0 false.
Proof.
  intros Hs Hlen. unfold int_of_string. rewrite literal_strip_digits by done.
  cbv zeta. rewrite within_limit by done.
  destruct s as [|c s]; [done|].
  apply andb_true_iff in Hs as [Hc _].
  destruct (digit_char_facts c Hc) as (_ & _ & _ & _ & -> & -> & _). done.
Qed.

(** The decimal text of a number below [10 ^ k] has at most [k] digits. *)
Lemma length_pretty_N_go (k : nat) :
  forall x s, (x < 10 ^ N.of_nat k)%N ->
  (String.length (pretty_N_go x s) <= String.length s + k)%nat.
Proof.
  induction k as [|k IH]; intros x s Hx.
  - assert (x = 0%N) as -> by (cbn in Hx; lia). rewrite pretty_N_go_0. lia.
  - destruct (decide (x = 0)%N) as [-> | Hne].
    + rewrite pretty_N_go_0. lia.
    + rewrite pretty_N_go_step by lia.
      etransitivity; [apply IH|cbn [String.length]; lia].
      rewrite Nat2N.inj_succ, N.pow_succ_r' in Hx.
      apply N.Div0.div_lt_upper_bound. lia.
Qed.

Lemma length_str_of_int (k : nat) (z : Z) :
  (0 < k)%nat -> 0 <= z < 10 ^ Z.of_nat k ->
  (String.length (str_of_int z) <= k)%nat.
Proof.
  intros Hk [Hz Hlt]. unfold str_of_int.
  destruct z as [|p|p]; [cbn; lia| |lia].
  change (pretty (Z.pos p)) with (pretty_N (N.pos p)).
  unfold pretty_N. case_decide; [done|].
  apply (length_pretty_N_go k (N.pos p) "").
  apply N2Z.inj_lt. rewrite N2Z.inj_pow, nat_N_Z. cbn. lia.
Qed.

Lemma length_str_of_int_limit (z : Z) :
  0 <= z < 10 ^ Z.of_nat int_max_str_digits ->
  (String.length (str_of_int z) <= int_max_str_digits)%nat.
Proof. apply length_str_of_int. unfold int_max_str_digits. lia. Qed.

(** [str] writes an integer of at most [int_max_str_digits] digits. *)
Lemma writable_PInt (z : Z) :
  Z.abs z < 10 ^ Z.of_nat int_max_str_digits -> writable (PInt z) = true.
Proof.
  intros Hz. cbn [writable]. apply Nat.leb_le, length_str_of_int_limit. lia.
Qed.

Lemma str_of_int_digits (z : Z) : 0 <= z -> all_digits (str_of_int z) = true.
Proof.
  intros Hz. unfold str_of_int.
  destruct z as [|p|p]; [done| |lia].
  change (pretty (Z.pos p)) with (pretty_N (N.pos p)).
  unfold pretty_N. case_decide; [done|].
  by apply all_digits_pretty_N_go.
Qed.

Lemma int_digits_str_of_int (z : Z) :
  0 <= z -> int_digits (str_of_int z) 0 false = Some z.
Proof.
  intros Hz. unfold str_of_int.
  destruct z as [|p|p]; [done| |lia].
  change (pretty (Z.pos p)) with (pretty_N (N.pos p)).
  unfold pretty_N. case_decide; [done|].
  rewrite int_digits_pretty_N_go by lia. done.
Qed.

Lemma int_of_str_of_int (z : Z) :
  0 <= z < 10 ^ Z.of_nat int_max_str_digits ->
  int_of_string (str_of_int z) = Some z.
Proof.
  intros Hz.
  rewrite int_of_string_digits;
    [|apply str_of_int_digits, Hz|apply length_str_of_int_limit, Hz].
  apply int_digits_str_of_int, Hz.
Qed.

Lemma str_of_int_nonempty (z : Z) : 0 <= z -> str_of_int z <> "".
Proof.
  intros Hz Hs. pose proof (int_digits_str_of_int z Hz) as H.
  rewrite Hs in H. discriminate H.
Qed.

(** Splitting on a slash *)
Lemma contains_slash_digits (s : string) :
  all_digits s = true -> contains "/" s = false.
Proof.
  induction s as [|c s IH]; [done|]. simpl.
  intros [Hc Hs]%andb_true_iff. rewrite IH by done.
  destruct (digit_char_facts c Hc) as (_ & _ & _ & -> & _). done.
Qed.

Lemma contains_slash_app (a b : string) : contains "/" (a +:+ String "/" b) = true.
Proof.
  induction a as [|c a IH]; simpl.
  - done.
  - rewrite IH. apply orb_true_r.
Qed.

Lemma split_digits (s : string) : all_digits s = true -> split "/" s = [s].
Proof.
  induction s as [|c s IH]; [done|]. simpl.
  intros [Hc Hs]%andb_true_iff. rewrite IH by done.
  destruct (digit_char_facts c Hc) as (_ & _ & _ & -> & _). done.
Qed.

Lemma split_digits_slash (a b : string) :
  all_digits a = true -> split "/" (a +:+ String "/" b) = a :: split "/" b.
Proof.
  induction a as [|c a IH]; [done|]. simpl.
  intros [Hc Ha]%andb_true_iff. rewrite IH by done.
  destruct (digit_char_facts c Hc) as (_ & _ & _ & -> & _). done.
Qed.

Lemma parse_bp_part_digits (z : Z) :
  0 <= z < 10 ^ Z.of_nat int_max_str_digits ->
  parse_bp_part (str_of_int z) = Some z.
Proof.
  intros Hz. unfold parse_bp_part.
  rewrite strip_digits by apply str_of_int_digits, Hz.
  pose proof (str_of_int_nonempty z (proj1 Hz)).
  rewrite <- (int_of_str_of_int z Hz). by destruct (str_of_int z).
Qed.

Lemma not_sentinel_digit (c : ascii) (s : string) :
  is_digit c = true -> str_in (upper (String c s)) BP_SENTINELS = false.
Proof.
  intros Hc. apply not_true_is_false. unfold str_in.
  intros (x & Hin & Heq%String.eqb_eq)%existsb_exists.
  cbn [upper] in Heq.
  destruct (digit_char_facts c Hc) as (_ & _ & Hup & _).
  rewrite Hup in Heq. subst x.
  unfold BP_SENTINELS in Hin. simpl in Hin.
  repeat (destruct Hin as [[= <- _] | Hin]; [by vm_compute in Hc|]).
  destruct Hin.
Qed.

Lemma parse_blood_pressure_digits (a b : string) :
  a <> "" -> all_digits a = true -> all_digits b = true ->
  parse_blood_pressure (PStr (a +:+ String "/" b))
  = Ok (parse_bp_part a, parse_bp_part b).
Proof.
  intros Hne Ha Hb. unfold parse_blood_pressure.
  destruct a as [|c a]; [done|].
  assert (none_or_empty (PStr (String c a +:+ String "/" b)) = false)
    as -> by done.
  rewrite py_str_writable by done. cbn [mbind result_bind text_of].
  assert (str_in (upper (String c a +:+ String "/" b)) BP_SENTINELS = false)
    as ->.
  { apply (not_sentinel_digit c (a +:+ String "/" b)).
    by apply andb_true_iff in Ha as [? _]. }
  rewrite contains_slash_app. cbn [negb].
  by rewrite split_digits_slash, split_digits.
Qed.

Lemma parse_blood_pressure_text (systolic diastolic : Z) :
  0 <= systolic < 10 ^ Z.of_nat int_max_str_digits ->
  0 <= diastolic < 10 ^ Z.of_nat int_max_str_digits ->
  parse_blood_pressure (PStr (bp_text systolic diastolic))
  = Ok (Some systolic, Some diastolic).
Proof.
  intros Hs Hd.
  change (bp_text systolic diastolic)
    with (str_of_int systolic +:+ String "/" (str_of_int diastolic)).
  rewrite parse_blood_pressure_digits
    by (apply str_of_int_nonempty, Hs || apply str_of_int_digits, Hs
        || apply str_of_int_digits, Hd).
  by rewrite !parse_bp_part_digits.
Qed.

(** ** Blood pressure given as ["S/D"] *)

Lemma first_match_cascade (systolic diastolic : Z) :
  first_match documented_bp_rules systolic diastolic
  = bp_points (bp_cascade systolic diastolic).
Proof.
  unfold first_match, documented_bp_rules, bp_cascade.
  unfold is_normal, is_elevated, is_stage1, is_stage2. cbn [List.find fst snd].
  repeat (match goal with |- context [if ?b then _ else _] =>
            destruct b; [reflexivity|] end).
  reflexivity.
Qed.

(** The decimal text of a number from [10 ^ k] on has more than [k]
    digits, and [int] refuses it beyond the limit. *)
Lemma length_pretty_N_go_ge (x : N) :
  forall s, (String.length s <= String.length (pretty_N_go x s))%nat.
Proof.
  induction (N.lt_wf_0 x) as [x _ IH]. intros s.
  destruct (decide (x = 0)%N) as [-> | Hx].
  - by rewrite pretty_N_go_0.
  - rewrite pretty_N_go_step by lia.
    etransitivity; [|apply IH; apply N.div_lt; lia]. cbn [String.length]. lia.
Qed.

Lemma length_pretty_N_go_gt (k : nat) :
  forall x s, (10 ^ N.of_nat k <= x)%N ->
  (String.length s + k < String.length (pretty_N_go x s))%nat.
Proof.
  induction k as [|k IH]; intros x s Hx.
  - rewrite pretty_N_go_step by (cbn in Hx; lia).
    eapply Nat.lt_le_trans; [|apply length_pretty_N_go_ge].
    cbn [String.length]. lia.
  - rewrite Nat2N.inj_succ, N.pow_succ_r' in Hx.
    rewrite pretty_N_go_step by lia.
    eapply Nat.le_lt_trans; [|apply IH].
    + cbn [String.length]. lia.
    + apply N.div_le_lower_bound; lia.
Qed.

Lemma length_str_of_int_gt (k : nat) (z : Z) :
  10 ^ Z.of_nat k <= z -> (k < String.length (str_of_int z))%nat.
Proof.
  intros Hz. assert (0 < 10 ^ Z.of_nat k) by (apply Z.pow_pos_nonneg; lia).
  unfold str_of_int. destruct z as [|p|p]; [lia| |lia].
  change (pretty (Z.pos p)) with (pretty_N (N.pos p)).
  unfold pretty_N. case_decide; [done|].
  apply (length_pretty_N_go_gt k (N.pos p) "").
  apply N2Z.inj_le. rewrite N2Z.inj_pow, nat_N_Z. cbn. lia.
Qed.

Lemma count_digits_all_digits (s : string) :
  all_digits s = true -> count_digits s = String.length s.
Proof.
  induction s as [|c s IH]; [done|]. cbn [all_digits count_digits String.length].
  intros [-> Hs]%andb_true_iff. by rewrite IH.
Qed.

Lemma int_of_string_beyond_limit (z : Z) :
  10 ^ Z.of_nat int_max_str_digits <= z -> int_of_string (str_of_int z) = None.
Proof.
  intros Hz. assert (0 <= z).
  { assert (0 < 10 ^ Z.of_nat int_max_str_digits)
      by (apply Z.pow_pos_nonneg; lia). lia. }
  unfold int_of_string.
  rewrite literal_strip_digits by by apply str_of_int_digits.
  cbv zeta. rewrite count_digits_all_digits by by apply str_of_int_digits.
  apply length_str_of_int_gt, Nat.ltb_lt in Hz. by rewrite Hz.
Qed.

Lemma parse_bp_part_beyond_limit (z : Z) :
  10 ^ Z.of_nat int_max_str_digits <= z -> parse_bp_part (str_of_int z) = None.
Proof.
  intros Hz. assert (0 <= z).
  { assert (0 < 10 ^ Z.of_nat int_max_str_digits)
      by (apply Z.pow_pos_nonneg; lia). lia. }
  unfold parse_bp_part. rewrite strip_digits by by apply str_of_int_digits.
  rewrite <- (int_of_string_beyond_limit z Hz).
  pose proof (str_of_int_nonempty z). by destruct (str_of_int z); [tauto|].
Qed.

Lemma calculate_bp_risk_beyond_limit (systolic diastolic : Z) :
  10 ^ Z.of_nat int_max_str_digits <= systolic -> 0 <= diastolic ->
  calculate_bp_risk (PStr (bp_text systolic diastolic))
  = Ok (0, Some ("Invalid BP: " +:+ bp_text systolic diastolic)).
Proof.
  intros Hs Hd. assert (0 <= systolic).
  { assert (0 < 10 ^ Z.of_nat int_max_str_digits)
      by (apply Z.pow_pos_nonneg; lia). lia. }
  unfold calculate_bp_risk.
  change (bp_text systolic diastolic)
    with (str_of_int systolic +:+ String "/" (str_of_int diastolic)).
  rewrite parse_blood_pressure_digits
    by auto using str_of_int_nonempty, str_of_int_digits.
  cbn [mbind result_bind]. by rewrite parse_bp_part_beyond_limit.
Qed.

Lemma first_match_stage2 (systolic : Z) :
  140 <= systolic -> first_match documented_bp_rules systolic 90 = 3.
Proof.
  intros Hs. rewrite first_match_cascade.
  unfold bp_cascade, is_normal, is_elevated, is_stage1, is_stage2.
  destruct (Z.ltb_spec systolic 120), (Z.leb_spec 120 systolic),
    (Z.leb_spec systolic 129), (Z.leb_spec 130 systolic),
    (Z.leb_spec systolic 139), (Z.leb_spec 140 systolic); cbn; lia.
Qed.

Lemma limit_value : 10 ^ 4300 = 10 ^ Z.of_nat int_max_str_digits.
Proof. reflexivity. Qed.

(** C3 (amended): for integers S, D >= 0 of at most [int_max_str_digits]
    digits the text ["S/D"] is scored without an issue, by the first of the
    four documented range predicates that holds (0, 1, 2 or 3 points); the
    six boundary pairs score 0, 1, 1, 2, 2 and 3. *)
Theorem bp_risk_of_text :
  (forall systolic diastolic : Z,
      0 <= systolic < 10 ^ Z.of_nat int_max_str_digits ->
      0 <= diastolic < 10 ^ Z.of_nat int_max_str_digits ->
      calculate_bp_risk (PStr (bp_text systolic diastolic))
      = Ok (first_match documented_bp_rules systolic diastolic, None)
      /\ 0 <= first_match documented_bp_rules systolic diastolic <= 3)
  /\ calculate_bp_risk (PStr "119/79") = Ok (0, None)
  /\ calculate_bp_risk (PStr "120/79") = Ok (1, None)
  /\ calculate_bp_risk (PStr "129/79") = Ok (1, None)
  /\ calculate_bp_risk (PStr "130/79") = Ok (2, None)
  /\ calculate_bp_risk (PStr "139/89") = Ok (2, None)
  /\ calculate_bp_risk (PStr "140/90") = Ok (3, None).
Proof.
  split; [|repeat split; vm_compute; reflexivity].
  intros systolic diastolic Hs Hd. unfold calculate_bp_risk.
  rewrite parse_blood_pressure_text, first_match_cascade by done.
  split; [reflexivity | apply bp_points_range].
Qed.

Lemma bp_risk_of_text_witness :
  calculate_bp_risk (PStr (bp_text 150 95)) = Ok (3, None).
Proof.
  apply (proj1 bp_risk_of_text 150 95);
    (split; [lia | apply Z.ltb_lt; vm_compute; reflexivity]).
Defined.

(** C3, as stated for every S, D >= 0, fails beyond the limit: [int]
    refuses the 4301 digits of [10 ^ 4300], the systolic side is missing and
    the text ["1000...0/90"] scores 0 with an issue, where the documented
    rules give 3. *)
Lemma bp_text_beyond_limit :
  0 <= 10 ^ 4300 /\ 0 <= 90
  /\ first_match documented_bp_rules (10 ^ 4300) 90 = 3
  /\ calculate_bp_risk (PStr (bp_text (10 ^ 4300) 90))
     = Ok (0, Some ("Invalid BP: " +:+ bp_text (10 ^ 4300) 90))
  /\ calculate_bp_risk (PStr (bp_text (10 ^ 4300) 90))
     <> Ok (first_match documented_bp_rules (10 ^ 4300) 90, None).
Proof.
  assert (first_match documented_bp_rules (10 ^ 4300) 90 = 3) as Hrules.
  { apply first_match_stage2. transitivity (10 ^ 3); [lia|].
    apply Z.pow_le_mono_r; lia. }
  assert (calculate_bp_risk (PStr (bp_text (10 ^ 4300) 90))
          = Ok (0, Some ("Invalid BP: " +:+ bp_text (10 ^ 4300) 90))) as Hcode.
  { apply calculate_bp_risk_beyond_limit; [|lia].
    apply Z.eq_le_incl. symmetry. exact limit_value. }
  split; [apply Z.pow_nonneg; lia|]. split; [lia|].
  split; [exact Hrules|]. split; [exact Hcode|].
  revert Hrules Hcode.
  generalize (first_match documented_bp_rules (10 ^ 4300) 90).
  generalize (calculate_bp_risk (PStr (bp_text (10 ^ 4300) 90))).
  generalize ("Invalid BP: " +:+ bp_text (10 ^ 4300) 90).
  intros issue code score -> ->. discriminate.
Qed.

(** ** The score of one patient *)

Ltac issue_goal :=
  repeat split; try lia; try done;
  try (intros _; try split; try reflexivity;
       eexists; split; [reflexivity|done]);
  try (eexists; split; [reflexivity|done]).

Ltac invalid_case :=
  first [ intros [_ [= -> ->]]%invalid_temperature_Ok
        | intros [_ [= -> ->]]%invalid_age_Ok
        | intros [= <- <-] ].

Lemma float_of_int_raises (z : Z) (e : exn) :
  float_of_int z = Raise e -> e = OverflowError.
Proof. unfold float_of_int. destruct (is_inf _); congruence. Qed.

Lemma int_of_float_raises (f : float) (e : exn) :
  int_of_float f = Raise e -> e = ValueError \/ e = OverflowError.
Proof. unfold int_of_float. destruct (Prim2SF f); intros [= <-]; auto. Qed.

Lemma int_of_float_overflow (f : float) :
  int_of_float f = Raise OverflowError <-> is_inf f = true.
Proof.
  unfold int_of_float, is_inf. destruct (Prim2SF f); split; done.
Qed.

Lemma calculate_bp_risk_spec (bp_value : pyvalue) (score : Z)
  (issue : option string) :
  calculate_bp_risk bp_value = Ok (score, issue) ->
  0 <= score <= 3
  /\ issue_ok issue
  /\ (bp_invalid bp_value ->
      score = 0 /\ exists s, issue = Some s /\ s <> "").
Proof.
  unfold calculate_bp_risk, bp_invalid.
  destruct (parse_blood_pressure bp_value) as [[[s|] [d|]]|e];
    cbn [mbind result_bind]; [| | | |done].
  - intros [= <- <-]. split; [apply bp_points_range|]. split; [done|].
    by intros (s' & d' & [= <- <-] & [[=]|[=]]).
  - unfold py_str. destruct (writable bp_value); [|done].
    intros [= <- <-]. issue_goal.
  - unfold py_str. destruct (writable bp_value); [|done].
    intros [= <- <-]. issue_goal.
  - unfold py_str. destruct (writable bp_value); [|done].
    intros [= <- <-]. issue_goal.
Qed.

Lemma calculate_temp_risk_spec (temp_value : pyvalue) (score : Z)
  (issue : option string) :
  calculate_temp_risk temp_value = Ok (score, issue) ->
  0 <= score <= 2
  /\ issue_ok issue
  /\ (parseTemperature temp_value = Invalid ->
      score = 0 /\ exists s, issue = Some s /\ s <> "").
Proof.
  pose proof temp_cascade_range as Hr.
  unfold calculate_temp_risk, temp_risk_of_number, parseTemperature.
  destruct temp_value as [|z|f|s]; cbn [none_or_empty py_float].
  - intros [= <- <-]. issue_goal.
  - destruct (float_of_int z) as [t|[]]; invalid_case;
      issue_goal; apply Hr.
  - intros [= <- <-]. issue_goal; apply Hr.
  - destruct s as [|c s]; [intros [= <- <-]; issue_goal|].
    cbn [String.eqb].
    destruct (str_in (upper (String c s)) TEMP_SENTINELS);
      [invalid_case; issue_goal|].
    destruct (float_of_string (String c s)) as [t|]; invalid_case;
      issue_goal; apply Hr.
Qed.

Lemma calculate_age_risk_spec (age_value : pyvalue) (score : Z)
  (issue : option string) :
  calculate_age_risk age_value = Ok (score, issue) ->
  0 <= score <= 2
  /\ issue_ok issue
  /\ (parseAge age_value = Invalid ->
      score = 0 /\ exists s, issue = Some s /\ s <> "").
Proof.
  assert (forall a, 0 <= age_cascade a <= 2) as Hr.
  { intros a. unfold age_cascade.
    destruct (a <? 40); [|destruct ((40 <=? a) && (a <=? 65))]; lia. }
  unfold calculate_age_risk, age_risk_of_number, parseAge.
  destruct age_value as [|z|f|s]; cbn [none_or_empty py_int].
  - intros [= <- <-]. issue_goal.
  - intros [= <- <-]. issue_goal; apply Hr.
  - destruct (int_of_float f) as [t|[]]; invalid_case;
      issue_goal; apply Hr.
  - destruct s as [|c s]; [intros [= <- <-]; issue_goal|].
    destruct (isdigit (String c s)); cbn [negb];
      [|invalid_case; issue_goal].
    destruct (int_of_string (String c s)) as [t|]; invalid_case;
      issue_goal; apply Hr.
Qed.

Lemma calculate_risk_score_ok (patient : gmap string pyvalue)
  (risk : RiskScore) :
  calculate_risk_score patient = Ok risk <->
  exists bp temp age,
    calculate_bp_risk (get patient "blood_pressure") = Ok bp
    /\ calculate_temp_risk (get patient "temperature") = Ok temp
    /\ calculate_age_risk (get patient "age") = Ok age
    /\ risk = assemble bp temp age.
Proof.
  unfold calculate_risk_score, assemble. split.
  - destruct (calculate_bp_risk (get patient "blood_pressure"))
      as [[bp bpi]|e]; [|discriminate].
    destruct (calculate_temp_risk (get patient "temperature"))
      as [[t ti]|e]; [|discriminate].
    destruct (calculate_age_risk (get patient "age"))
      as [[a ai]|e]; [|discriminate].
    intros [= <-]. eauto 7.
  - intros ([bp bpi] & [t ti] & [a ai] & -> & -> & -> & ->). done.
Qed.

Lemma assemble_spec (bp temp age : Z * option string) :
  issue_ok bp.2 -> issue_ok temp.2 -> issue_ok age.2 ->
  let risk := assemble bp temp age in
  bp_score risk = bp.1 /\ temp_score risk = temp.1 /\ age_score risk = age.1
  /\ total_score risk = bp.1 + temp.1 + age.1
  /\ issues risk = option_list bp.2 ++ option_list temp.2 ++ option_list age.2
  /\ has_data_issues risk
     = negb (bool_decide (issues risk = [])).
Proof.
  destruct bp as [b [[|c1 s1]|]], temp as [t [[|c2 s2]|]],
    age as [a [[|c3 s3]|]]; cbn [fst snd issue_ok]; intros H1 H2 H3;
    try done.
Qed.

(** The invariants of a score that is built. *)
Lemma risk_score_built (patient : gmap string pyvalue) (risk : RiskScore) :
  calculate_risk_score patient = Ok risk ->
  0 <= bp_score risk <= 3
  /\ 0 <= temp_score risk <= 2
  /\ 0 <= age_score risk <= 2
  /\ total_score risk = bp_score risk + temp_score risk + age_score risk
  /\ (has_data_issues risk = true <-> issues risk <> [])
  /\ (bp_invalid (get patient "blood_pressure") ->
      bp_score risk = 0 /\ has_data_issues risk = true
      /\ exists s, s <> "" /\ In s (issues risk)
           /\ calculate_bp_risk (get patient "blood_pressure")
              = Ok (0, Some s))
  /\ (parseTemperature (get patient "temperature") = Invalid ->
      temp_score risk = 0 /\ has_data_issues risk = true
      /\ exists s, s <> "" /\ In s (issues risk)
           /\ calculate_temp_risk (get patient "temperature") = Ok (0, Some s))
  /\ (parseAge (get patient "age") = Invalid ->
      age_score risk = 0 /\ has_data_issues risk = true
      /\ exists s, s <> "" /\ In s (issues risk)
           /\ calculate_age_risk (get patient "age") = Ok (0, Some s)).
Proof.
  intros ([b bi] & [t ti] & [a ai] & Hb & Ht & Ha & ->)%calculate_risk_score_ok.
  destruct (calculate_bp_risk_spec _ _ _ Hb) as (Hb1 & Hb2 & Hb3).
  destruct (calculate_temp_risk_spec _ _ _ Ht) as (Ht1 & Ht2 & Ht3).
  destruct (calculate_age_risk_spec _ _ _ Ha) as (Ha1 & Ha2 & Ha3).
  destruct (assemble_spec (b, bi) (t, ti) (a, ai) Hb2 Ht2 Ha2)
    as (-> & -> & -> & -> & Hi & Hh).
  assert (has_data_issues (assemble (b, bi) (t, ti) (a, ai)) = true
          <-> issues (assemble (b, bi) (t, ti) (a, ai)) <> []) as Hiff.
  { rewrite Hh. rewrite negb_true_iff, bool_decide_eq_false. done. }
  cbn [fst snd] in *.
  assert (forall s, In s (issues (assemble (b, bi) (t, ti) (a, ai))) ->
            has_data_issues (assemble (b, bi) (t, ti) (a, ai)) = true) as Hin.
  { intros s Hs. apply Hiff. intros Hnil. rewrite Hnil in Hs. destruct Hs. }
  assert (forall (s : string) l1 l2, In s (l1 ++ option_list (Some s) ++ l2))
    as Hmid.
  { intros s l1 l2. rewrite !in_app_iff. simpl. auto. }
  do 4 (split; [lia|]). split; [exact Hiff|].
  split; [|split].
  - intros [-> (s & -> & Hne)]%Hb3.
    split; [done|]. split; [|exists s; split; [done|split; [|done]]].
    + apply (Hin s). rewrite Hi. apply (Hmid s []).
    + rewrite Hi. apply (Hmid s []).
  - intros [-> (s & -> & Hne)]%Ht3.
    split; [done|]. split; [|exists s; split; [done|split; [|done]]].
    + apply (Hin s). rewrite Hi. apply Hmid.
    + rewrite Hi. apply Hmid.
  - intros [-> (s & -> & Hne)]%Ha3.
    split; [done|]. split; [|exists s; split; [done|split; [|done]]].
    + apply (Hin s). rewrite Hi, app_assoc.
      rewrite <- (app_nil_r (option_list (Some s))). apply Hmid.
    + rewrite Hi, app_assoc.
      rewrite <- (app_nil_r (option_list (Some s))). apply Hmid.
Qed.

(** What each of the three scorers raises, and when. *)
Lemma calculate_bp_risk_total (bp_value : pyvalue) :
  (exists r, calculate_bp_risk bp_value = Ok r)
  \/ (calculate_bp_risk bp_value = Raise ValueError
      /\ exists z, bp_value = PInt z /\ writable (PInt z) = false).
Proof.
  unfold calculate_bp_risk, parse_blood_pressure, py_str.
  destruct (writable bp_value) eqn:Hw.
  - left. destruct (none_or_empty bp_value); cbn [mbind result_bind]; eauto.
    destruct (str_in _ _); cbn [mbind result_bind]; eauto.
    destruct (negb _); cbn [mbind result_bind]; eauto.
    destruct (split _ _) as [|a [|b [|c l]]]; cbn [mbind result_bind]; eauto.
    destruct (parse_bp_part a), (parse_bp_part b); eauto.
  - right. destruct bp_value as [|z|f|s]; try done. eauto.
Qed.

Lemma calculate_temp_risk_total (temp_value : pyvalue) :
  (exists r, calculate_temp_risk temp_value = Ok r)
  \/ (calculate_temp_risk temp_value = Raise OverflowError
      /\ exists z, temp_value = PInt z
                   /\ float_of_int z = Raise OverflowError).
Proof.
  unfold calculate_temp_risk, temp_risk_of_number.
  destruct temp_value as [|z|f|s]; cbn [none_or_empty py_float]; eauto.
  - destruct (float_of_int z) as [f|e] eqn:E; eauto.
    apply float_of_int_raises in E as E'. subst e. eauto 7.
  - destruct s as [|c s]; eauto.
    destruct (str_in _ _); eauto. destruct (float_of_string _); eauto.
Qed.

Lemma calculate_age_risk_total (age_value : pyvalue) :
  (exists r, calculate_age_risk age_value = Ok r)
  \/ (calculate_age_risk age_value = Raise OverflowError
      /\ exists f, age_value = PFloat f /\ is_inf f = true).
Proof.
  unfold calculate_age_risk, age_risk_of_number.
  destruct age_value as [|z|f|s]; cbn [none_or_empty py_int]; eauto.
  - destruct (int_of_float f) as [z|e] eqn:E; eauto.
    apply int_of_float_raises in E as E'.
    destruct E'; subst e; eauto.
    right. split; [done|]. exists f. by rewrite <- int_of_float_overflow.
  - destruct s as [|c s]; eauto.
    destruct (isdigit _); cbn [negb]; eauto.
    destruct (int_of_string _); eauto.
Qed.

(** [calculate_risk_score] builds a score unless [str] refuses an integer
    blood pressure ([ValueError]) or a coercion overflows, on an integer
    temperature too large for a float or on an infinite float age
    ([OverflowError]): the exceptions that its handlers let through. *)
Lemma calculate_risk_score_total (patient : gmap string pyvalue) :
  (exists risk, calculate_risk_score patient = Ok risk)
  \/ (calculate_risk_score patient = Raise ValueError
      /\ unwritable_bp patient)
  \/ (calculate_risk_score patient = Raise OverflowError
      /\ ~ unwritable_bp patient
      /\ (temperature_overflows patient \/ age_overflows patient)).
Proof.
  unfold calculate_risk_score.
  destruct (calculate_bp_risk_total (get patient "blood_pressure"))
    as [[[bp bpi] Hb] | [-> Hb]]; [|right; left; eauto].
  rewrite Hb. cbn [mbind result_bind].
  assert (~ unwritable_bp patient) as Hn.
  { intros (z & Hz & Hw). revert Hb. rewrite Hz.
    unfold calculate_bp_risk, parse_blood_pressure, py_str. by rewrite Hw. }
  destruct (calculate_temp_risk_total (get patient "temperature"))
    as [[[t ti] ->] | [-> Ht]]; [|right; right; eauto].
  destruct (calculate_age_risk_total (get patient "age"))
    as [[[a ai] ->] | [-> Ha]]; [|right; right; eauto].
  left. eauto.
Qed.

Lemma calculate_risk_score_Raise (patient : gmap string pyvalue) (e : exn) :
  calculate_risk_score patient = Raise e <->
  (e = ValueError /\ unwritable_bp patient)
  \/ (e = OverflowError /\ ~ unwritable_bp patient
      /\ (temperature_overflows patient \/ age_overflows patient)).
Proof.
  split.
  - intros He. destruct (calculate_risk_score_total patient)
      as [[risk Hr] | [[Hr Hc] | [Hr Hc]]]; [congruence|left|right];
      (split; [congruence | done]).
  - destruct (calculate_risk_score_total patient)
      as [[risk Hr] | [[Hr Hc] | [Hr Hc]]].
    + intros [[_ Hu] | (_ & Hn & [Ht | Ha])].
      * destruct Hu as (z & Hz & Hw). revert Hr. unfold calculate_risk_score.
        rewrite Hz. unfold calculate_bp_risk, parse_blood_pressure, py_str.
        by rewrite Hw.
      * destruct Ht as (z & Hz & Hov). revert Hr. unfold calculate_risk_score.
        destruct (calculate_bp_risk _) as [[bp bpi]|]; [|done].
        cbn [mbind result_bind]. rewrite Hz.
        unfold calculate_temp_risk, temp_risk_of_number.
        cbn [none_or_empty py_float]. by rewrite Hov.
      * destruct Ha as (f & Hf & Hinf). revert Hr. unfold calculate_risk_score.
        destruct (calculate_bp_risk _) as [[bp bpi]|]; [|done].
        cbn [mbind result_bind].
        destruct (calculate_temp_risk _) as [[t ti]|]; [|done].
        cbn [mbind result_bind]. rewrite Hf.
        unfold calculate_age_risk, age_risk_of_number.
        cbn [none_or_empty py_int].
        apply int_of_float_overflow in Hinf. by rewrite Hinf.
    + intros [[-> _] | (_ & Hn & _)]; done.
    + intros [[_ Hu] | (-> & _)]; [by destruct Hc|done].
Qed.

(** C4 (defect of the code): a score that [calculate_risk_score] builds has
    its three sub-scores in 0..3, 0..2 and 0..2, its total is their sum,
    [has_data_issues] holds exactly when [issues] is not empty, and a vital
    that is missing or invalid has sub-score 0, a non-empty issue text of its
    own in [issues], and sets [has_data_issues].  But a score is not built
    for every record: the handlers catch [ValueError] and [TypeError] only,
    so an infinite age and an integer temperature too large for a float,
    both invalid, end the call with [OverflowError] instead of an issue (and
    [str] of an integer blood pressure beyond the digit limit ends it with
    [ValueError]); on every other record a score is built. *)
Theorem risk_score_invariants :
  (forall (patient : gmap string pyvalue) (risk : RiskScore),
      calculate_risk_score patient = Ok risk ->
      0 <= bp_score risk <= 3
      /\ 0 <= temp_score risk <= 2
      /\ 0 <= age_score risk <= 2
      /\ total_score risk = bp_score risk + temp_score risk + age_score risk
      /\ (has_data_issues risk = true <-> issues risk <> [])
      /\ (bp_invalid (get patient "blood_pressure") ->
          bp_score risk = 0 /\ has_data_issues risk = true
          /\ exists s, s <> "" /\ In s (issues risk)
               /\ calculate_bp_risk (get patient "blood_pressure")
                  = Ok (0, Some s))
      /\ (parseTemperature (get patient "temperature") = Invalid ->
          temp_score risk = 0 /\ has_data_issues risk = true
          /\ exists s, s <> "" /\ In s (issues risk)
               /\ calculate_temp_risk (get patient "temperature")
                  = Ok (0, Some s))
      /\ (parseAge (get patient "age") = Invalid ->
          age_score risk = 0 /\ has_data_issues risk = true
          /\ exists s, s <> "" /\ In s (issues risk)
               /\ calculate_age_risk (get patient "age") = Ok (0, Some s)))
  /\ (forall (patient : gmap string pyvalue),
        (exists risk, calculate_risk_score patient = Ok risk)
        \/ (calculate_risk_score patient = Raise ValueError
            /\ unwritable_bp patient)
        \/ (calculate_risk_score patient = Raise OverflowError
            /\ ~ unwritable_bp patient
            /\ (temperature_overflows patient \/ age_overflows patient)))
  /\ (forall (patient : gmap string pyvalue) (e : exn),
        calculate_risk_score patient = Raise e <->
        (e = ValueError /\ unwritable_bp patient)
        \/ (e = OverflowError /\ ~ unwritable_bp patient
            /\ (temperature_overflows patient \/ age_overflows patient)))
  /\ parseAge (PFloat infinity) = Invalid
  /\ calculate_risk_score
       (record "P9" (PStr "120/80") (PFloat 98.6) (PFloat infinity))
     = Raise OverflowError
  /\ parseTemperature (PInt (10 ^ 400)) = Invalid
  /\ calculate_risk_score
       (record "P8" (PStr "120/80") (PInt (10 ^ 400)) (PInt 30))
     = Raise OverflowError.
Proof.
  split; [exact risk_score_built|].
  split; [exact calculate_risk_score_total|].
  split; [exact calculate_risk_score_Raise|].
  repeat split; vm_compute; reflexivity.
Qed.

Lemma risk_score_invariants_witness :
  calculate_risk_score ∅
  = Ok {| bp_score := 0; temp_score := 0; age_score := 0; total_score := 0;
          has_data_issues := true;
          issues := ["Invalid BP: None"; "Missing temperature";
                     "Missing age"] |}
  /\ bp_invalid (get ∅ "blood_pressure")
  /\ exists s, s <> ""
       /\ In s ["Invalid BP: None"; "Missing temperature"; "Missing age"]
       /\ calculate_bp_risk (get ∅ "blood_pressure") = Ok (0, Some s).
Proof.
  assert (calculate_risk_score ∅
          = Ok {| bp_score := 0; temp_score := 0; age_score := 0;
                  total_score := 0; has_data_issues := true;
                  issues := ["Invalid BP: None"; "Missing temperature";
                             "Missing age"] |}) as H
    by (vm_compute; reflexivity).
  assert (bp_invalid (get ∅ "blood_pressure")) as Hb
    by (exists None, None; split; [vm_compute; reflexivity | by left]).
  split; [exact H|]. split; [exact Hb|].
  destruct (proj1 risk_score_invariants ∅ _ H)
    as (_ & _ & _ & _ & _ & Hbp & _).
  exact (proj2 (proj2 (Hbp Hb))).
Defined.

(** * Properties of the cohorts *)

(** ** Sorting texts *)

Lemma insort_PStr (x : string) (l : list string) :
  insort (PStr x) (PStr <$> l) = Ok (PStr <$> insort_str x l).
Proof.
  induction l as [|y l IH]; [done|]. cbn [fmap list_fmap insort insort_str py_lt].
  change (list_fmap string pyvalue PStr l) with (PStr <$> l).
  cbn [mbind result_bind].
  destruct (String.ltb y x); [|done]. by rewrite IH.
Qed.

Lemma sorted_PStr (l : list string) :
  sorted (PStr <$> l) = Ok (PStr <$> sorted_str l).
Proof.
  induction l as [|x l IH]; [done|]. cbn [fmap list_fmap sorted].
  change (list_fmap string pyvalue PStr l) with (PStr <$> l).
  rewrite IH. cbn [mbind result_bind]. apply insort_PStr.
Qed.

Lemma ltb_le (x y : string) : String.ltb x y = true -> String.le x y.
Proof.
  unfold String.le, String.leb, String.ltb.
  destruct (String.compare x y); simpl; done.
Qed.

Lemma not_ltb_le (x y : string) : String.ltb y x = false -> String.le x y.
Proof.
  unfold String.le, String.leb, String.ltb.
  rewrite (String.compare_antisym y x).
  destruct (String.compare x y); simpl; done.
Qed.

Lemma insort_str_Permutation (x : string) (l : list string) :
  insort_str x l ≡ₚ x :: l.
Proof.
  induction l as [|y l IH]; [done|]. simpl.
  destruct (String.ltb y x); [|done]. rewrite IH. apply perm_swap.
Qed.

Lemma sorted_str_Permutation (l : list string) : sorted_str l ≡ₚ l.
Proof.
  induction l as [|x l IH]; [done|]. simpl.
  by rewrite insort_str_Permutation, IH.
Qed.

Lemma HdRel_insort_str (a x : string) (l : list string) :
  String.le a x -> HdRel String.le a l -> HdRel String.le a (insort_str x l).
Proof.
  intros Hax Hal. destruct l as [|y l]; simpl; [by constructor|].
  destruct (String.ltb y x); constructor; [|done]. by inversion Hal.
Qed.

Lemma Sorted_insort_str (x : string) (l : list string) :
  Sorted String.le l -> Sorted String.le (insort_str x l).
Proof.
  induction 1 as [|y l Hl IH Hy]; simpl; [by repeat constructor|].
  destruct (String.ltb y x) eqn:E.
  - constructor; [done|]. apply HdRel_insort_str; [by apply ltb_le|done].
  - constructor; [by constructor|]. constructor. by apply not_ltb_le.
Qed.

Lemma Sorted_sorted_str (l : list string) : Sorted String.le (sorted_str l).
Proof.
  induction l as [|x l IH]; simpl; [constructor|]. by apply Sorted_insort_str.
Qed.

(** The sorted arrangement of a list of texts does not depend on the order
    in which they come. *)
Lemma sorted_str_perm (l1 l2 : list string) :
  l1 ≡ₚ l2 -> sorted_str l1 = sorted_str l2.
Proof.
  intros H. apply (Sorted_unique String.le); try apply Sorted_sorted_str.
  by rewrite !sorted_str_Permutation.
Qed.

Lemma has_fever_spec (temp : pyvalue) :
  has_fever temp = Ok (raw_fever temp)
  \/ (has_fever temp = Raise OverflowError
      /\ exists z, temp = PInt z /\ float_of_int z = Raise OverflowError).
Proof.
  unfold has_fever, raw_fever.
  destruct temp as [|z|f|s]; cbn [py_float]; auto.
  - destruct (float_of_int z) as [f|e] eqn:E; auto.
    apply float_of_int_raises in E as E'. subst e. eauto.
  - destruct (float_of_string s); auto.
Qed.

(** The fever test leaves a record out, without raising, when [float]
    refuses the temperature with [ValueError] or [TypeError]. *)
Lemma has_fever_caught (temp : pyvalue) (e : exn) :
  py_float temp = Raise e -> e <> OverflowError -> has_fever temp = Ok false.
Proof.
  unfold has_fever. intros -> He. destruct temp; by destruct e.
Qed.

Lemma has_fever_overflow (z : Z) :
  float_of_int z = Raise OverflowError ->
  has_fever (PInt z) = Raise OverflowError.
Proof. unfold has_fever. cbn [py_float]. by intros ->. Qed.

Lemma scorable_has_fever (patient : gmap string pyvalue) :
  scorable patient ->
  has_fever (get patient "temperature")
  = Ok (raw_fever (get patient "temperature")).
Proof.
  intros [risk Hr].
  destruct (has_fever_spec (get patient "temperature"))
    as [H | (_ & z & Hz & Hov)]; [done|].
  exfalso. apply calculate_risk_score_ok in Hr as (_ & t & _ & _ & Ht & _).
  revert Ht. rewrite Hz. unfold calculate_temp_risk, temp_risk_of_number.
  cbn [none_or_empty py_float]. by rewrite Hov.
Qed.

Lemma cohort_cons (member : gmap string pyvalue -> bool)
  (p : gmap string pyvalue) (l : list (gmap string pyvalue)) :
  cohort member (p :: l)
  = (if member p then [patient_id_of p] else []) ++ cohort member l.
Proof.
  unfold cohort. rewrite filter_cons.
  destruct (member p); by case_decide.
Qed.

Lemma classify_spec (t : tally) (p : gmap string pyvalue) :
  match calculate_risk_score p with
  | Ok _ => classify t p = Ok (tally_one t p)
  | Raise e => classify t p = Raise e
  end.
Proof.
  destruct (calculate_risk_score p) as [risk|e] eqn:Er.
  - unfold classify, tally_one, scores_high, flagged. rewrite Er.
    cbn [mbind result_bind].
    rewrite scorable_has_fever by (by exists risk). cbn [mbind result_bind].
    destruct (4 <=? total_score risk), (raw_fever _), (has_data_issues risk);
      by rewrite ?app_nil_r.
  - unfold classify. by rewrite Er.
Qed.

Lemma for_each_classify (patients : list (gmap string pyvalue)) :
  forall t t',
    for_each classify t patients = Ok t' <->
    Forall scorable patients /\ t' = tally_all t patients.
Proof.
  induction patients as [|p l IH]; intros t t'; cbn [for_each].
  - unfold tally_all, cohort. cbn. rewrite !app_nil_r.
    destruct t. split; [intros [= <-]; by split | intros [_ ->]; done].
  - pose proof (classify_spec t p) as Hc.
    destruct (calculate_risk_score p) as [risk|e] eqn:Er; rewrite Hc;
      cbn [mbind result_bind].
    + rewrite IH, Forall_cons.
      assert (scorable p) as Hp by (by exists risk).
      assert (tally_all (tally_one t p) l = tally_all t (p :: l)) as ->.
      { unfold tally_all, tally_one. rewrite !cohort_cons.
        cbn [high_risk fever data_quality]. by rewrite <- !app_assoc. }
      split; [intros [Hl ->]; by split | intros [[_ Hl] ->]; by split].
    + split; [done|]. intros [[[risk Hr] _]%Forall_cons _]. congruence.
Qed.

Lemma insort_Permutation (x : pyvalue) (l l' : list pyvalue) :
  insort x l = Ok l' -> l' ≡ₚ x :: l.
Proof.
  revert l'. induction l as [|y l IH]; intros l'; cbn [insort].
  - by intros [= <-].
  - destruct (py_lt y x) as [[]|e]; cbn [mbind result_bind]; try done.
    + destruct (insort x l) as [r|e]; cbn [mbind result_bind]; [|done].
      intros [= <-]. rewrite (IH r eq_refl). apply perm_swap.
    + by intros [= <-].
Qed.

Lemma sorted_Permutation (l l' : list pyvalue) :
  sorted l = Ok l' -> l' ≡ₚ l.
Proof.
  revert l'. induction l as [|x l IH]; intros l'; cbn [sorted].
  - by intros [= <-].
  - destruct (sorted l) as [s|e]; cbn [mbind result_bind]; [|done].
    intros ->%insort_Permutation. by rewrite (IH s eq_refl).
Qed.

Lemma process_patients_spec (patients : list (gmap string pyvalue))
  (res : Cohorts) :
  process_patients patients = Ok res <->
  Forall scorable patients
  /\ sorted (cohort scores_high patients) = Ok (high_risk_patients res)
  /\ sorted (cohort (fun p => raw_fever (get p "temperature")) patients)
     = Ok (fever_patients res)
  /\ sorted (cohort flagged patients) = Ok (data_quality_issues res)
  /\ total_patients res = length patients.
Proof.
  unfold process_patients.
  set (t0 := {| high_risk := []; fever := []; data_quality := [] |}).
  destruct (for_each classify t0 patients) as [t|e] eqn:Et;
    cbn [mbind result_bind].
  - apply for_each_classify in Et as [Hall ->].
    cbn [tally_all high_risk fever data_quality t0 app].
    destruct (sorted (cohort scores_high patients)) as [h|e];
      cbn [mbind result_bind];
      [|split; [done | intros (? & ? & ? & ? & ?); done]].
    destruct (sorted (cohort (fun p => raw_fever (get p "temperature"))
                        patients)) as [f|e];
      cbn [mbind result_bind];
      [|split; [done | intros (? & ? & ? & ? & ?); done]].
    destruct (sorted (cohort flagged patients)) as [d|e];
      cbn [mbind result_bind];
      [|split; [done | intros (? & ? & ? & ? & ?); done]].
    split.
    + by intros [= <-].
    + destruct res as [h' f' d' n']. cbn.
      by intros (_ & [= ->] & [= ->] & [= ->] & ->).
  - split; [done|]. intros (Hall & _).
    assert (for_each classify t0 patients = Ok (tally_all t0 patients)) as H
      by by apply for_each_classify.
    congruence.
Qed.

Lemma elem_of_cohort (member : gmap string pyvalue -> bool)
  (patients : list (gmap string pyvalue)) (pid : pyvalue) :
  pid ∈ cohort member patients <->
  exists p, p ∈ patients /\ patient_id_of p = pid /\ member p = true.
Proof.
  unfold cohort. rewrite list_elem_of_fmap. split.
  - intros (p & -> & [Hm Hp]%list_elem_of_filter).
    exists p. by rewrite <- Is_true_true.
  - intros (p & Hp & <- & Hm). exists p. split; [done|].
    apply list_elem_of_filter. by rewrite Is_true_true.
Qed.



(** C6 (defect of the code): a turn of the loop appends the identifier to
    the fever list exactly when the raw temperature, coerced by [float] on
    its own, is a float of at least 99.6, and the returned list holds one
    identifier for each such record.  The decision reads the temperature
    field alone: two records that agree on it and on the identifier are
    treated alike, whatever the risk engine makes of their other fields.  A
    coercion that fails with [ValueError] or [TypeError] leaves the record
    out in silence.  But not every failure does: the handler does not catch
    the [OverflowError] of [float] on an integer too large for a float, such
    as [10 ^ 400]; the test raises and the whole batch is lost. *)
Theorem fever_iff_raw_temperature :
  (forall patients res,
      process_patients patients = Ok res ->
      fever_patients res
      ≡ₚ cohort (fun p => raw_fever (get p "temperature")) patients
      /\ (forall pid,
            pid ∈ fever_patients res <->
            exists p f, p ∈ patients /\ patient_id_of p = pid
                        /\ py_float (get p "temperature") = Ok f
                        /\ PrimFloat.leb 99.6 f = true))
  /\ (forall t p t',
        classify t p = Ok t' ->
        fever t' = if raw_fever (get p "temperature")
                   then fever t ++ [patient_id_of p]
                   else fever t)
  /\ (forall temp f,
        py_float temp = Ok f -> temp <> PNone ->
        has_fever temp = Ok (PrimFloat.leb 99.6 f))
  /\ has_fever PNone = Ok false
  /\ (forall temp e,
        py_float temp = Raise e -> e <> OverflowError ->
        has_fever temp = Ok false)
  /\ (forall temp,
        py_float temp = Raise OverflowError ->
        has_fever temp = Raise OverflowError
        /\ exists z, temp = PInt z)
  /\ (forall t p q tp tq,
        classify t p = Ok tp -> classify t q = Ok tq ->
        get p "temperature" = get q "temperature" ->
        patient_id_of p = patient_id_of q ->
        fever tp = fever tq)
  /\ py_float (PInt (10 ^ 400)) = Raise OverflowError
  /\ has_fever (PInt (10 ^ 400)) = Raise OverflowError
  /\ process_patients
       [severe_patient;
        record "P8" (PStr "120/80") (PInt (10 ^ 400)) (PInt 30)]
     = Raise OverflowError.
Proof.
  assert (forall t p t',
            classify t p = Ok t' ->
            fever t' = if raw_fever (get p "temperature")
                       then fever t ++ [patient_id_of p]
                       else fever t) as Hstep.
  { intros t p t' Hc. pose proof (classify_spec t p) as Hs.
    destruct (calculate_risk_score p) as [risk|e]; [|congruence].
    rewrite Hc in Hs. injection Hs as ->. cbn [tally_one fever].
    destruct (raw_fever _); by rewrite ?app_nil_r. }
  split; [|split; [done|]].
  - intros patients res (Hall & _ & Hf & _)%process_patients_spec.
    apply sorted_Permutation in Hf. split; [done|].
    intros pid. rewrite Hf, elem_of_cohort. unfold raw_fever. split.
    + intros (p & Hp & Hid & Hm).
      destruct (py_float (get p "temperature")) as [f|e] eqn:E; [|done].
      by exists p, f.
    + intros (p & f & Hp & Hid & Hpf & Hge). exists p. by rewrite Hpf.
  - split.
    { intros temp f Hf Hn. unfold has_fever. rewrite Hf. by destruct temp. }
    split; [done|]. split; [exact has_fever_caught|]. split.
    { intros temp He. destruct temp as [|z|f|s]; cbn [py_float] in He;
        try done.
      - unfold has_fever. cbn [py_float]. rewrite He. eauto.
      - by destruct (float_of_string s). }
    split.
    { intros t p q tp tq Hp Hq Ht Hid.
      by rewrite (Hstep _ _ _ Hp), (Hstep _ _ _ Hq), Ht, Hid. }
    repeat split; vm_compute; reflexivity.
Qed.

Lemma fever_iff_raw_temperature_witness :
  process_patients [record "A" (PStr "INVALID") (PStr "99.6") (PStr "x");
                    record "B" (PStr "110/70") (PStr "TEMP_ERROR") (PInt 30)]
  = Ok {| high_risk_patients := []; fever_patients := [PStr "A"];
          data_quality_issues := [PStr "A"; PStr "B"];
          total_patients := 2 |}
  /\ [PStr "A"]
     ≡ₚ cohort (fun p => raw_fever (get p "temperature"))
          [record "A" (PStr "INVALID") (PStr "99.6") (PStr "x");
           record "B" (PStr "110/70") (PStr "TEMP_ERROR") (PInt 30)].
Proof.
  assert (process_patients
            [record "A" (PStr "INVALID") (PStr "99.6") (PStr "x");
             record "B" (PStr "110/70") (PStr "TEMP_ERROR") (PInt 30)]
          = Ok {| high_risk_patients := []; fever_patients := [PStr "A"];
                  data_quality_issues := [PStr "A"; PStr "B"];
                  total_patients := 2 |}) as H
    by (vm_compute; reflexivity).
  split; [exact H|].
  exact (proj1 (proj1 fever_iff_raw_temperature _ _ H)).
Defined.

(** ** Records without an identifier *)

Lemma get_insert_id (patient : gmap string pyvalue) (v : pyvalue) (k : string) :
  k <> "patient_id" -> get (<["patient_id" := v]> patient) k = get patient k.
Proof. intros Hk. unfold get. by rewrite lookup_insert_ne. Qed.

Lemma calculate_risk_score_insert_id (patient : gmap string pyvalue)
  (v : pyvalue) :
  calculate_risk_score (<["patient_id" := v]> patient)
  = calculate_risk_score patient.
Proof. unfold calculate_risk_score. by rewrite !get_insert_id. Qed.

Lemma patient_id_of_named (patient : gmap string pyvalue) :
  patient_id_of (named patient) = patient_id_of patient.
Proof. unfold named, patient_id_of at 1, get_or. by rewrite lookup_insert_eq. Qed.

Lemma classify_named (t : tally) (patient : gmap string pyvalue) :
  classify t (named patient) = classify t patient.
Proof.
  unfold classify. rewrite patient_id_of_named. unfold named.
  by rewrite calculate_risk_score_insert_id, get_insert_id.
Qed.

Lemma for_each_classify_named (patients : list (gmap string pyvalue))
  (t : tally) :
  for_each classify t (named <$> patients) = for_each classify t patients.
Proof.
  revert t. induction patients as [|p patients IH]; intros t; [done|].
  cbn [fmap list_fmap for_each]. rewrite classify_named.
  destruct (classify t p) as [t'|e]; [|done]. cbn [mbind result_bind].
  apply IH.
Qed.

Lemma process_patients_named (patients : list (gmap string pyvalue)) :
  process_patients (named <$> patients) = process_patients patients.
Proof.
  unfold process_patients. by rewrite for_each_classify_named, length_fmap.
Qed.

(** C10: a record without a [patient_id] entry gets the identifier
    "UNKNOWN" and is scored and classified as the same record with that
    identifier: a turn of the loop scores it and appends "UNKNOWN" to the
    high-risk list when the total is at least 4, to the fever list when the
    raw temperature is a fever, and to the data-quality list when the score
    has an issue; [process_patients] does on a list of records what it does
    on the same records with "UNKNOWN" written into those that have no
    identifier, and each of the returned lists holds one identifier for each
    record that qualifies for it, the records without an identifier
    included.  The empty record scores 0 with three issues and puts
    "UNKNOWN" in the data-quality list, and a record without identifier that
    totals 7 puts "UNKNOWN" in the high-risk list. *)
Theorem missing_id_is_unknown :
  (forall patient : gmap string pyvalue,
      patient !! "patient_id" = None ->
      patient_id_of patient = PStr "UNKNOWN"
      /\ calculate_risk_score patient
         = calculate_risk_score (<["patient_id" := PStr "UNKNOWN"]> patient)
      /\ (forall t, classify t patient
                    = classify t (<["patient_id" := PStr "UNKNOWN"]> patient))
      /\ (forall t risk,
            calculate_risk_score patient = Ok risk ->
            classify t patient
            = Ok {| high_risk :=
                      high_risk t ++ (if 4 <=? total_score risk
                                      then [PStr "UNKNOWN"] else []);
                    fever :=
                      fever t ++ (if raw_fever (get patient "temperature")
                                  then [PStr "UNKNOWN"] else []);
                    data_quality :=
                      data_quality t ++ (if has_data_issues risk
                                         then [PStr "UNKNOWN"] else []) |}))
  /\ (forall patient : gmap string pyvalue,
        patient !! "patient_id" = None ->
        named patient = <["patient_id" := PStr "UNKNOWN"]> patient)
  /\ (forall patients,
        process_patients patients = process_patients (named <$> patients))
  /\ (forall patients res,
        process_patients patients = Ok res ->
        (high_risk_patients res ≡ₚ cohort scores_high patients
         /\ fever_patients res
            ≡ₚ cohort (fun p => raw_fever (get p "temperature")) patients
         /\ data_quality_issues res ≡ₚ cohort flagged patients)
        /\ forall p,
             p ∈ patients -> p !! "patient_id" = None ->
             exists risk,
               calculate_risk_score p = Ok risk
               /\ (4 <= total_score risk ->
                   PStr "UNKNOWN" ∈ high_risk_patients res)
               /\ (raw_fever (get p "temperature") = true ->
                   PStr "UNKNOWN" ∈ fever_patients res)
               /\ (has_data_issues risk = true ->
                   PStr "UNKNOWN" ∈ data_quality_issues res))
  /\ calculate_risk_score ∅
     = Ok {| bp_score := 0; temp_score := 0; age_score := 0;
             total_score := 0; has_data_issues := true;
             issues := ["Invalid BP: None"; "Missing temperature";
                        "Missing age"] |}
  /\ process_patients [∅]
     = Ok {| high_risk_patients := []; fever_patients := [];
             data_quality_issues := [PStr "UNKNOWN"]; total_patients := 1 |}
  /\ process_patients [delete "patient_id" severe_patient]
     = Ok {| high_risk_patients := [PStr "UNKNOWN"];
             fever_patients := [PStr "UNKNOWN"];
             data_quality_issues := []; total_patients := 1 |}.
Proof.
  split; [|split; [|split; [|split;
    [|repeat split; vm_compute; reflexivity]]]].
  - intros patient Hid.
    assert (patient_id_of patient = PStr "UNKNOWN") as Hu.
    { unfold patient_id_of, get_or. by rewrite Hid. }
    split; [done|]. split; [by rewrite calculate_risk_score_insert_id|].
    split.
    + intros t. unfold classify.
      rewrite calculate_risk_score_insert_id, get_insert_id by done.
      rewrite Hu. unfold patient_id_of, get_or. by rewrite lookup_insert_eq.
    + intros t risk Hr. pose proof (classify_spec t patient) as Hs.
      rewrite Hr in Hs. rewrite Hs.
      unfold tally_one, scores_high, flagged. by rewrite Hr, Hu.
  - intros patient Hid. unfold named, patient_id_of, get_or. by rewrite Hid.
  - intros patients. by rewrite process_patients_named.
  - intros patients res (Hall & Hh & Hf & Hd & _)%process_patients_spec.
    apply sorted_Permutation in Hh, Hf, Hd. split; [done|].
    intros p Hp Hid. rewrite Forall_forall in Hall.
    destruct (Hall p Hp) as [risk Hr]. exists risk. split; [done|].
    assert (patient_id_of p = PStr "UNKNOWN") as Hu.
    { unfold patient_id_of, get_or. by rewrite Hid. }
    rewrite Hh, Hf, Hd, !elem_of_cohort.
    repeat split; intros Hq; exists p; (split; [done|]); (split; [done|]).
    + unfold scores_high. rewrite Hr. by apply Z.leb_le.
    + done.
    + unfold flagged. by rewrite Hr.
Qed.

Lemma missing_id_is_unknown_witness :
  ({[ "age" := PInt 70 ]} : gmap string pyvalue) !! "patient_id" = None
  /\ patient_id_of {[ "age" := PInt 70 ]} = PStr "UNKNOWN"
  /\ classify {| high_risk := []; fever := []; data_quality := [] |}
       {[ "age" := PInt 70 ]}
     = Ok {| high_risk := []; fever := [];
             data_quality := [PStr "UNKNOWN"] |}.
Proof.
  assert (({[ "age" := PInt 70 ]} : gmap string pyvalue) !! "patient_id"
          = None) as Hid by (vm_compute; reflexivity).
  split; [exact Hid|].
  destruct (proj1 missing_id_is_unknown {[ "age" := PInt 70 ]} Hid)
    as (Hu & _ & _ & Hc).
  split; [exact Hu|].
  rewrite (Hc {| high_risk := []; fever := []; data_quality := [] |}
             {| bp_score := 0; temp_score := 0; age_score := 2;
                total_score := 2; has_data_issues := true;
                issues := ["Invalid BP: None"; "Missing temperature"] |})
    by (vm_compute; reflexivity).
  vm_compute. reflexivity.
Defined.

(** ** Order and duplicates of the cohort lists *)

Lemma cohort_texts (member : gmap string pyvalue -> bool)
  (patients : list (gmap string pyvalue)) :
  Forall has_text_id patients ->
  cohort member patients
  = PStr <$> (id_text <$> filter (fun p => Is_true (member p)) patients).
Proof.
  intros Hall. unfold cohort. rewrite <- list_fmap_compose.
  apply Forall_fmap_ext_1, Forall_forall.
  intros p [_ Hp]%list_elem_of_filter.
  rewrite Forall_forall in Hall. destruct (Hall p Hp) as [s Hs].
  unfold id_text. cbn. by rewrite Hs.
Qed.

Lemma sorted_cohort (member : gmap string pyvalue -> bool)
  (patients : list (gmap string pyvalue)) :
  Forall has_text_id patients ->
  sorted (cohort member patients)
  = Ok (PStr <$> sorted_str
          (id_text <$> filter (fun p => Is_true (member p)) patients)).
Proof. intros Hall. by rewrite cohort_texts, sorted_PStr. Qed.

Lemma NoDup_cohort (member : gmap string pyvalue -> bool)
  (patients : list (gmap string pyvalue)) :
  NoDup (patient_id_of <$> patients) -> NoDup (cohort member patients).
Proof.
  intros Hnd. apply (sublist_NoDup _ _ Hnd).
  unfold cohort. apply fmap_sublist, sublist_filter.
Qed.

(** C2 (amended): when the identifiers of the records are texts, each of
    the three returned lists is in lexicographic order and is the same for
    every order of the input records; it holds an identifier once for each
    record that qualifies for the list and carries it (a total of at least
    4, a raw temperature that is a fever, a score with an issue), so it has
    no duplicate when the identifiers of the input records are pairwise
    distinct. *)
Theorem cohort_lists_sorted (patients : list (gmap string pyvalue))
  (res : Cohorts) :
  Forall has_text_id patients ->
  process_patients patients = Ok res ->
  (lex_sorted (high_risk_patients res)
   /\ lex_sorted (fever_patients res)
   /\ lex_sorted (data_quality_issues res))
  /\ (high_risk_patients res ≡ₚ cohort scores_high patients
      /\ fever_patients res
         ≡ₚ cohort (fun p => raw_fever (get p "temperature")) patients
      /\ data_quality_issues res ≡ₚ cohort flagged patients)
  /\ (length (high_risk_patients res)
      = length (filter (fun p => Is_true (scores_high p)) patients)
      /\ length (fever_patients res)
         = length (filter (fun p => Is_true (raw_fever (get p "temperature")))
                     patients)
      /\ length (data_quality_issues res)
         = length (filter (fun p => Is_true (flagged p)) patients))
  /\ (NoDup (patient_id_of <$> patients) ->
      NoDup (high_risk_patients res)
      /\ NoDup (fever_patients res)
      /\ NoDup (data_quality_issues res))
  /\ (forall patients',
        patients' ≡ₚ patients -> process_patients patients' = Ok res).
Proof.
  intros Hids (Hall & Hh & Hf & Hd & Hn)%process_patients_spec.
  split; [|split; [|split; [|split]]].
  - rewrite sorted_cohort in Hh, Hf, Hd by done.
    injection Hh as <-. injection Hf as <-. injection Hd as <-.
    repeat split; eexists; (split; [reflexivity | apply Sorted_sorted_str]).
  - by apply sorted_Permutation in Hh, Hf, Hd.
  - apply sorted_Permutation in Hh, Hf, Hd. rewrite Hh, Hf, Hd.
    unfold cohort. by rewrite !length_fmap.
  - intros Hnd.
    apply sorted_Permutation in Hh, Hf, Hd. rewrite Hh, Hf, Hd.
    auto using NoDup_cohort.
  - intros patients' Hperm. apply process_patients_spec.
    assert (Forall has_text_id patients') as Hids'
      by (eapply Permutation_Forall; [symmetry; exact Hperm | done]).
    assert (forall member,
              sorted (cohort member patients')
              = sorted (cohort member patients)) as Hsame.
    { intros member. rewrite !sorted_cohort by done. do 2 f_equal.
      apply sorted_str_perm. by rewrite Hperm. }
    rewrite !Hsame.
    split; [eapply Permutation_Forall; [symmetry; exact Hperm | done]|].
    do 3 (split; [done|]).
    rewrite Hn. symmetry. by apply Permutation_length.
Qed.

Lemma cohort_lists_sorted_witness :
  Forall has_text_id [record "B" (PStr "150/95") (PInt 101) (PInt 70);
                      record "A" (PStr "150/95") (PInt 101) (PInt 70)]
  /\ process_patients [record "B" (PStr "150/95") (PInt 101) (PInt 70);
                       record "A" (PStr "150/95") (PInt 101) (PInt 70)]
     = Ok {| high_risk_patients := [PStr "A"; PStr "B"];
             fever_patients := [PStr "A"; PStr "B"];
             data_quality_issues := []; total_patients := 2 |}
  /\ lex_sorted [PStr "A"; PStr "B"]
  /\ [PStr "A"; PStr "B"]
     ≡ₚ cohort scores_high
          [record "B" (PStr "150/95") (PInt 101) (PInt 70);
           record "A" (PStr "150/95") (PInt 101) (PInt 70)].
Proof.
  assert (Forall has_text_id
            [record "B" (PStr "150/95") (PInt 101) (PInt 70);
             record "A" (PStr "150/95") (PInt 101) (PInt 70)]) as Hids.
  { repeat constructor; eexists; vm_compute; reflexivity. }
  assert (process_patients
            [record "B" (PStr "150/95") (PInt 101) (PInt 70);
             record "A" (PStr "150/95") (PInt 101) (PInt 70)]
          = Ok {| high_risk_patients := [PStr "A"; PStr "B"];
                  fever_patients := [PStr "A"; PStr "B"];
                  data_quality_issues := []; total_patients := 2 |}) as H
    by (vm_compute; reflexivity).
  split; [exact Hids|]. split; [exact H|].
  destruct (cohort_lists_sorted _ _ Hids H) as ((Hs & _) & (Hp & _) & _).
  split; [exact Hs | exact Hp].
Defined.

(** C2 (counterexample): two records with the same identifier that both
    qualify leave the identifier twice in the list; nothing removes
    duplicates. *)
Lemma duplicate_ids_are_kept :
  process_patients [severe_patient; severe_patient]
  = Ok {| high_risk_patients := [PStr "P1"; PStr "P1"];
          fever_patients := [PStr "P1"; PStr "P1"];
          data_quality_issues := []; total_patients := 2 |}
  /\ ~ NoDup [PStr "P1"; PStr "P1"].
Proof.
  split; [vm_compute; reflexivity|].
  intros H. apply NoDup_cons in H as [H _]. apply H. by left.
Qed.

(** * Properties of the fetcher *)

Section FetcherProperties.

Variable source : list event -> Z -> Z -> response.

(** The attempts at [page] from the trace [tr] all fail in the transient
    way, [n] of them. *)
Definition attempts_fail (page limit : Z) (n start : nat) (tr : list event)
  : Prop :=
  forall i, (i < n)%nat ->
    transient_failure (source (failed_attempts page limit i start tr) page limit)
    = true.

(** The request for [page] from the trace [tr] ends in failure: every one of
    the [MAX_RETRIES] attempts fails in the transient way, or one of them,
    after transient failures only, gets another status than 200. *)
Definition page_fails (page : Z) (tr tr' : list event) : Prop :=
  (attempts_fail page 10 MAX_RETRIES 0 tr
   /\ tr' = failed_attempts page 10 MAX_RETRIES 0 tr)
  \/ (exists k, (k < MAX_RETRIES)%nat
        /\ attempts_fail page 10 k 0 tr
        /\ fatal_failure (source (failed_attempts page 10 k 0 tr) page 10) = true
        /\ tr' = failed_attempts page 10 k 0 tr ++ [Get page 10]).

(** The first [n] pages were fetched, each not empty and announcing a next
    page, leaving the trace [tr] and the records [all]. *)
Inductive pages_fetched : nat -> list event -> list (gmap string pyvalue) -> Prop :=
| fetched_none : pages_fetched 0 [] []
| fetched_more n tr all b tr' patients :
    pages_fetched n tr all ->
    fetch_patients_with_retry source (Z.of_nat n + 1) 10 tr = (Some b, tr') ->
    data b = Some patients -> patients <> [] -> has_next b = true ->
    pages_fetched (S n) (tr' ++ [Sleep 0.2]) (all ++ patients).

Lemma attempts_fail_S (page limit : Z) (n start : nat) (tr : list event) :
  attempts_fail page limit (S n) start tr ->
  transient_failure (source tr page limit) = true
  /\ attempts_fail page limit n (S start)
       ((tr ++ [Get page limit]) ++ [Sleep (wait_time start)]).
Proof.
  intros H. split.
  - apply (H 0%nat). lia.
  - intros i Hi. apply (H (S i)). lia.
Qed.

Lemma retry_loop_transient (remaining attempt : nat) (page limit : Z)
  (tr : list event) :
  transient_failure (source tr page limit) = true ->
  retry_loop source (S remaining) attempt page limit tr
  = retry_loop source remaining (S attempt) page limit
      ((tr ++ [Get page limit]) ++ [Sleep (wait_time attempt)]).
Proof.
  cbn [retry_loop]. unfold transient_failure.
  destruct (source tr page limit) as [status_code json|]; [|done].
  destruct (status_code =? 200); [done|]. cbn [negb andb]. by intros ->.
Qed.

Lemma retry_loop_exhausted (remaining : nat) :
  forall attempt page limit tr,
    attempts_fail page limit remaining attempt tr ->
    retry_loop source remaining attempt page limit tr
    = (None, failed_attempts page limit remaining attempt tr).
Proof.
  induction remaining as [|remaining IH]; intros attempt page limit tr H.
  - done.
  - apply attempts_fail_S in H as [H0 H].
    rewrite retry_loop_transient by done. by apply IH.
Qed.

Lemma retry_loop_fatal (k : nat) :
  forall remaining attempt page limit tr,
    (k < remaining)%nat ->
    attempts_fail page limit k attempt tr ->
    fatal_failure (source (failed_attempts page limit k attempt tr) page limit)
    = true ->
    retry_loop source remaining attempt page limit tr
    = (None, failed_attempts page limit k attempt tr ++ [Get page limit]).
Proof.
  induction k as [|k IH]; intros remaining attempt page limit tr Hk H Hf.
  - destruct remaining as [|remaining]; [lia|].
    cbn [failed_attempts retry_loop] in *. unfold fatal_failure in Hf.
    destruct (source tr page limit) as [status_code json|]; [|done].
    destruct (status_code =? 200); [done|].
    by destruct (transient status_code).
  - destruct remaining as [|remaining]; [lia|].
    apply attempts_fail_S in H as [H0 H].
    rewrite retry_loop_transient by done.
    cbn [failed_attempts] in *. apply IH; [lia|done..].
Qed.

Lemma retry_loop_success (k : nat) :
  forall remaining attempt page limit tr json,
    (k < remaining)%nat ->
    attempts_fail page limit k attempt tr ->
    source (failed_attempts page limit k attempt tr) page limit
    = Response 200 json ->
    retry_loop source remaining attempt page limit tr
    = (Some json, failed_attempts page limit k attempt tr ++ [Get page limit]).
Proof.
  induction k as [|k IH]; intros remaining attempt page limit tr json Hk H Hs.
  - destruct remaining as [|remaining]; [lia|].
    cbn [failed_attempts retry_loop] in *. by rewrite Hs.
  - destruct remaining as [|remaining]; [lia|].
    apply attempts_fail_S in H as [H0 H].
    rewrite retry_loop_transient by done.
    cbn [failed_attempts] in *. apply IH; [lia|done..].
Qed.

Lemma retry_loop_trace (remaining : nat) :
  forall attempt page limit tr r tr',
    retry_loop source remaining attempt page limit tr = (r, tr') ->
    exists evs, tr' = tr ++ evs /\ Forall (about_page page limit) evs.
Proof.
  induction remaining as [|remaining IH]; intros attempt page limit tr r tr'.
  - intros [= _ <-]. exists []. by rewrite app_nil_r.
  - cbn [retry_loop].
    assert (about_page page limit (Get page limit)) as Hg by by left.
    assert (forall s, about_page page limit (Sleep s)) as Hs
      by (intros s; right; eauto).
    assert (forall r tr',
              retry_loop source remaining (S attempt) page limit
                ((tr ++ [Get page limit]) ++ [Sleep (wait_time attempt)])
              = (r, tr') ->
              exists evs, tr' = tr ++ evs /\ Forall (about_page page limit) evs)
      as Hback.
    { intros r0 tr0 (evs & -> & Hevs)%IH.
      exists ([Get page limit] ++ [Sleep (wait_time attempt)] ++ evs).
      split; [by rewrite <- !app_assoc|].
      cbn. constructor; [exact Hg|]. constructor; [apply Hs | exact Hevs]. }
    destruct (source tr page limit) as [status_code json|]; [|apply Hback].
    destruct (status_code =? 200).
    { intros [= _ <-]. exists [Get page limit]. split; [done|].
      constructor; [exact Hg | constructor]. }
    destruct (transient status_code); [apply Hback|].
    intros [= _ <-]. exists [Get page limit]. split; [done|].
    constructor; [exact Hg | constructor].
Qed.

Lemma fetch_loop_resume (n : nat) (tr : list event)
  (all : list (gmap string pyvalue)) :
  pages_fetched n tr all ->
  forall fuel,
    fetch_all_patients source (n + fuel)
    = fetch_loop source fuel all (Z.of_nat n + 1) tr.
Proof.
  induction 1 as [|n tr all b tr' patients Hn IH Hf Hd Hne Hnext];
    intros fuel; [done|].
  replace (S n + fuel)%nat with (n + S fuel)%nat by lia.
  rewrite IH. cbn [fetch_loop]. rewrite Hf, Hd, Hnext.
  destruct patients as [|p patients]; [done|].
  do 2 f_equal. lia.
Qed.

Lemma fetch_loop_failed (fuel : nat) (all : list (gmap string pyvalue))
  (page : Z) (tr tr' : list event) :
  fetch_patients_with_retry source page 10 tr = (None, tr') ->
  fetch_loop source (S fuel) all page tr = Some (all, tr').
Proof. cbn [fetch_loop]. by intros ->. Qed.

Lemma page_fails_None (page : Z) (tr tr' : list event) :
  page_fails page tr tr' ->
  fetch_patients_with_retry source page 10 tr = (None, tr').
Proof.
  unfold fetch_patients_with_retry.
  intros [[H ->] | (k & Hk & H & Hf & ->)].
  - by apply retry_loop_exhausted.
  - by apply retry_loop_fatal.
Qed.

(** C8: when the first [n] pages were fetched and the request for the next
    page fails, by [MAX_RETRIES] transient failures in a row or by another
    status than 200 after transient failures only, [fetch_all_patients]
    returns, given fuel for [n + 1] turns, exactly the records of the [n]
    pages (none when [n = 0]); the model has no exception to raise. *)
Theorem fetch_stops_at_failed_page (n : nat) (tr tr' : list event)
  (all : list (gmap string pyvalue)) :
  pages_fetched n tr all ->
  page_fails (Z.of_nat n + 1) tr tr' ->
  forall fuel, (n < fuel)%nat ->
    fetch_all_patients source fuel = Some (all, tr').
Proof.
  intros Hn Hfail%page_fails_None fuel Hfuel.
  replace fuel with (n + S (fuel - n - 1))%nat by lia.
  rewrite (fetch_loop_resume n tr all Hn). by apply fetch_loop_failed.
Qed.

(** C7: when the request for page 1 brings a page that is not empty and
    announces a next page, and the request for page 2 brings a page that is
    not empty and announces none, [fetch_all_patients] returns the records
    of page 1 followed by those of page 2, and its trace holds requests for
    pages 1 and 2 only. *)
Theorem fetch_two_pages (b1 b2 : body) (d1 d2 : list (gmap string pyvalue))
  (tr1 tr2 : list event) :
  fetch_patients_with_retry source 1 10 [] = (Some b1, tr1) ->
  data b1 = Some d1 -> d1 <> [] -> has_next b1 = true ->
  fetch_patients_with_retry source 2 10 (tr1 ++ [Sleep 0.2]) = (Some b2, tr2) ->
  data b2 = Some d2 -> d2 <> [] -> has_next b2 = false ->
  (forall fuel, (2 <= fuel)%nat ->
     fetch_all_patients source fuel = Some (d1 ++ d2, tr2))
  /\ (forall page limit, Get page limit ∈ tr2 -> page = 1 \/ page = 2).
Proof.
  intros H1 Hd1 Hn1 Hx1 H2 Hd2 Hn2 Hx2. split.
  - intros fuel Hfuel.
    assert (pages_fetched 1 (tr1 ++ [Sleep 0.2]) ([] ++ d1)) as Hp.
    { by apply (fetched_more 0 [] [] b1 tr1 d1); [constructor|..]. }
    replace fuel with (1 + S (fuel - 2))%nat by lia.
    rewrite (fetch_loop_resume _ _ _ Hp). cbn [fetch_loop].
    change (Z.of_nat 1 + 1) with 2. rewrite H2, Hd2, Hx2.
    by destruct d2.
  - intros page limit Hin.
    apply retry_loop_trace in H1 as (evs1 & -> & He1).
    apply retry_loop_trace in H2 as (evs2 & -> & He2).
    rewrite Forall_forall in He1, He2.
    rewrite !elem_of_app in Hin.
    destruct Hin as [[[Hin | Hin] | Hin] | Hin].
    + by apply elem_of_nil in Hin.
    + destruct (He1 _ Hin) as [[= -> _] | [s [=]]]. by left.
    + by apply list_elem_of_singleton in Hin.
    + destruct (He2 _ Hin) as [[= -> _] | [s [=]]]. by right.
Qed.

End FetcherProperties.

Lemma fetch_two_pages_witness :
  fetch_all_patients two_pages 2
  = Some ([severe_patient; ∅], [Get 1 10; Sleep 0.2; Get 2 10]).
Proof.
  assert (fetch_patients_with_retry two_pages 1 10 []
          = (Some (page_of [severe_patient] true), [Get 1 10])) as H1
    by reflexivity.
  assert (fetch_patients_with_retry two_pages 2 10 ([Get 1 10] ++ [Sleep 0.2])
          = (Some (page_of [∅] false), [Get 1 10; Sleep 0.2; Get 2 10])) as H2
    by reflexivity.
  assert ([severe_patient] <> []) as Hn1 by discriminate.
  assert ([(∅ : gmap string pyvalue)] <> []) as Hn2 by discriminate.
  exact (proj1 (fetch_two_pages two_pages _ _ _ _ _ _
                  H1 eq_refl Hn1 eq_refl H2 eq_refl Hn2 eq_refl)
           2%nat (le_n 2)).
Defined.

Lemma fetch_stops_at_failed_page_witness :
  fetch_all_patients second_page_down 2
  = Some ([severe_patient],
          [Get 1 10; Sleep 0.2;
           Get 2 10; Sleep 1; Get 2 10; Sleep 2; Get 2 10; Sleep 4;
           Get 2 10; Sleep 8; Get 2 10; Sleep 16]).
Proof.
  assert (pages_fetched second_page_down 1 ([Get 1 10] ++ [Sleep 0.2])
            ([] ++ [severe_patient])) as Hp.
  { apply (fetched_more second_page_down 0 [] []
             (page_of [severe_patient] true) [Get 1 10] [severe_patient]);
      [constructor | reflexivity | reflexivity | discriminate | reflexivity]. }
  assert (page_fails second_page_down (Z.of_nat 1 + 1)
            ([Get 1 10] ++ [Sleep 0.2])
            [Get 1 10; Sleep 0.2;
             Get 2 10; Sleep 1; Get 2 10; Sleep 2; Get 2 10; Sleep 4;
             Get 2 10; Sleep 8; Get 2 10; Sleep 16]) as Hf.
  { left. split; [intros i Hi; reflexivity | vm_compute; reflexivity]. }
  exact (fetch_stops_at_failed_page second_page_down 1 _ _ _ Hp Hf
           2%nat (le_n 2)).
Defined.

(** * Further properties of the risk rules *)

(** ** Age *)

Lemma age_cascade_cases (age : Z) :
  (age_cascade age = 0 <-> age < 40)
  /\ (age_cascade age = 1 <-> 40 <= age <= 65)
  /\ (age_cascade age = 2 <-> 65 < age).
Proof.
  unfold age_cascade.
  destruct (Z.ltb_spec age 40), (Z.leb_spec 40 age), (Z.leb_spec age 65);
    cbn [andb]; lia.
Qed.

(** An age given as an integer is scored without an issue, whatever its
    sign: 0 below 40, 1 from 40 to 65, 2 above 65. *)
Theorem age_risk_of_int (age : Z) :
  exists score,
    calculate_age_risk (PInt age) = Ok (score, None)
    /\ (score = 0 <-> age < 40)
    /\ (score = 1 <-> 40 <= age <= 65)
    /\ (score = 2 <-> 65 < age).
Proof. exists (age_cascade age). split; [done | apply age_cascade_cases]. Qed.

Lemma int_digits_all_digits (s : string) :
  forall acc prev,
    all_digits s = true -> 0 <= acc -> s <> "" \/ prev = true ->
    exists z, 0 <= z /\ int_digits s acc prev = Some z.
Proof.
  induction s as [|c s IH]; intros acc prev Hs Hacc Hne; cbn [int_digits].
  - destruct Hne as [Hne | ->]; [done|]. eauto.
  - cbn [all_digits] in Hs. apply andb_true_iff in Hs as [Hc Hs].
    rewrite Hc. apply IH; [done| |by right].
    unfold is_digit, digit_val in *. lia.
Qed.

Lemma int_of_string_isdigit (s : string) :
  isdigit s = true -> (String.length s <= int_max_str_digits)%nat ->
  exists age, 0 <= age /\ int_of_string s = Some age.
Proof.
  intros Hd Hlen. destruct s as [|c s]; [done|].
  assert (all_digits (String c s) = true) as Hall by done.
  destruct (int_digits_all_digits (String c s) 0 false Hall) as (z & Hz & Hi);
    [lia | by left |].
  exists z. by rewrite int_of_string_digits.
Qed.

(** An age given as a text, of a length within the limit on integer
    literals, is scored when the text is made of digits only, as the number
    that the digits denote; any other non-empty text, such as one with a
    sign, a decimal point or white space around the digits, scores 0 with
    the issue "Invalid age: " followed by the text. *)
Theorem age_risk_of_text (s : string) :
  s <> "" -> (String.length s <= int_max_str_digits)%nat ->
  (isdigit s = true ->
   exists age, 0 <= age /\ int_of_string s = Some age
               /\ calculate_age_risk (PStr s) = Ok (age_cascade age, None))
  /\ (isdigit s = false ->
      calculate_age_risk (PStr s) = Ok (0, Some ("Invalid age: " +:+ s))).
Proof.
  intros Hne Hlen. unfold calculate_age_risk.
  destruct s as [|c s]; [done|]. cbn [none_or_empty].
  split; intros Hd; rewrite Hd; [|done]. cbn [negb].
  destruct (int_of_string_isdigit _ Hd Hlen) as (z & Hz & Hi).
  rewrite Hi. eauto.
Qed.

Lemma age_risk_of_text_witness :
  "045" <> "" /\ calculate_age_risk (PStr "045") = Ok (1, None)
  /\ calculate_age_risk (PStr "45.0") = Ok (0, Some "Invalid age: 45.0").
Proof.
  assert ("045" <> "") as H1 by discriminate.
  assert ("45.0" <> "") as H2 by discriminate.
  assert (String.length "045" <= int_max_str_digits)%nat as L1
    by (vm_compute; lia).
  assert (String.length "45.0" <= int_max_str_digits)%nat as L2
    by (vm_compute; lia).
  split; [exact H1|]. split.
  - destruct (proj1 (age_risk_of_text "045" H1 L1) eq_refl)
      as (age & _ & Hi & Hr).
    vm_compute in Hi. injection Hi as <-. exact Hr.
  - exact (proj2 (age_risk_of_text "45.0" H2 L2) eq_refl).
Defined.

(** ** Exceptions of the risk engine *)

(** [str] refuses exactly the integers of more digits than the limit. *)
Lemma unwritable_PInt (z : Z) :
  writable (PInt z) = false <-> 10 ^ Z.of_nat int_max_str_digits <= Z.abs z.
Proof.
  split.
  - intros Hw.
    destruct (Z.lt_ge_cases (Z.abs z) (10 ^ Z.of_nat int_max_str_digits))
      as [Hlt | Hge]; [|done].
    apply writable_PInt in Hlt. congruence.
  - intros Hz%length_str_of_int_gt. cbn [writable]. by apply Nat.leb_gt.
Qed.

Lemma calculate_risk_score_raises (patient : gmap string pyvalue) (e : exn) :
  calculate_risk_score patient = Raise e ->
  e = ValueError \/ e = OverflowError.
Proof.
  intros [[-> _] | [-> _]]%calculate_risk_score_Raise; auto.
Qed.

(** [calculate_risk_score] raises in three cases only: [ValueError] when
    the blood pressure is an integer of more digits than the limit, which
    [str] refuses outside every [try]; and otherwise [OverflowError] when
    the temperature is an integer too large for a float or the age is an
    infinite float.  Every other record of null, numbers and texts gets a
    score. *)
Theorem risk_score_raises_exactly (patient : gmap string pyvalue)
  (e : exn) :
  calculate_risk_score patient = Raise e <->
  (e = ValueError
   /\ exists z, get patient "blood_pressure" = PInt z
                /\ 10 ^ Z.of_nat int_max_str_digits <= Z.abs z)
  \/ (e = OverflowError
      /\ ~ (exists z, get patient "blood_pressure" = PInt z
                      /\ 10 ^ Z.of_nat int_max_str_digits <= Z.abs z)
      /\ ((exists z, get patient "temperature" = PInt z
                     /\ float_of_int z = Raise OverflowError)
          \/ (exists f, get patient "age" = PFloat f /\ is_inf f = true))).
Proof.
  rewrite calculate_risk_score_Raise.
  assert (unwritable_bp patient
          <-> exists z, get patient "blood_pressure" = PInt z
                        /\ 10 ^ Z.of_nat int_max_str_digits <= Z.abs z) as Hu.
  { unfold unwritable_bp. split; intros (z & Hz & Hw); exists z;
      (split; [done|]); by apply unwritable_PInt. }
  by rewrite Hu.
Qed.

Lemma risk_score_raises_exactly_witness :
  calculate_risk_score (record "P9" (PStr "120/80") (PFloat 98.6) (PFloat infinity))
  = Raise OverflowError.
Proof.
  apply risk_score_raises_exactly. right. split; [reflexivity|]. split.
  - intros (z & Hz & _). vm_compute in Hz. discriminate Hz.
  - right. exists infinity. split; vm_compute; reflexivity.
Defined.

(** ** Blood pressure *)

(** On a reading whose two sides parse, the score is a function of the two
    numbers alone and carries no issue: 0 when both are below 120 and 80, 1
    when the systolic is 120..129 with a diastolic below 80, 2 when the
    systolic is 130..139 or the diastolic 80..89, also when the other side
    is in the stage-2 range, and 3 in the remaining stage-2 cases. *)
Theorem bp_score_by_ranges (bp_value : pyvalue) (systolic diastolic : Z) :
  parse_blood_pressure bp_value = Ok (Some systolic, Some diastolic) ->
  exists score,
    calculate_bp_risk bp_value = Ok (score, None)
    /\ (score = 0 <-> systolic < 120 /\ diastolic < 80)
    /\ (score = 1 <-> 120 <= systolic <= 129 /\ diastolic < 80)
    /\ (score = 2 <-> 130 <= systolic <= 139 \/ 80 <= diastolic <= 89)
    /\ (score = 3 <->
        (140 <= systolic /\ ~ 80 <= diastolic <= 89)
        \/ (90 <= diastolic /\ ~ 130 <= systolic <= 139)).
Proof.
  intros Hp. unfold calculate_bp_risk. rewrite Hp. cbn [mbind result_bind].
  eexists. split; [reflexivity|].
  unfold bp_cascade, is_normal, is_elevated, is_stage1, is_stage2.
  destruct (Z.ltb_spec systolic 120), (Z.ltb_spec diastolic 80),
    (Z.leb_spec 120 systolic), (Z.leb_spec systolic 129),
    (Z.leb_spec 130 systolic), (Z.leb_spec systolic 139),
    (Z.leb_spec 80 diastolic), (Z.leb_spec diastolic 89),
    (Z.leb_spec 140 systolic), (Z.leb_spec 90 diastolic);
    cbn [andb orb bp_points]; lia.
Qed.

Lemma bp_score_by_ranges_witness :
  parse_blood_pressure (PStr "180/85") = Ok (Some 180, Some 85)
  /\ calculate_bp_risk (PStr "180/85") = Ok (2, None).
Proof.
  assert (parse_blood_pressure (PStr "180/85") = Ok (Some 180, Some 85)) as H
    by (vm_compute; reflexivity).
  split; [exact H|].
  destruct (bp_score_by_ranges _ _ _ H) as (score & Hs & _ & _ & H2 & _).
  rewrite Hs. do 2 f_equal. apply H2. right. lia.
Defined.

Lemma split_nonempty (c : ascii) (s : string) : split c s <> [].
Proof.
  destruct s as [|d s]; cbn [split]; [done|].
  destruct (Ascii.eqb c d); [done|]. by destruct (split c s).
Qed.

Lemma split_cons_inv (c : ascii) (s : string) :
  forall p ps,
    split c s = p :: ps ->
    contains c p = false
    /\ match ps with
       | [] => s = p
       | _ => exists rest, s = p +:+ String c rest /\ split c rest = ps
       end.
Proof.
  induction s as [|d s IH]; intros p ps; cbn [split].
  - by intros [= <- <-].
  - destruct (Ascii.eqb c d) eqn:Ecd.
    + intros [= <- <-]. apply Ascii.eqb_eq in Ecd as ->. split; [done|].
      pose proof (split_nonempty d s). destruct (split d s) eqn:E; [done|].
      exists s. by rewrite E.
    + destruct (split c s) as [|p' ps'] eqn:E; [by destruct (split_nonempty c s)|].
      intros [= <- <-]. destruct (IH p' ps' eq_refl) as [Hp Hps].
      split; [cbn [contains]; by rewrite Ecd, Hp|].
      destruct ps' as [|q qs]; [by rewrite Hps|].
      destruct Hps as (rest & -> & Hrest). by exists rest.
Qed.

(** A text is read as a blood pressure only if it has exactly one slash and
    each side, white space at its ends removed, is not empty and is an
    integer literal for [int]. *)
Theorem parse_blood_pressure_inv (text : string) (systolic diastolic : Z) :
  parse_blood_pressure (PStr text) = Ok (Some systolic, Some diastolic) ->
  exists a b,
    text = a +:+ String "/" b
    /\ contains "/" a = false /\ contains "/" b = false
    /\ strip a <> "" /\ int_of_string (strip a) = Some systolic
    /\ strip b <> "" /\ int_of_string (strip b) = Some diastolic.
Proof.
  unfold parse_blood_pressure.
  destruct (none_or_empty (PStr text)); [done|].
  rewrite py_str_writable by done. cbn [mbind result_bind text_of].
  destruct (str_in (upper text) BP_SENTINELS); [done|].
  destruct (negb (contains "/" text)); [done|].
  destruct (split "/" text) as [|a [|b [|x xs]]] eqn:E; try done.
  destruct (split_cons_inv _ _ _ _ E) as (Ha & rest & -> & Hrest).
  destruct (split_cons_inv _ _ _ _ Hrest) as (Hb & ->).
  unfold parse_bp_part.
  intros [= H1 H2]. exists a, b.
  destruct (strip a) eqn:Ea; [done|]. destruct (strip b) eqn:Eb; [done|].
  by repeat split.
Qed.

Lemma parse_blood_pressure_inv_witness :
  parse_blood_pressure (PStr " 120 /80") = Ok (Some 120, Some 80)
  /\ exists a b, " 120 /80" = a +:+ String "/" b
                 /\ int_of_string (strip a) = Some 120
                 /\ int_of_string (strip b) = Some 80.
Proof.
  assert (parse_blood_pressure (PStr " 120 /80") = Ok (Some 120, Some 80)) as H
    by (vm_compute; reflexivity).
  split; [exact H|].
  destruct (parse_blood_pressure_inv _ _ _ H)
    as (a & b & Ht & _ & _ & _ & Ha & _ & Hb).
  by exists a, b.
Defined.

Lemma contains_slash_str_of_int (z : Z) : contains "/" (str_of_int z) = false.
Proof.
  destruct z as [|p|p].
  - done.
  - apply contains_slash_digits, str_of_int_digits. lia.
  - change (str_of_int (Z.neg p)) with (String "-" (str_of_int (Z.pos p))).
    cbn [contains]. rewrite contains_slash_digits by (apply str_of_int_digits; lia).
    done.
Qed.

(** A blood pressure given as an integer, not a text, is never read: both
    sides are missing, the score is 0 and the issue is "Invalid BP: "
    followed by the number.  The integer is one that [str] writes. *)
Theorem bp_number_is_invalid (z : Z) :
  Z.abs z < 10 ^ Z.of_nat int_max_str_digits ->
  parse_blood_pressure (PInt z) = Ok (None, None)
  /\ calculate_bp_risk (PInt z)
     = Ok (0, Some ("Invalid BP: " +:+ str_of_int z)).
Proof.
  intros Hw%writable_PInt.
  assert (parse_blood_pressure (PInt z) = Ok (None, None)) as H.
  { unfold parse_blood_pressure. cbn [none_or_empty].
    rewrite py_str_writable by done. cbn [mbind result_bind text_of].
    rewrite contains_slash_str_of_int. by destruct (str_in _ _). }
  split; [done|]. unfold calculate_bp_risk.
  by rewrite H, py_str_writable.
Qed.

Lemma bp_number_is_invalid_witness :
  calculate_bp_risk (PInt 120) = Ok (0, Some "Invalid BP: 120").
Proof.
  refine (proj2 (bp_number_is_invalid 120 _)).
  apply Z.ltb_lt. vm_compute. reflexivity.
Defined.

(** White space around the numbers *)

Lemma space_char_facts (c : ascii) :
  isspace c = true ->
  is_digit c = false /\ Ascii.eqb "/" c = false /\ upper_char c = c
  /\ c <> "I"%char /\ c <> "N"%char.
Proof.
  destruct c as [[] [] [] [] [] [] [] []]; vm_compute; intuition congruence.
Qed.

Lemma lstrip_spaces (w s : string) :
  all_space w = true -> lstrip isspace (w +:+ s) = lstrip isspace s.
Proof.
  induction w as [|c w IH]; [done|]. cbn [all_space].
  intros [Hc Hw]%andb_true_iff.
  change (String c w +:+ s) with (String c (w +:+ s)).
  cbn [lstrip]. rewrite Hc. by apply IH.
Qed.

Lemma rstrip_only_spaces (w : string) :
  all_space w = true -> rstrip isspace w = "".
Proof.
  induction w as [|c w IH]; [done|]. cbn [all_space rstrip].
  intros [Hc Hw]%andb_true_iff. by rewrite IH, Hc.
Qed.

Lemma rstrip_spaces (s w : string) :
  all_space w = true -> rstrip isspace (s +:+ w) = rstrip isspace s.
Proof.
  intros Hw. induction s as [|c s IH].
  - change ("" +:+ w) with w. by rewrite rstrip_only_spaces.
  - change (String c s +:+ w) with (String c (s +:+ w)).
    cbn [rstrip]. by rewrite IH.
Qed.

Lemma strip_spaced_digits (w1 w2 s : string) :
  all_space w1 = true -> all_space w2 = true ->
  all_digits s = true -> s <> "" ->
  strip (w1 +:+ s +:+ w2) = s.
Proof.
  intros H1 H2 Hs Hne. unfold strip. rewrite lstrip_spaces by done.
  assert (forall c, is_digit c = true -> isspace c = false) as Hsp
    by (intros c Hc; by apply digit_char_facts).
  assert (lstrip isspace (s +:+ w2) = s +:+ w2) as ->.
  { destruct s as [|c s]; [done|].
    change (String c s +:+ w2) with (String c (s +:+ w2)). cbn [lstrip].
    cbn [all_digits] in Hs. apply andb_true_iff in Hs as [Hc _].
    by rewrite Hsp. }
  rewrite rstrip_spaces by done. by apply rstrip_digits.
Qed.

Lemma parse_bp_part_spaced (w1 w2 : string) (z : Z) :
  all_space w1 = true -> all_space w2 = true ->
  0 <= z < 10 ^ Z.of_nat int_max_str_digits ->
  parse_bp_part (w1 +:+ str_of_int z +:+ w2) = Some z.
Proof.
  intros H1 H2 Hz. unfold parse_bp_part.
  pose proof (str_of_int_nonempty z (proj1 Hz)).
  rewrite strip_spaced_digits
    by (done || apply str_of_int_digits, Hz).
  rewrite <- (int_of_str_of_int z Hz). by destruct (str_of_int z).
Qed.

Lemma contains_slash_app_false (a b : string) :
  contains "/" a = false -> contains "/" b = false ->
  contains "/" (a +:+ b) = false.
Proof.
  intros Ha Hb. induction a as [|c a IH]; [done|].
  change (String c a +:+ b) with (String c (a +:+ b)).
  cbn [contains] in *. apply orb_false_iff in Ha as [-> Ha].
  by rewrite IH.
Qed.

Lemma contains_slash_spaces (w : string) :
  all_space w = true -> contains "/" w = false.
Proof.
  induction w as [|c w IH]; [done|]. cbn [all_space contains].
  intros [Hc Hw]%andb_true_iff. rewrite IH by done.
  destruct (space_char_facts c Hc) as (_ & -> & _). done.
Qed.

Lemma split_one_slash (a b : string) :
  contains "/" a = false -> contains "/" b = false ->
  split "/" (a +:+ String "/" b) = [a; b].
Proof.
  intros Ha Hb. induction a as [|c a IH].
  - change ("" +:+ String "/" b) with (String "/" b). cbn [split].
    rewrite Ascii.eqb_refl. f_equal.
    clear Ha. induction b as [|d b IHb]; [done|].
    cbn [contains split] in *. apply orb_false_iff in Hb as [-> Hb].
    by rewrite IHb.
  - change (String c a +:+ String "/" b) with (String c (a +:+ String "/" b)).
    cbn [contains split] in *. apply orb_false_iff in Ha as [-> Ha].
    by rewrite IH.
Qed.

Lemma not_sentinel_first (c : ascii) (s : string) :
  upper_char c <> "I"%char -> upper_char c <> "N"%char ->
  str_in (upper (String c s)) BP_SENTINELS = false.
Proof.
  intros HI HN. apply not_true_is_false. unfold str_in.
  intros (x & Hin & Heq%String.eqb_eq)%existsb_exists.
  cbn [upper] in Heq. subst x.
  unfold BP_SENTINELS in Hin. simpl in Hin.
  repeat (destruct Hin as [[= Hc _] | Hin]; [by rewrite <- Hc in *|]).
  destruct Hin.
Qed.

(** White space before and after either number of a blood-pressure text
    changes nothing: the text parses to the same two numbers and gets the
    same score as the text without the white space.  The two numbers are
    within the limit on integer literals. *)
Theorem bp_text_tolerates_spaces (w1 w2 w3 w4 : string)
  (systolic diastolic : Z) :
  all_space w1 = true -> all_space w2 = true ->
  all_space w3 = true -> all_space w4 = true ->
  0 <= systolic < 10 ^ Z.of_nat int_max_str_digits ->
  0 <= diastolic < 10 ^ Z.of_nat int_max_str_digits ->
  parse_blood_pressure
    (PStr (spaced_bp_text w1 w2 w3 w4 systolic diastolic))
  = Ok (Some systolic, Some diastolic)
  /\ calculate_bp_risk
       (PStr (spaced_bp_text w1 w2 w3 w4 systolic diastolic))
     = calculate_bp_risk (PStr (bp_text systolic diastolic)).
Proof.
  intros H1 H2 H3 H4 Hsb Hdb.
  pose proof (proj1 Hsb) as Hs. pose proof (proj1 Hdb) as Hd.
  assert (parse_blood_pressure
            (PStr (spaced_bp_text w1 w2 w3 w4 systolic diastolic))
          = Ok (Some systolic, Some diastolic)) as Hp.
  { unfold parse_blood_pressure, spaced_bp_text.
    set (a := w1 +:+ str_of_int systolic +:+ w2).
    set (b := w3 +:+ str_of_int diastolic +:+ w4).
    change (a +:+ "/" +:+ b) with (a +:+ String "/" b).
    assert (contains "/" a = false) as Ha.
    { apply contains_slash_app_false; [by apply contains_slash_spaces|].
      apply contains_slash_app_false; [apply contains_slash_str_of_int|].
      by apply contains_slash_spaces. }
    assert (contains "/" b = false) as Hb.
    { apply contains_slash_app_false; [by apply contains_slash_spaces|].
      apply contains_slash_app_false; [apply contains_slash_str_of_int|].
      by apply contains_slash_spaces. }
    assert (exists c r, a = String c r
                        /\ (isspace c = true \/ is_digit c = true))
      as (c & r & Ea & Hc).
    { subst a. destruct w1 as [|c w1].
      - pose proof (str_of_int_digits systolic Hs) as Hdig.
        pose proof (str_of_int_nonempty systolic Hs) as Hne.
        destruct (str_of_int systolic) as [|c r]; [done|].
        exists c, (r +:+ w2). split; [done|]. right.
        by apply andb_true_iff in Hdig as [? _].
      - exists c, (w1 +:+ str_of_int systolic +:+ w2). split; [done|]. left.
        by apply andb_true_iff in H1 as [? _]. }
    assert (none_or_empty (PStr (a +:+ String "/" b)) = false) as ->
      by by rewrite Ea.
    rewrite py_str_writable by done. cbn [mbind result_bind text_of].
    assert (str_in (upper (a +:+ String "/" b)) BP_SENTINELS = false) as ->.
    { rewrite Ea. apply (not_sentinel_first c (r +:+ String "/" b)).
      - destruct Hc as [Hc | Hc].
        + destruct (space_char_facts c Hc) as (_ & _ & -> & ? & _). done.
        + destruct (digit_char_facts c Hc) as (_ & _ & -> & _).
          intros ->. by vm_compute in Hc.
      - destruct Hc as [Hc | Hc].
        + destruct (space_char_facts c Hc) as (_ & _ & -> & _ & ?). done.
        + destruct (digit_char_facts c Hc) as (_ & _ & -> & _).
          intros ->. by vm_compute in Hc. }
    rewrite contains_slash_app. cbn [negb].
    rewrite split_one_slash by done. subst a b.
    by rewrite !parse_bp_part_spaced. }
  split; [done|]. unfold calculate_bp_risk.
  by rewrite Hp, parse_blood_pressure_text.
Qed.

Lemma bp_text_tolerates_spaces_witness :
  calculate_bp_risk (PStr (spaced_bp_text " " "  " "" " " 150 95))
  = calculate_bp_risk (PStr (bp_text 150 95)).
Proof.
  refine (proj2 (bp_text_tolerates_spaces " " "  " "" " " 150 95
                   eq_refl eq_refl eq_refl eq_refl _ _));
    (split; [lia | apply Z.ltb_lt; vm_compute; reflexivity]).
Defined.

(** ** Temperature given as a text *)

Lemma literal_space_upper (c : ascii) :
  literal_space c = literal_space (upper_char c).
Proof. destruct c as [[] [] [] [] [] [] [] []]; vm_compute; reflexivity. Qed.

Lemma no_literal_space_upper (s : string) :
  no_literal_space (upper s) = no_literal_space s.
Proof.
  induction s as [|c s IH]; [done|]. cbn [upper no_literal_space].
  by rewrite IH, <- literal_space_upper.
Qed.

Lemma literal_strip_no_space (s : string) :
  no_literal_space s = true -> literal_strip s = s.
Proof.
  intros Hs. unfold literal_strip.
  assert (lstrip literal_space s = s) as ->.
  { destruct s as [|c s]; [done|]. cbn [lstrip no_literal_space] in *.
    apply andb_true_iff in Hs as [Hc _]. by destruct (literal_space c). }
  induction s as [|c s IH]; [done|]. cbn [rstrip no_literal_space] in *.
  apply andb_true_iff in Hs as [Hc Hs]. rewrite IH by done.
  destruct (literal_space c); [done|]. by destruct s.
Qed.

Lemma sentinel_first_char (c : ascii) :
  upper_char c = "T"%char \/ upper_char c = "I"%char \/ upper_char c = "N"%char ->
  is_digit c = false /\ Ascii.eqb c "_" = false /\ Ascii.eqb c "." = false
  /\ Ascii.eqb c "+" = false /\ Ascii.eqb c "-" = false.
Proof.
  destruct c as [[] [] [] [] [] [] [] []]; vm_compute; intuition congruence.
Qed.

(** No sentinel text, in any letter case, is a literal for [float]. *)
Lemma sentinel_is_no_float (s : string) :
  str_in (upper s) TEMP_SENTINELS = true -> float_of_string s = None.
Proof.
  unfold str_in. intros (t & Hin & Heq%String.eqb_eq)%existsb_exists.
  assert (no_literal_space t = true
          /\ str_in t ["INF"; "INFINITY"] = false
          /\ String.eqb t "NAN" = false
          /\ exists d r, t = String d r
               /\ (d = "T"%char \/ d = "I"%char \/ d = "N"%char))
    as (Hsp & Hinf & Hnan & d & r & Et & Hd).
  { unfold TEMP_SENTINELS in Hin. simpl in Hin.
    repeat (destruct Hin as [<- | Hin];
            [repeat split; try reflexivity;
             eexists _, _; split; [reflexivity|]; auto|]).
    destruct Hin. }
  subst t. rewrite no_literal_space_upper in Hsp.
  unfold float_of_string. rewrite literal_strip_no_space by done.
  destruct s as [|c s]; [done|].
  cbn [upper] in Et. injection Et as Hc Hr.
  destruct (sentinel_first_char c) as (Hdig & Hus & Hdot & -> & ->);
    [by rewrite Hc|].
  unfold unsigned_float_of_string. rewrite Hinf, Hnan.
  cbn [read_digits]. rewrite Hdig, Hus. cbn [mbind option_bind].
  by rewrite Hdot.
Qed.

(** A value that [float] reads is scored by the cascade on that float, and
    without an issue. *)
Lemma calculate_temp_risk_of_float (temp : pyvalue) (f : float) :
  py_float temp = Ok f ->
  calculate_temp_risk temp = Ok (temp_cascade f, None).
Proof.
  intros Ef. unfold calculate_temp_risk, temp_risk_of_number.
  destruct temp as [|z|g|s]; cbn [py_float none_or_empty] in *.
  - done.
  - by rewrite Ef.
  - by injection Ef as ->.
  - destruct (float_of_string s) as [g|] eqn:Eg; [|done]. injection Ef as ->.
    destruct s as [|c s]; [done|].
    destruct (str_in (upper (String c s)) TEMP_SENTINELS) eqn:Es; [|done].
    apply sentinel_is_no_float in Es. congruence.
Qed.

(** The list of sentinel texts changes no result: a temperature text is
    scored, by the cascade and without an issue, exactly when [float] reads
    it, and is reported as missing (the empty text) or invalid otherwise. *)
Theorem temp_text_scored_iff_float_reads_it (s : string) :
  calculate_temp_risk (PStr s)
  = match float_of_string s with
    | Some f => Ok (temp_cascade f, None)
    | None =>
        Ok (0, Some (if String.eqb s "" then "Missing temperature"
                     else "Invalid temperature: " +:+ s))
    end.
Proof.
  destruct (float_of_string s) as [f|] eqn:Ef.
  - apply calculate_temp_risk_of_float. cbn [py_float]. by rewrite Ef.
  - unfold calculate_temp_risk. destruct s as [|c s]; [done|].
    cbn [none_or_empty String.eqb]. rewrite Ef.
    by destruct (str_in _ _).
Qed.

Lemma nan_compares_false (f g : float) :
  is_nan f = true -> PrimFloat.leb f g = false /\ PrimFloat.leb g f = false.
Proof.
  unfold is_nan. rewrite !leb_spec.
  destruct (Prim2SF f) as [[]|[]| |[] m e]; try done. intros _.
  by destruct (Prim2SF g) as [[]|[]| |[] m e].
Qed.

(** A temperature that reads as not-a-number, such as the text "NaN", gets
    the highest temperature score, 2, without an issue, and yet does not
    pass the fever test. *)
Theorem nan_temperature_scores_two (temp : pyvalue) (f : float) :
  py_float temp = Ok f -> is_nan f = true ->
  calculate_temp_risk temp = Ok (2, None) /\ raw_fever temp = false.
Proof.
  intros Ef Hn. split.
  - rewrite (calculate_temp_risk_of_float temp f Ef). unfold temp_cascade.
    destruct (nan_compares_false f 99.5 Hn) as [-> _].
    by destruct (nan_compares_false f 99.6 Hn) as [_ ->].
  - unfold raw_fever. rewrite Ef.
    by destruct (nan_compares_false f 99.6 Hn) as [_ ->].
Qed.

Lemma nan_temperature_scores_two_witness :
  calculate_temp_risk (PStr "NaN") = Ok (2, None)
  /\ raw_fever (PStr "NaN") = false.
Proof.
  apply (nan_temperature_scores_two (PStr "NaN") nan); vm_compute; reflexivity.
Defined.

(** A temperature that passes the fever test of [process_patients] is one
    that [calculate_temp_risk] scores 1 or 2, without an issue: the two
    readings of the raw value agree on every fever. *)
Theorem fever_implies_temperature_scored (temp : pyvalue) :
  raw_fever temp = true ->
  exists f score,
    py_float temp = Ok f
    /\ calculate_temp_risk temp = Ok (score, None)
    /\ 1 <= score <= 2.
Proof.
  unfold raw_fever. destruct (py_float temp) as [f|e] eqn:Ef; [|done].
  intros Hge. exists f, (temp_cascade f). split; [done|].
  split; [by apply calculate_temp_risk_of_float|].
  unfold temp_cascade. rewrite (at_least_996 f Hge).
  destruct (PrimFloat.leb 99.6 f && PrimFloat.leb f 100.9); lia.
Qed.

Lemma fever_implies_temperature_scored_witness :
  raw_fever (PStr " 100.4 ") = true
  /\ calculate_temp_risk (PStr " 100.4 ") = Ok (1, None).
Proof.
  assert (raw_fever (PStr " 100.4 ") = true) as H by (vm_compute; reflexivity).
  split; [exact H|].
  destruct (fever_implies_temperature_scored _ H) as (f & score & _ & Hs & _).
  rewrite Hs. vm_compute in Hs. by injection Hs as <-.
Defined.

(** ** The issues of a record *)

Lemma calculate_bp_risk_issue (raw : pyvalue) (score : Z)
  (issue : option string) :
  calculate_bp_risk raw = Ok (score, issue) ->
  option_list issue = bp_issues raw.
Proof.
  unfold calculate_bp_risk, bp_issues, py_str.
  destruct (parse_blood_pressure raw) as [[[s|] [d|]]|e];
    cbn [mbind result_bind]; [by intros [= <- <-]| | | |done];
    (destruct (writable raw); [|done]); by intros [= <- <-].
Qed.

Lemma calculate_temp_risk_issue (raw : pyvalue) (score : Z)
  (issue : option string) :
  calculate_temp_risk raw = Ok (score, issue) ->
  option_list issue = temperature_issues raw.
Proof.
  unfold temperature_issues.
  destruct (py_float raw) as [f|e] eqn:Ef.
  - rewrite (calculate_temp_risk_of_float raw f Ef). intros [= <- <-].
    by destruct raw as [| | |[|c s]].
  - unfold calculate_temp_risk, temp_risk_of_number.
    destruct raw as [|z|f|s]; cbn [none_or_empty py_float] in *.
    + by intros [= <- <-].
    + rewrite Ef. destruct e; [by invalid_case..|done].
    + done.
    + destruct s as [|c s]; [by intros [= <- <-]|].
      destruct (float_of_string (String c s)); [done|].
      destruct (str_in _ _); by invalid_case.
Qed.

Lemma calculate_age_risk_issue (raw : pyvalue) (score : Z)
  (issue : option string) :
  calculate_age_risk raw = Ok (score, issue) ->
  option_list issue = age_issues raw.
Proof.
  unfold calculate_age_risk, age_risk_of_number, age_issues.
  destruct raw as [|z|f|s]; cbn [none_or_empty py_int].
  - by intros [= <- <-].
  - by intros [= <- <-].
  - destruct (int_of_float f) as [t|[]]; by invalid_case.
  - destruct s as [|c s]; [by intros [= <- <-]|].
    destruct (isdigit (String c s)); cbn [negb]; [|by invalid_case].
    destruct (int_of_string (String c s)) as [t|]; by invalid_case.
Qed.

(** The issues of a score are one text for each vital that is missing or
    unreadable, in the order blood pressure, temperature, age: a blood
    pressure whose two sides do not both parse, a temperature that is
    missing or that [float] refuses, an age that is missing, a text not made
    of digits that [int] reads, or a number that [int] refuses.  The flag
    [has_data_issues] is set exactly when there is such a vital. *)
Theorem issues_of_invalid_vitals (patient : gmap string pyvalue)
  (risk : RiskScore) :
  calculate_risk_score patient = Ok risk ->
  issues risk
  = bp_issues (get patient "blood_pressure")
    ++ temperature_issues (get patient "temperature")
    ++ age_issues (get patient "age")
  /\ (has_data_issues risk = true <->
      bp_issues (get patient "blood_pressure")
      ++ temperature_issues (get patient "temperature")
      ++ age_issues (get patient "age") <> []).
Proof.
  intros Hr.
  apply calculate_risk_score_ok in Hr
    as ([b bi] & [t ti] & [a ai] & Hb & Ht & Ha & ->).
  destruct (calculate_bp_risk_spec _ _ _ Hb) as (_ & Hb2 & _).
  destruct (calculate_temp_risk_spec _ _ _ Ht) as (_ & Ht2 & _).
  destruct (calculate_age_risk_spec _ _ _ Ha) as (_ & Ha2 & _).
  destruct (assemble_spec (b, bi) (t, ti) (a, ai) Hb2 Ht2 Ha2)
    as (_ & _ & _ & _ & Hi & Hh).
  cbn [fst snd] in Hi.
  rewrite (calculate_bp_risk_issue _ _ _ Hb),
    (calculate_temp_risk_issue _ _ _ Ht),
    (calculate_age_risk_issue _ _ _ Ha) in Hi.
  split; [done|].
  by rewrite Hh, negb_true_iff, bool_decide_eq_false, Hi.
Qed.

Lemma issues_of_invalid_vitals_witness :
  calculate_risk_score
    (record "P7" (PStr "120/") (PStr "TEMP_ERROR") (PStr "45.0"))
  = Ok {| bp_score := 0; temp_score := 0; age_score := 0; total_score := 0;
          has_data_issues := true;
          issues := ["Invalid BP: 120/"; "Invalid temperature: TEMP_ERROR";
                     "Invalid age: 45.0"] |}
  /\ bp_issues (PStr "120/") ++ temperature_issues (PStr "TEMP_ERROR")
     ++ age_issues (PStr "45.0")
     = ["Invalid BP: 120/"; "Invalid temperature: TEMP_ERROR";
        "Invalid age: 45.0"].
Proof.
  assert (calculate_risk_score
            (record "P7" (PStr "120/") (PStr "TEMP_ERROR") (PStr "45.0"))
          = Ok {| bp_score := 0; temp_score := 0; age_score := 0;
                  total_score := 0; has_data_issues := true;
                  issues := ["Invalid BP: 120/";
                             "Invalid temperature: TEMP_ERROR";
                             "Invalid age: 45.0"] |}) as H
    by (vm_compute; reflexivity).
  split; [exact H|].
  symmetry. exact (proj1 (issues_of_invalid_vitals _ _ H)).
Defined.

(** ** The total *)

(** The total is at most 7, and no single vital makes a record high-risk:
    a total of 4 or more has at least two sub-scores that are not 0. *)
Theorem high_risk_needs_two_vitals (patient : gmap string pyvalue)
  (risk : RiskScore) :
  calculate_risk_score patient = Ok risk ->
  0 <= total_score risk <= 7
  /\ (4 <= total_score risk ->
      (1 <= bp_score risk /\ 1 <= temp_score risk)
      \/ (1 <= bp_score risk /\ 1 <= age_score risk)
      \/ (1 <= temp_score risk /\ 1 <= age_score risk)).
Proof.
  intros ([b bi] & [t ti] & [a ai] & Hb & Ht & Ha & ->)%calculate_risk_score_ok.
  destruct (calculate_bp_risk_spec _ _ _ Hb) as (Hb1 & Hb2 & _).
  destruct (calculate_temp_risk_spec _ _ _ Ht) as (Ht1 & Ht2 & _).
  destruct (calculate_age_risk_spec _ _ _ Ha) as (Ha1 & Ha2 & _).
  destruct (assemble_spec (b, bi) (t, ti) (a, ai) Hb2 Ht2 Ha2)
    as (-> & -> & -> & -> & _).
  cbn [fst snd]. lia.
Qed.

Lemma high_risk_needs_two_vitals_witness :
  calculate_risk_score severe_patient
  = Ok {| bp_score := 3; temp_score := 2; age_score := 2; total_score := 7;
          has_data_issues := false; issues := [] |}
  /\ 0 <= 7 <= 7.
Proof.
  assert (calculate_risk_score severe_patient
          = Ok {| bp_score := 3; temp_score := 2; age_score := 2;
                  total_score := 7; has_data_issues := false;
                  issues := [] |}) as H by (vm_compute; reflexivity).
  split; [exact H|].
  exact (proj1 (high_risk_needs_two_vitals _ _ H)).
Defined.

(** * Further properties of the cohorts *)

(** ** What [sorted] and [process_patients] raise *)

Lemma insort_raises (x : pyvalue) (l : list pyvalue) (e : exn) :
  insort x l = Raise e -> e = TypeError.
Proof.
  induction l as [|y l IH]; cbn [insort]; [done|].
  destruct (py_lt y x) as [[]|e'] eqn:E; cbn [mbind result_bind].
  - destruct (insort x l) as [r|e'']; cbn [mbind result_bind]; [done|].
    intros [= <-]. by apply IH.
  - done.
  - intros [= <-]. destruct y, x; cbn in E; congruence.
Qed.

Lemma sorted_raises (l : list pyvalue) (e : exn) :
  sorted l = Raise e -> e = TypeError.
Proof.
  induction l as [|x l IH]; cbn [sorted]; [done|].
  destruct (sorted l) as [s|e']; cbn [mbind result_bind].
  - apply insort_raises.
  - intros [= <-]. by apply IH.
Qed.

Lemma insort_null (l : list pyvalue) :
  l <> [] -> insort PNone l = Raise TypeError.
Proof. by destruct l as [|[] l]. Qed.

(** [sorted] raises [TypeError] on every list of two or more values one of
    which is [None]. *)
Lemma sorted_null_raises (l : list pyvalue) :
  PNone ∈ l -> (2 <= length l)%nat -> sorted l = Raise TypeError.
Proof.
  induction l as [|x l IH]; [by intros ?%elem_of_nil|].
  intros Hin Hlen. cbn [length] in Hlen. cbn [sorted].
  destruct (sorted l) as [s|e] eqn:Es; cbn [mbind result_bind].
  - apply sorted_Permutation in Es as Hperm.
    apply elem_of_cons in Hin as [<- | Hin].
    + apply insort_null. intros ->. apply Permutation_nil in Hperm.
      subst l. cbn in Hlen. lia.
    + destruct l as [|y [|z l]].
      * by apply elem_of_nil in Hin.
      * apply list_elem_of_singleton in Hin as <-.
        cbn in Es. by injection Es as <-.
      * assert (Ok s = Raise TypeError) as Hr
          by (apply IH; [done | cbn [length]; lia]).
        discriminate Hr.
  - f_equal. by apply sorted_raises in Es.
Qed.

(** A record whose [patient_id] is null keeps [None] as its identifier (the
    substitute "UNKNOWN" is for an absent key only); when such a record
    qualifies for a list together with any other record, sorting that list
    raises [TypeError] and [process_patients] returns nothing. *)
Theorem null_id_breaks_sorting (patients : list (gmap string pyvalue)) :
  Forall scorable patients ->
  (PNone ∈ cohort scores_high patients
   /\ (2 <= length (cohort scores_high patients))%nat)
  \/ (PNone ∈ cohort (fun p => raw_fever (get p "temperature")) patients
      /\ (2 <= length (cohort (fun p => raw_fever (get p "temperature"))
                         patients))%nat)
  \/ (PNone ∈ cohort flagged patients
      /\ (2 <= length (cohort flagged patients))%nat) ->
  process_patients patients = Raise TypeError.
Proof.
  intros Hall Hnull.
  destruct (process_patients patients) as [res|e] eqn:E.
  - apply process_patients_spec in E as (_ & Hh & Hf & Hd & _).
    destruct Hnull as [[Hin Hlen] | [[Hin Hlen] | [Hin Hlen]]];
      rewrite sorted_null_raises in * by done; done.
  - f_equal. revert E. unfold process_patients.
    assert (for_each classify
              {| high_risk := []; fever := []; data_quality := [] |} patients
            = Ok (tally_all
                    {| high_risk := []; fever := []; data_quality := [] |}
                    patients)) as -> by by apply for_each_classify.
    cbn [mbind result_bind tally_all high_risk fever data_quality app].
    destruct (sorted (cohort scores_high patients)) as [h|e1] eqn:E1;
      cbn [mbind result_bind];
      [|intros [= <-]; by apply sorted_raises in E1].
    destruct (sorted (cohort (fun p => raw_fever (get p "temperature"))
                        patients)) as [f|e2] eqn:E2;
      cbn [mbind result_bind];
      [|intros [= <-]; by apply sorted_raises in E2].
    destruct (sorted (cohort flagged patients)) as [d|e3] eqn:E3;
      cbn [mbind result_bind];
      [done|intros [= <-]; by apply sorted_raises in E3].
Qed.

Lemma null_id_breaks_sorting_witness :
  process_patients
    [<["patient_id" := PNone]> severe_patient; severe_patient]
  = Raise TypeError.
Proof.
  apply null_id_breaks_sorting.
  - repeat constructor; eexists; vm_compute; reflexivity.
  - left. split; [vm_compute|vm_compute; lia].
    apply list_elem_of_here.
Defined.

(** ** One record that cannot be scored aborts the batch *)

(** The loop stops at the first record on which [calculate_risk_score]
    raises, with the exception of that record. *)
Lemma for_each_classify_raises (patients : list (gmap string pyvalue)) :
  forall t e,
    for_each classify t patients = Raise e ->
    exists before q after,
      patients = before ++ q :: after
      /\ Forall scorable before
      /\ calculate_risk_score q = Raise e.
Proof.
  induction patients as [|p l IH]; intros t e; cbn [for_each]; [done|].
  pose proof (classify_spec t p) as Hc.
  destruct (calculate_risk_score p) as [risk|e'] eqn:Er; rewrite Hc;
    cbn [mbind result_bind].
  - intros (before & q & after & -> & Hb & Hq)%IH.
    exists (p :: before), q, after. split; [done|]. split; [|done].
    constructor; [by exists risk | done].
  - intros [= <-]. exists [], p, l. by repeat split.
Qed.

Lemma process_patients_unscorable (patients : list (gmap string pyvalue)) :
  ~ Forall scorable patients ->
  exists before q after e,
    patients = before ++ q :: after
    /\ Forall scorable before
    /\ calculate_risk_score q = Raise e
    /\ process_patients patients = Raise e.
Proof.
  intros Hp. unfold process_patients.
  destruct (for_each classify _ patients) as [t|e] eqn:E.
  - apply for_each_classify in E as [Hall _]. by destruct Hp.
  - cbn [mbind result_bind].
    apply for_each_classify_raises in E as (before & q & after & ? & ? & ?).
    by exists before, q, after, e.
Qed.

(** Records as [json] decodes them: it refuses an integer of more digits
    than the limit, so none of their integers is beyond it. *)
Lemma decoded_writable_bp (patient : gmap string pyvalue) :
  decoded patient -> ~ unwritable_bp patient.
Proof.
  intros Hd (z & Hz & Hw). apply unwritable_PInt in Hw.
  unfold get in Hz.
  destruct (patient !! "blood_pressure") as [v|] eqn:E; [|done].
  cbn in Hz. subst v. specialize (Hd _ _ E). lia.
Qed.

Lemma process_patients_unscorable_decoded
  (patients : list (gmap string pyvalue)) :
  Forall decoded patients -> ~ Forall scorable patients ->
  process_patients patients = Raise OverflowError.
Proof.
  intros Hd (before & q & after & e & -> & _ & Hq & ->)%process_patients_unscorable.
  f_equal. apply calculate_risk_score_Raise in Hq as [[_ Hu] | [-> _]]; [|done].
  exfalso. revert Hu. apply decoded_writable_bp.
  rewrite Forall_app, Forall_cons in Hd. by destruct Hd as (_ & ? & _).
Qed.

(** One record on which [calculate_risk_score] raises makes
    [process_patients] raise for the whole list, wherever the record stands:
    no list is returned for the other records.  The exception is that of the
    first such record, [ValueError] or [OverflowError]; it is
    [OverflowError] when the records are decoded by [json], which gives no
    integer beyond the digit limit. *)
Theorem unscorable_record_aborts_batch
  (patients : list (gmap string pyvalue)) (p : gmap string pyvalue) :
  p ∈ patients -> ~ scorable p ->
  exists before q after e,
    patients = before ++ q :: after
    /\ Forall scorable before
    /\ calculate_risk_score q = Raise e
    /\ process_patients patients = Raise e
    /\ (e = ValueError \/ e = OverflowError)
    /\ (Forall decoded patients -> e = OverflowError).
Proof.
  intros Hin Hp.
  assert (~ Forall scorable patients) as Hn.
  { rewrite Forall_forall. intros Hall. by apply Hp, Hall. }
  destruct (process_patients_unscorable patients Hn)
    as (before & q & after & e & H1 & H2 & H3 & H4).
  exists before, q, after, e. do 4 (split; [done|]).
  split; [by apply calculate_risk_score_raises in H3|].
  intros Hd. pose proof (process_patients_unscorable_decoded _ Hd Hn).
  congruence.
Qed.

Lemma unscorable_record_aborts_batch_witness :
  exists before q after e,
    [severe_patient;
     record "P9" (PStr "120/80") (PFloat 98.6) (PFloat infinity)]
    = before ++ q :: after
    /\ Forall scorable before
    /\ calculate_risk_score q = Raise e
    /\ process_patients
         [severe_patient;
          record "P9" (PStr "120/80") (PFloat 98.6) (PFloat infinity)]
       = Raise e
    /\ (e = ValueError \/ e = OverflowError)
    /\ (Forall decoded
          [severe_patient;
           record "P9" (PStr "120/80") (PFloat 98.6) (PFloat infinity)] ->
        e = OverflowError).
Proof.
  apply (unscorable_record_aborts_batch _
           (record "P9" (PStr "120/80") (PFloat 98.6) (PFloat infinity))).
  - apply list_elem_of_further, list_elem_of_here.
  - intros [risk Hr]. vm_compute in Hr. discriminate Hr.
Defined.

(** ** Sizes *)

Lemma length_cohort (member : gmap string pyvalue -> bool)
  (patients : list (gmap string pyvalue)) :
  (length (cohort member patients) <= length patients)%nat.
Proof.
  unfold cohort. rewrite length_fmap. apply length_filter.
Qed.

(** [total_patients] counts the input records, qualifying or not; no
    returned list is longer than the input, and every identifier in a
    returned list is the identifier of an input record. *)
Theorem cohort_sizes (patients : list (gmap string pyvalue)) (res : Cohorts) :
  process_patients patients = Ok res ->
  total_patients res = length patients
  /\ (length (high_risk_patients res) <= length patients)%nat
  /\ (length (fever_patients res) <= length patients)%nat
  /\ (length (data_quality_issues res) <= length patients)%nat
  /\ (forall pid,
        pid ∈ high_risk_patients res \/ pid ∈ fever_patients res
        \/ pid ∈ data_quality_issues res ->
        exists p, p ∈ patients /\ patient_id_of p = pid).
Proof.
  intros (_ & Hh%sorted_Permutation & Hf%sorted_Permutation
          & Hd%sorted_Permutation & Hn)%process_patients_spec.
  split; [done|]. rewrite Hh, Hf, Hd.
  do 3 (split; [apply length_cohort|]).
  intros pid [Hin | [Hin | Hin]];
    rewrite ?Hh, ?Hf, ?Hd in Hin; apply elem_of_cohort in Hin;
    destruct Hin as (p & Hp & Hid & _); eauto.
Qed.

Lemma cohort_sizes_witness :
  process_patients [severe_patient; ∅]
  = Ok {| high_risk_patients := [PStr "P1"];
          fever_patients := [PStr "P1"];
          data_quality_issues := [PStr "UNKNOWN"]; total_patients := 2 |}
  /\ (length [PStr "P1"] <= length [severe_patient; ∅])%nat.
Proof.
  assert (process_patients [severe_patient; ∅]
          = Ok {| high_risk_patients := [PStr "P1"];
                  fever_patients := [PStr "P1"];
                  data_quality_issues := [PStr "UNKNOWN"];
                  total_patients := 2 |}) as H
    by (vm_compute; reflexivity).
  split; [exact H|].
  exact (proj1 (proj2 (cohort_sizes _ _ H))).
Defined.

(** * Further properties of the fetcher *)

Lemma wait_times :
  wait_time <$> seq 0 MAX_RETRIES = [1; 2; 4; 8; 16]%float.
Proof. reflexivity. Qed.

Section MoreFetcherProperties.

Variable source : list event -> Z -> Z -> response.

Lemma requests_failed_attempts (page limit : Z) (n : nat) :
  forall start tr,
    requests (failed_attempts page limit n start tr) = (requests tr + n)%nat.
Proof.
  unfold requests.
  induction n as [|n IH]; intros start tr; cbn [failed_attempts]; [lia|].
  rewrite IH, !List.filter_app, !length_app. cbn. lia.
Qed.

(** A page that fails in the transient way [k] times, [k] below
    [MAX_RETRIES], and then answers 200 is returned with its body: the
    failures cost [k] requests, each followed by a pause, the pauses being
    1, 2, 4, 8 and 16 seconds in this order, and one more request gets the
    page. *)
Theorem retry_until_success (k : nat) (page limit : Z) (tr : list event)
  (json : body) :
  (k < MAX_RETRIES)%nat ->
  attempts_fail source page limit k 0 tr ->
  source (failed_attempts page limit k 0 tr) page limit = Response 200 json ->
  fetch_patients_with_retry source page limit tr
  = (Some json, failed_attempts page limit k 0 tr ++ [Get page limit])
  /\ requests (failed_attempts page limit k 0 tr ++ [Get page limit])
     = (requests tr + k + 1)%nat
  /\ wait_time <$> seq 0 MAX_RETRIES = [1; 2; 4; 8; 16]%float.
Proof.
  intros Hk Hfail Hok. split; [by apply retry_loop_success|].
  split; [|exact wait_times].
  pose proof (requests_failed_attempts page limit k 0 tr) as H.
  unfold requests in *. rewrite List.filter_app, length_app, H. cbn. lia.
Qed.

(** When every one of the [MAX_RETRIES] attempts at a page fails in the
    transient way, the page is given up after five requests and five
    pauses of 1, 2, 4, 8 and 16 seconds, the last pause coming after the
    last attempt. *)
Theorem retries_exhausted (page limit : Z) (tr : list event) :
  attempts_fail source page limit MAX_RETRIES 0 tr ->
  fetch_patients_with_retry source page limit tr
  = (None,
     tr ++ [Get page limit; Sleep 1; Get page limit; Sleep 2;
            Get page limit; Sleep 4; Get page limit; Sleep 8;
            Get page limit; Sleep 16]).
Proof.
  intros Hfail. unfold fetch_patients_with_retry.
  rewrite retry_loop_exhausted by done.
  cbn [failed_attempts MAX_RETRIES]. by rewrite <- !app_assoc.
Qed.
Lemma retry_loop_bounded (remaining : nat) :
  forall attempt page limit tr r tr',
    retry_loop source remaining attempt page limit tr = (r, tr') ->
    exists evs,
      tr' = tr ++ evs /\ Forall (about_page page limit) evs
      /\ (requests evs <= remaining)%nat
      /\ (length evs <= 2 * remaining)%nat.
Proof.
  induction remaining as [|remaining IH]; intros attempt page limit tr r tr'.
  - intros [= <- <-]. exists []. rewrite app_nil_r.
    repeat split; try done; auto.
  - cbn [retry_loop].
    assert (about_page page limit (Get page limit)) as Hg by by left.
    assert (forall s, about_page page limit (Sleep s)) as Hs
      by (intros s; right; eauto).
    assert (forall r tr',
              retry_loop source remaining (S attempt) page limit
                ((tr ++ [Get page limit]) ++ [Sleep (wait_time attempt)])
              = (r, tr') ->
              exists evs,
                tr' = tr ++ evs /\ Forall (about_page page limit) evs
                /\ (requests evs <= S remaining)%nat
                /\ (length evs <= 2 * S remaining)%nat)
      as Hback.
    { intros r0 tr0 (evs & -> & Hevs & Hreq & Hlen)%IH.
      exists ([Get page limit] ++ [Sleep (wait_time attempt)] ++ evs).
      split; [by rewrite <- !app_assoc|].
      split; [cbn; constructor; [exact Hg|]; constructor; [apply Hs|exact Hevs]|].
      split; [unfold requests in *; cbn; lia|]. cbn; lia. }
    assert (exists evs,
              tr ++ [Get page limit] = tr ++ evs
              /\ Forall (about_page page limit) evs
              /\ (requests evs <= S remaining)%nat
              /\ (length evs <= 2 * S remaining)%nat) as Hone.
    { exists [Get page limit]. split; [done|].
      split; [constructor; [exact Hg|constructor]|].
      split; [unfold requests; cbn; lia|]. cbn; lia. }
    destruct (source tr page limit) as [status_code json|]; [|apply Hback].
    destruct (status_code =? 200); [by intros [= <- <-]|].
    destruct (transient status_code); [apply Hback|].
    by intros [= <- <-].
Qed.

(** Whatever the service answers, one call of [fetch_patients_with_retry]
    only adds to the trace, nothing but requests for its own page and
    pauses, with at most [MAX_RETRIES] requests and at most twice as many
    events. *)
Theorem retry_bounded (page limit : Z) (tr tr' : list event)
  (r : option body) :
  fetch_patients_with_retry source page limit tr = (r, tr') ->
  exists evs,
    tr' = tr ++ evs
    /\ Forall (about_page page limit) evs
    /\ (requests evs <= MAX_RETRIES)%nat
    /\ (length evs <= 2 * MAX_RETRIES)%nat.
Proof. apply retry_loop_bounded. Qed.

(** After [n] pages that each held records and announced a next page, the
    loop stops at the first page that does not announce a next page, holds
    no record or has no [data] entry: the result is the records of all the
    pages up to that one, in page order, and no further request is made. *)
Theorem fetch_stops_on_last_page (n : nat) (tr tr' : list event)
  (all : list (gmap string pyvalue)) (b : body) :
  pages_fetched source n tr all ->
  fetch_patients_with_retry source (Z.of_nat n + 1) 10 tr = (Some b, tr') ->
  has_next b = false \/ data b = None \/ data b = Some [] ->
  forall fuel, (n < fuel)%nat ->
    fetch_all_patients source fuel
    = Some (all ++ default [] (data b), tr').
Proof.
  intros Hn Hf Hstop fuel Hfuel.
  replace fuel with (n + S (fuel - n - 1))%nat by lia.
  rewrite (fetch_loop_resume source n tr all Hn). cbn [fetch_loop].
  rewrite Hf.
  destruct (data b) as [[|p ps]|]; cbn [default]; rewrite ?app_nil_r;
    try done.
  by destruct Hstop as [-> | [[=] | [=]]].
Qed.

(** The loop has no bound of its own on the number of pages: against a
    service whose every page holds records and announces a next page it
    never reaches a [break], however many turns it is given. *)
Theorem fetch_has_no_page_cap :
  (forall tr page limit,
      exists b patients,
        source tr page limit = Response 200 b
        /\ data b = Some patients /\ patients <> []
        /\ has_next b = true) ->
  forall fuel all page tr, fetch_loop source fuel all page tr = None.
Proof.
  intros Hsrc. induction fuel as [|fuel IH]; intros all page tr; [done|].
  cbn [fetch_loop]. unfold fetch_patients_with_retry.
  destruct (Hsrc tr page 10) as (b & patients & Hr & Hd & Hne & Hx).
  cbn [retry_loop MAX_RETRIES]. rewrite Hr. cbn [Z.eqb Pos.eqb].
  rewrite Hd, Hx. destruct patients as [|p ps]; [done|]. apply IH.
Qed.

End MoreFetcherProperties.

Lemma retry_until_success_witness :
  fetch_patients_with_retry busy_once 1 10 []
  = (Some (page_of [severe_patient] false),
     [Get 1 10; Sleep 1; Get 1 10]).
Proof.
  refine (proj1 (retry_until_success busy_once 1 1 10 [] _ _ _ _)).
  - unfold MAX_RETRIES. lia.
  - intros i Hi. assert (i = 0%nat) as -> by lia. reflexivity.
  - reflexivity.
Defined.

Lemma retry_bounded_witness :
  exists evs,
    [Get 1 10; Sleep 1; Get 1 10] = [] ++ evs
    /\ Forall (about_page 1 10) evs
    /\ (requests evs <= MAX_RETRIES)%nat
    /\ (length evs <= 2 * MAX_RETRIES)%nat.
Proof.
  apply (retry_bounded busy_once 1 10 [] _
           (Some (page_of [severe_patient] false))).
  reflexivity.
Defined.

Lemma retries_exhausted_witness :
  fetch_patients_with_retry down 3 10 [Get 1 10]
  = (None,
     [Get 1 10] ++ [Get 3 10; Sleep 1; Get 3 10; Sleep 2;
                    Get 3 10; Sleep 4; Get 3 10; Sleep 8;
                    Get 3 10; Sleep 16]).
Proof.
  apply retries_exhausted. intros i Hi. reflexivity.
Defined.

Lemma fetch_stops_on_last_page_witness :
  fetch_all_patients busy_once 1
  = Some ([severe_patient], [Get 1 10; Sleep 1; Get 1 10]).
Proof.
  apply (fetch_stops_on_last_page busy_once 0 [] _ []
           (page_of [severe_patient] false)).
  - constructor.
  - reflexivity.
  - by left.
  - lia.
Defined.

Lemma fetch_has_no_page_cap_witness :
  fetch_all_patients endless 1000 = None.
Proof.
  apply fetch_has_no_page_cap. intros tr page limit.
  exists (page_of [∅] true), [∅]. repeat split. discriminate.
Defined.

(** * Properties of the submission and of the whole run *)

Lemma show_part_Some (breakdown : jvalue) (key : string) :
  show_part breakdown key = Some () ->
  exists bd fields,
    breakdown = JObj bd /\ lookup_entry key bd = Some (JObj fields)
    /\ Forall (fun k => is_Some (lookup_entry k fields))
         ["score"; "max"; "correct"; "submitted"].
Proof.
  unfold show_part.
  destruct breakdown as [| | | | | |bd]; try done. cbn [subscript].
  destruct (lookup_entry key bd) as [[| | | | | |fields]|] eqn:El; try done.
  cbn [mbind option_bind subscript]. exists bd, fields.
  destruct (lookup_entry "score" fields) eqn:E1; [|done].
  destruct (lookup_entry "max" fields) eqn:E2; [|done].
  destruct (lookup_entry "correct" fields) eqn:E3; [|done].
  destruct (lookup_entry "submitted" fields) eqn:E4; [|done].
  do 2 (split; [done|]).
  repeat constructor; rewrite ?E1, ?E2, ?E3, ?E4; eauto.
Qed.

(** [submit_assessment] reports a success only if it posted the three lists
    once and the answer has status 200 and is an object with a true
    [success] entry and a [results] object that holds every field that is
    displayed: the five top-level fields and, in [breakdown], the four
    fields of each of the three parts.  An accepted submission whose answer
    lacks one of them is reported as failed. *)
Theorem submit_success_requires (sink : submission -> post_response)
  (results : Cohorts) (posts : list submission) :
  submit_assessment sink results = (true, posts) ->
  posts = [submission_data results]
  /\ exists entries success res bd,
       sink (submission_data results) = PostResponse 200 (Some (JObj entries))
       /\ lookup_entry "success" entries = Some success
       /\ truthy success = true
       /\ lookup_entry "results" entries = Some (JObj res)
       /\ Forall (fun k => is_Some (lookup_entry k res))
            ["score"; "percentage"; "status"; "attempt_number";
             "remaining_attempts"]
       /\ lookup_entry "breakdown" res = Some (JObj bd)
       /\ Forall (fun part =>
                    exists fields,
                      lookup_entry part bd = Some (JObj fields)
                      /\ Forall (fun k => is_Some (lookup_entry k fields))
                           ["score"; "max"; "correct"; "submitted"])
            ["high_risk"; "fever"; "data_quality"].
Proof.
  unfold submit_assessment.
  destruct (negb (serializable _)); [done|].
  destruct (sink _) as [status_code [[| | | | | |entries]|]|]; try done;
    try (by destruct (status_code =? 200)).
  destruct (Z.eqb_spec status_code 200) as [->|]; [|done].
  destruct (printable (JObj entries)); [|done].
  destruct (lookup_entry "success" entries) as [success|] eqn:Es; [|done].
  destruct (truthy success) eqn:Et; [|done].
  destruct (show_results (JObj entries)) as [[]|] eqn:Eshow; [|done].
  intros [= <-]. split; [done|].
  exists entries, success. revert Eshow. unfold show_results.
  cbn [subscript].
  destruct (lookup_entry "results" entries) as [[| | | | | |res]|]; try done.
  cbn [mbind option_bind subscript].
  destruct (lookup_entry "score" res) eqn:E1; [|done].
  destruct (lookup_entry "percentage" res) eqn:E2; [|done].
  destruct (lookup_entry "status" res) eqn:E3; [|done].
  destruct (lookup_entry "attempt_number" res) eqn:E4; [|done].
  destruct (lookup_entry "remaining_attempts" res) eqn:E5; [|done].
  destruct (lookup_entry "breakdown" res) as [breakdown|] eqn:E6; [|done].
  cbn [mbind option_bind].
  destruct (show_part breakdown "high_risk") as [[]|] eqn:P1; [|done].
  destruct (show_part breakdown "fever") as [[]|] eqn:P2; [|done].
  destruct (show_part breakdown "data_quality") as [[]|] eqn:P3; [|done].
  intros _.
  apply show_part_Some in P1 as (bd & f1 & -> & L1 & F1).
  apply show_part_Some in P2 as (bd2 & f2 & [= <-] & L2 & F2).
  apply show_part_Some in P3 as (bd3 & f3 & [= <-] & L3 & F3).
  exists res, bd. do 4 (split; [done|]).
  split; [repeat constructor; rewrite ?E1, ?E2, ?E3, ?E4, ?E5; eauto|].
  split; [done|]. repeat constructor; eauto.
Qed.

Lemma submit_success_requires_witness :
  submit_assessment grader
    {| high_risk_patients := [PStr "P1"]; fever_patients := [];
       data_quality_issues := []; total_patients := 1 |}
  = (true, [{| submitted_high_risk := [PStr "P1"]; submitted_fever := [];
               submitted_data_quality := [] |}])
  /\ exists entries,
       grader {| submitted_high_risk := [PStr "P1"]; submitted_fever := [];
                 submitted_data_quality := [] |}
       = PostResponse 200 (Some (JObj entries))
       /\ is_Some (lookup_entry "success" entries).
Proof.
  assert (submit_assessment grader
            {| high_risk_patients := [PStr "P1"]; fever_patients := [];
               data_quality_issues := []; total_patients := 1 |}
          = (true, [{| submitted_high_risk := [PStr "P1"];
                       submitted_fever := [];
                       submitted_data_quality := [] |}])) as H
    by (vm_compute; reflexivity).
  split; [exact H|].
  destruct (submit_success_requires _ _ _ H)
    as (_ & entries & success & _ & _ & Hsink & Hs & _).
  exists entries. split; [exact Hsink|]. rewrite Hs. eauto.
Defined.

Lemma encodable_texts (ss : list string) :
  forallb encodable (PStr <$> ss) = true.
Proof. by induction ss. Qed.

Lemma show_ids_texts (ss : list string) : show_ids (PStr <$> ss) = Ok ().
Proof. unfold show_ids. by induction ss. Qed.

(** [run] lets the exception of [process_patients] through: when one of
    the fetched records cannot be scored, the run ends with that exception
    after the fetch, and nothing is submitted for the other records.  The
    fetched records are decoded by [json], which leaves [OverflowError] as
    the one exception. *)
Theorem run_crashes_on_unscorable_record
  (source : list event -> Z -> Z -> response)
  (sink : submission -> post_response) (fuel : nat)
  (patients : list (gmap string pyvalue)) (tr : list event)
  (p : gmap string pyvalue) :
  fetch_all_patients source fuel = Some (patients, tr) ->
  p ∈ patients -> ~ scorable p ->
  exists e,
    run source sink fuel = Some (Raise e, tr, [])
    /\ (e = ValueError \/ e = OverflowError)
    /\ (Forall decoded patients -> e = OverflowError).
Proof.
  intros Hf Hin Hp.
  assert (~ Forall scorable patients) as Hn.
  { rewrite Forall_forall. intros Hall. by apply Hp, Hall. }
  destruct (process_patients_unscorable patients Hn)
    as (before & q & after & e & Hl & _ & Hq & Hr).
  exists e. split; [|split].
  - unfold run. rewrite Hf. cbn [mbind option_bind]. rewrite Hr.
    destruct patients; [by apply elem_of_nil in Hin | done].
  - by apply calculate_risk_score_raises in Hq.
  - intros Hd. pose proof (process_patients_unscorable_decoded _ Hd Hn).
    congruence.
Qed.

Lemma run_crashes_on_unscorable_record_witness :
  run one_bad_record grader 1
  = Some (Raise OverflowError, [Get 1 10], []).
Proof.
  destruct (run_crashes_on_unscorable_record one_bad_record grader 1
              [severe_patient;
               record "P9" (PStr "120/80") (PFloat 98.6) (PFloat infinity)]
              [Get 1 10]
              (record "P9" (PStr "120/80") (PFloat 98.6) (PFloat infinity)))
    as (e & Hrun & _ & _).
  - reflexivity.
  - apply list_elem_of_further, list_elem_of_here.
  - intros [risk Hr]. vm_compute in Hr. discriminate Hr.
  - rewrite Hrun. vm_compute in Hrun. by injection Hrun as <-.
Defined.

(** When records were fetched, all can be scored and all identifiers are
    texts, [run] makes exactly one submission, whatever the answer: the
    three lists of [process_patients] on the fetched records, each in
    lexicographic order, and without [total_patients]. *)
Theorem run_submits_sorted_cohorts
  (source : list event -> Z -> Z -> response)
  (sink : submission -> post_response) (fuel : nat)
  (patients : list (gmap string pyvalue)) (tr : list event) :
  fetch_all_patients source fuel = Some (patients, tr) ->
  patients <> [] ->
  Forall scorable patients -> Forall has_text_id patients ->
  exists results success,
    process_patients patients = Ok results
    /\ run source sink fuel
       = Some (Ok (Some success), tr, [submission_data results])
    /\ success = (submit_assessment sink results).1
    /\ lex_sorted (submitted_high_risk (submission_data results))
    /\ lex_sorted (submitted_fever (submission_data results))
    /\ lex_sorted (submitted_data_quality (submission_data results)).
Proof.
  intros Hf Hne Hall Hid.
  set (texts member :=
         sorted_str (id_text <$> filter (fun p => Is_true (member p)) patients)).
  set (results :=
         {| high_risk_patients := PStr <$> texts scores_high;
            fever_patients :=
              PStr <$> texts (fun p => raw_fever (get p "temperature"));
            data_quality_issues := PStr <$> texts flagged;
            total_patients := length patients |}).
  assert (process_patients patients = Ok results) as Hr.
  { apply process_patients_spec. split; [done|].
    by rewrite !sorted_cohort. }
  exists results, (submit_assessment sink results).1.
  split; [done|]. split.
  - unfold run. rewrite Hf. cbn [mbind option_bind]. rewrite Hr.
    destruct patients; [done|].
    cbn [high_risk_patients fever_patients data_quality_issues results].
    rewrite <- !fmap_app, show_ids_texts.
    unfold submit_assessment, serializable, submission_data. cbn.
    by rewrite !encodable_texts.
  - split; [done|].
    repeat split; eexists; (split; [reflexivity | apply Sorted_sorted_str]).
Qed.

Lemma run_submits_sorted_cohorts_witness :
  run two_pages grader 2
  = Some (Ok (Some true), [Get 1 10; Sleep 0.2; Get 2 10],
          [{| submitted_high_risk := [PStr "P1"];
              submitted_fever := [PStr "P1"];
              submitted_data_quality := [PStr "UNKNOWN"] |}]).
Proof.
  assert (fetch_all_patients two_pages 2
          = Some ([severe_patient; ∅], [Get 1 10; Sleep 0.2; Get 2 10])) as Hf
    by reflexivity.
  assert ([severe_patient; (∅ : gmap string pyvalue)] <> []) as Hne
    by discriminate.
  assert (Forall scorable [severe_patient; ∅]) as Hall
    by (repeat constructor; eexists; vm_compute; reflexivity).
  assert (Forall has_text_id [severe_patient; ∅]) as Hid
    by (repeat constructor; eexists; vm_compute; reflexivity).
  destruct (run_submits_sorted_cohorts two_pages grader 2 _ _ Hf Hne Hall Hid)
    as (results & success & Hr & Hrun & Hs & _).
  rewrite Hrun, Hs. vm_compute in Hr. injection Hr as <-.
  vm_compute. reflexivity.
Defined.

(** When the first page cannot be fetched, has no [data] entry or holds no
    record, [run] ends after that one page request: nothing is scored and
    nothing is submitted. *)
Theorem run_stops_without_patients
  (source : list event -> Z -> Z -> response)
  (sink : submission -> post_response)
  (r : option body) (tr : list event) :
  fetch_patients_with_retry source 1 10 [] = (r, tr) ->
  r = None \/ (exists b, r = Some b /\ (data b = None \/ data b = Some [])) ->
  forall fuel, (1 <= fuel)%nat ->
    run source sink fuel = Some (Ok None, tr, []).
Proof.
  intros Hf Hr fuel Hfuel. destruct fuel as [|fuel]; [lia|].
  unfold run, fetch_all_patients. cbn [fetch_loop]. rewrite Hf.
  destruct Hr as [-> | (b & -> & [-> | ->])]; done.
Qed.

Lemma run_stops_without_patients_witness :
  run down grader 1
  = Some (Ok None,
          [Get 1 10; Sleep 1; Get 1 10; Sleep 2; Get 1 10; Sleep 4;
           Get 1 10; Sleep 8; Get 1 10; Sleep 16], []).
Proof.
  apply (run_stops_without_patients down grader None).
  - vm_compute. reflexivity.
  - by left.
  - lia.
Defined.
